(** * Routing, verification and embedding logic of the agentic applications

    A shallow embedding of the hand-written logic of
    [agentic-idp/agentic_idp.py], [agentic-idp/exteral_service.py],
    [agentic-idp/decision.py], [agentic-idp/storage.py] and
    [strandsdk_agentic_rag_opensearch/src/tools/embedding_retriever.py].

    Conventions.
    - A Python [str] is a [string]; its characters are read as the code
      points U+0000..U+00FF.  Text with code points above U+00FF is
      outside the model.
    - A Python [float] is a binary64 value of [SpecFloat]
      ([prec = 53], [emax = 1024]); every operation rounds to nearest,
      ties to even.
    - Code that can raise returns a [result]; [try]/[except] is a match
      on it.  The interpreter's own limits (recursion depth, memory,
      the number of digits of an integer literal) are not modelled.
    - Standard output encodes as UTF-8 with the strict error handler,
      Python's default: [print] raises [UnicodeEncodeError] exactly
      when its text holds a surrogate code point, U+D800 to U+DFFF,
      which [json.loads] decodes from an escape.  A [print] is modelled
      where its text can hold one; other failures of the stream are
      not modelled.
    - The language model behind the reflection node is a parameter: any
      function from the prompt to an answer or an exception.  So are
      the answer of the vision model and of the embeddings endpoint,
      the random draws of the fallback embedding, and [json.dumps]. *)

From Stdlib Require Import String Ascii List ZArith Bool Lia SpecFloat.
Import ListNotations.

Local Open Scope string_scope.
Local Open Scope list_scope.

Set Warnings "-register-all".

(* ================================================================= *)
(** ** Exceptions *)

Inductive exn :=
| IndexError
| KeyError
| TypeError
| AttributeError
| ValueError
| OverflowError
| ZeroDivisionError
| JSONDecodeError
| UnicodeEncodeError
| RuntimeError (msg : string).

Inductive result (A : Type) :=
| Ok (a : A)
| Raise (e : exn).
Arguments Ok {A} a.
Arguments Raise {A} e.

Definition bind {A B} (m : result A) (f : A -> result B) : result B :=
  match m with
  | Ok a => f a
  | Raise e => Raise e
  end.

Notation "x <- m ;; k" := (bind m (fun x => k))
  (at level 61, m at next level, right associativity).

(** A list comprehension whose element expression can raise. *)
Fixpoint map_result {A B} (f : A -> result B) (l : list A)
  : result (list B) :=
  match l with
  | [] => Ok []
  | x :: l' => y <- f x ;; ys <- map_result f l' ;; Ok (y :: ys)
  end.

(** [str(e)] of an exception, as far as the program looks at it. *)
Definition str_of_exn (e : exn) : string :=
  match e with
  | IndexError => "list index out of range"
  | KeyError => "KeyError"
  | TypeError => "TypeError"
  | AttributeError => "AttributeError"
  | ValueError => "ValueError"
  | OverflowError => "OverflowError"
  | ZeroDivisionError => "float division by zero"
  | JSONDecodeError => "JSONDecodeError"
  | UnicodeEncodeError => "UnicodeEncodeError"
  | RuntimeError msg => msg
  end.

(* ================================================================= *)
(** ** Python string operations *)

Module Str.

Definition code (c : ascii) : N := N_of_ascii c.

Definition between (lo hi : N) (c : ascii) : bool :=
  (lo <=? code c)%N && (code c <=? hi)%N.

(** The double quote, which a string literal cannot hold directly. *)
Definition dquote : ascii := ascii_of_N 34.
Definition quoted (s : string) : string :=
  String dquote (s ++ String dquote EmptyString).

(** [str.isspace] on one character (also the class [\s] of [re]). *)
Definition isspace (c : ascii) : bool :=
  between 9 13 c || between 28 32 c
  || (code c =? 133)%N || (code c =? 160)%N.

Definition isdigit (c : ascii) : bool := between 48 57 c.

(** The class [\w] of [re] on U+0000..U+00FF. *)
Definition isword (c : ascii) : bool :=
  between 48 57 c || between 65 90 c || between 97 122 c
  || (code c =? 95)%N
  || (code c =? 170)%N || (code c =? 178)%N || (code c =? 179)%N
  || (code c =? 181)%N || (code c =? 185)%N || (code c =? 186)%N
  || between 188 190 c
  || between 192 214 c || between 216 246 c || between 248 255 c.

(** [str.lower] on one character of U+0000..U+00FF. *)
Definition lower_char (c : ascii) : ascii :=
  if between 65 90 c || between 192 214 c || between 216 222 c
  then ascii_of_N (code c + 32)
  else c.

Fixpoint lower (s : string) : string :=
  match s with
  | EmptyString => EmptyString
  | String c s' => String (lower_char c) (lower s')
  end.

Fixpoint rev_append (s acc : string) : string :=
  match s with
  | EmptyString => acc
  | String c s' => rev_append s' (String c acc)
  end.

Definition rev (s : string) : string := rev_append s EmptyString.

Fixpoint lstrip (s : string) : string :=
  match s with
  | String c s' => if isspace c then lstrip s' else s
  | EmptyString => EmptyString
  end.

Definition rstrip (s : string) : string := rev (lstrip (rev s)).

(** [s.strip()] *)
Definition strip (s : string) : string := rstrip (lstrip s).

(** [s.startswith(p)], returning the rest of [s] after [p]. *)
Fixpoint drop_prefix (p s : string) : option string :=
  match p, s with
  | EmptyString, _ => Some s
  | String a p', String b s' =>
      if Ascii.eqb a b then drop_prefix p' s' else None
  | String _ _, EmptyString => None
  end.

(** [sub in s] *)
Fixpoint contains (sub s : string) : bool :=
  match drop_prefix sub s with
  | Some _ => true
  | None =>
      match s with
      | String _ s' => contains sub s'
      | EmptyString => false
      end
  end.

(** One left-to-right scan shared by [split] and [replace]: [skip]
    counts the characters of a separator found earlier that are still
    to be passed over; [cur] is the current piece, reversed. *)
Fixpoint split_scan (sep s : string) (skip : nat) (cur : string)
  : list string :=
  match skip with
  | S n =>
      match s with
      | String _ s' => split_scan sep s' n cur
      | EmptyString => [rev cur]
      end
  | O =>
      match s with
      | EmptyString => [rev cur]
      | String c s' =>
          match drop_prefix sep s with
          | Some _ =>
              rev cur :: split_scan sep s' (String.length sep - 1) EmptyString
          | None => split_scan sep s' 0 (String c cur)
          end
      end
  end.

(** [s.split(sep)] for a non-empty [sep]. *)
Definition split (sep s : string) : list string :=
  split_scan sep s 0 EmptyString.

Fixpoint join (sep : string) (l : list string) : string :=
  match l with
  | [] => EmptyString
  | [x] => x
  | x :: l' => x ++ sep ++ join sep l'
  end.

(** [s.replace(old, new)] for a non-empty [old]. *)
Definition replace (old new s : string) : string :=
  join new (split old s).

(** [s.split()]: the maximal runs of non-whitespace characters. *)
Fixpoint words_scan (s : string) (cur : string) : list string :=
  match s with
  | EmptyString =>
      match cur with EmptyString => [] | _ => [rev cur] end
  | String c s' =>
      if isspace c
      then match cur with
           | EmptyString => words_scan s' EmptyString
           | _ => rev cur :: words_scan s' EmptyString
           end
      else words_scan s' (String c cur)
  end.

Definition words (s : string) : list string := words_scan s EmptyString.

Fixpoint take (n : nat) (s : string) : string :=
  match n, s with
  | S n', String c s' => String c (take n' s')
  | _, _ => EmptyString
  end.

Fixpoint last_char (prev : option ascii) (s : string) : option ascii :=
  match s with
  | EmptyString => prev
  | String c s' => last_char (Some c) s'
  end.

End Str.

(* ================================================================= *)
(** ** Regular expressions ([re])

    The patterns of the program repeat single character classes only,
    so the syntax has [Star] and [Plus] on classes.  Matching follows
    [re]: leftmost start, alternatives in order, greedy repetition with
    backtracking. *)

Module Re.

Inductive regex :=
| Lit (s : string)
| Class (p : ascii -> bool)
| Star (p : ascii -> bool)
| Plus (p : ascii -> bool)
| Opt (r : regex)
| Seq (r1 r2 : regex)
| Alt (r1 r2 : regex)
| Group (r : regex)
| WordBoundary
| EndAnchor.

(** Position of the matcher: the character before it, the text ahead,
    the offset, and the groups closed so far (in order of closing). *)
Record cursor := Cursor {
  prev : option ascii;
  ahead : string;
  offset : nat;
  groups : list string
}.

Section Matcher.
Variable ignorecase : bool.
Context {R : Type}.

Definition char_eq (a b : ascii) : bool :=
  if ignorecase
  then Ascii.eqb (Str.lower_char a) (Str.lower_char b)
  else Ascii.eqb a b.

Fixpoint lit (l : string) (c : cursor) : option cursor :=
  match l with
  | EmptyString => Some c
  | String a l' =>
      match ahead c with
      | String b s' =>
          if char_eq a b
          then lit l' (Cursor (Some b) s' (S (offset c)) (groups c))
          else None
      | EmptyString => None
      end
  end.

(** Greedy [p*]: take as many characters as possible, then give
    them back one at a time until the continuation succeeds. *)
Fixpoint star (p : ascii -> bool) (k : cursor -> option R)
  (pv : option ascii) (s : string) (off : nat) (gs : list string)
  : option R :=
  match s with
  | String b s' =>
      if p b then
        match star p k (Some b) s' (S off) gs with
        | Some r => Some r
        | None => k (Cursor pv s off gs)
        end
      else k (Cursor pv s off gs)
  | EmptyString => k (Cursor pv s off gs)
  end.

Definition is_word_opt (o : option ascii) : bool :=
  match o with Some c => Str.isword c | None => false end.

Definition next_char (s : string) : option ascii :=
  match s with String b _ => Some b | EmptyString => None end.

Definition newline : ascii := ascii_of_N 10.

Fixpoint run (r : regex) (c : cursor) (k : cursor -> option R)
  : option R :=
  match r with
  | Lit l =>
      match lit l c with
      | Some c' => k c'
      | None => None
      end
  | Class p =>
      match ahead c with
      | String b s' =>
          if p b then k (Cursor (Some b) s' (S (offset c)) (groups c))
          else None
      | EmptyString => None
      end
  | Star p => star p k (prev c) (ahead c) (offset c) (groups c)
  | Plus p =>
      match ahead c with
      | String b s' =>
          if p b then star p k (Some b) s' (S (offset c)) (groups c)
          else None
      | EmptyString => None
      end
  | Opt r1 =>
      match run r1 c k with
      | Some x => Some x
      | None => k c
      end
  | Seq r1 r2 => run r1 c (fun c' => run r2 c' k)
  | Alt r1 r2 =>
      match run r1 c k with
      | Some x => Some x
      | None => run r2 c k
      end
  | Group r1 =>
      run r1 c (fun c' =>
        k (Cursor (prev c') (ahead c') (offset c')
             (groups c' ++ [Str.take (offset c' - offset c) (ahead c)])))
  | WordBoundary =>
      if xorb (is_word_opt (prev c)) (is_word_opt (next_char (ahead c)))
      then k c else None
  | EndAnchor =>
      match ahead c with
      | EmptyString => k c
      | String b EmptyString => if Ascii.eqb b newline then k c else None
      | _ => None
      end
  end.
End Matcher.

(** A match object: [start()], [group()] and the captured groups. *)
Record rmatch := Match {
  m_start : nat;
  m_group0 : string;
  m_groups : list string
}.

Definition group (m : rmatch) (i : nat) : option string :=
  match i with
  | O => Some (m_group0 m)
  | S j => nth_error (m_groups m) j
  end.

(** The match that starts exactly at the cursor, if there is one. *)
Definition match_here (ic : bool) (r : regex) (pv : option ascii)
  (s : string) (off : nat) : option rmatch :=
  match run ic r (Cursor pv s off []) (fun c => Some c) with
  | Some c' =>
      Some (Match off (Str.take (offset c' - off) s) (groups c'))
  | None => None
  end.

Fixpoint search_from (ic : bool) (r : regex) (pv : option ascii)
  (s : string) (off : nat) : option rmatch :=
  match match_here ic r pv s off with
  | Some m => Some m
  | None =>
      match s with
      | String b s' => search_from ic r (Some b) s' (S off)
      | EmptyString => None
      end
  end.

(** [re.search(r, s)] and [re.search(r, s, re.IGNORECASE)] *)
Definition search (ic : bool) (r : regex) (s : string) : option rmatch :=
  search_from ic r None s 0.

(** All non-overlapping matches from left to right; [skip] counts the
    characters of the previous match still to be passed over. *)
Fixpoint scan (ic : bool) (r : regex) (pv : option ascii) (s : string)
  (off skip : nat) : list rmatch :=
  match skip with
  | S n =>
      match s with
      | String b s' => scan ic r (Some b) s' (S off) n
      | EmptyString => []
      end
  | O =>
      match s with
      | EmptyString =>
          match match_here ic r pv s off with
          | Some m => [m]
          | None => []
          end
      | String b s' =>
          match match_here ic r pv s off with
          | Some m =>
              m :: scan ic r (Some b) s' (S off)
                     (String.length (m_group0 m) - 1)
          | None => scan ic r (Some b) s' (S off) 0
          end
      end
  end.

(** [re.findall(r, s)] for a pattern with one group: the text of the
    group in each match. *)
Definition findall (r : regex) (s : string) : list string :=
  map (fun m => match group m 1 with Some g => g | None => EmptyString end)
      (scan false r None s 0 0).

(** [re.sub(r, '', s)]: the text outside the matches. *)
Fixpoint delete_scan (r : regex) (pv : option ascii) (s : string)
  (off skip : nat) : string :=
  match skip with
  | S n =>
      match s with
      | String b s' => delete_scan r (Some b) s' (S off) n
      | EmptyString => EmptyString
      end
  | O =>
      match s with
      | EmptyString => EmptyString
      | String b s' =>
          match match_here false r pv s off with
          | Some m =>
              match String.length (m_group0 m) with
              | O => String b (delete_scan r (Some b) s' (S off) 0)
              | S n => delete_scan r (Some b) s' (S off) n
              end
          | None => String b (delete_scan r (Some b) s' (S off) 0)
          end
      end
  end.

Definition sub_empty (r : regex) (s : string) : string :=
  delete_scan r None s 0 0.

(** *** What a pattern matches

    [matches ic r pv w rest gs]: at a place where the character before
    is [pv] and the text ahead is [w ++ rest], the pattern [r] can
    match exactly [w], closing the groups [gs]. *)

Fixpoint all (p : ascii -> bool) (s : string) : bool :=
  match s with
  | EmptyString => true
  | String c s' => p c && all p s'
  end.

Fixpoint lit_eq (ic : bool) (l w : string) : bool :=
  match l, w with
  | EmptyString, EmptyString => true
  | String a l', String b w' => char_eq ic a b && lit_eq ic l' w'
  | _, _ => false
  end.

Inductive matches (ic : bool)
  : regex -> option ascii -> string -> string -> list string -> Prop :=
| M_Lit l pv w rest :
    lit_eq ic l w = true -> matches ic (Lit l) pv w rest []
| M_Class p pv b rest :
    p b = true -> matches ic (Class p) pv (String b EmptyString) rest []
| M_Star p pv w rest :
    all p w = true -> matches ic (Star p) pv w rest []
| M_Plus p pv b w rest :
    p b = true -> all p w = true ->
    matches ic (Plus p) pv (String b w) rest []
| M_Opt_some r pv w rest gs :
    matches ic r pv w rest gs -> matches ic (Opt r) pv w rest gs
| M_Opt_none r pv rest :
    matches ic (Opt r) pv EmptyString rest []
| M_Seq r1 r2 pv w1 w2 rest g1 g2 :
    matches ic r1 pv w1 (w2 ++ rest) g1 ->
    matches ic r2 (Str.last_char pv w1) w2 rest g2 ->
    matches ic (Seq r1 r2) pv (w1 ++ w2) rest (g1 ++ g2)
| M_Alt_l r1 r2 pv w rest gs :
    matches ic r1 pv w rest gs -> matches ic (Alt r1 r2) pv w rest gs
| M_Alt_r r1 r2 pv w rest gs :
    matches ic r2 pv w rest gs -> matches ic (Alt r1 r2) pv w rest gs
| M_Group r pv w rest gs :
    matches ic r pv w rest gs ->
    matches ic (Group r) pv w rest (gs ++ [w])
| M_WordBoundary pv rest :
    xorb (is_word_opt pv) (is_word_opt (next_char rest)) = true ->
    matches ic WordBoundary pv EmptyString rest []
| M_EndAnchor pv rest :
    rest = EmptyString \/ rest = String newline EmptyString ->
    matches ic EndAnchor pv EmptyString rest [].

(** What a match object of the pattern [r] holds. *)
Definition describes (ic : bool) (r : regex) (m : rmatch) : Prop :=
  exists pv rest, matches ic r pv (m_group0 m) rest (m_groups m).

(** Character classes of the program's patterns. *)
Definition not_brace (c : ascii) : bool :=
  negb (Ascii.eqb c "{" || Ascii.eqb c "}").
Definition not_dquote (c : ascii) : bool := negb (Ascii.eqb c Str.dquote).
Definition is_zero (c : ascii) : bool := Ascii.eqb c "0".

End Re.

(* ================================================================= *)
(** ** Python floats (binary64) *)

Module Float.

Definition prec : Z := 53.
Definition emax : Z := 1024.

Definition float := spec_float.

Definition mul : float -> float -> float := SFmul prec emax.
Definition add : float -> float -> float := SFadd prec emax.
Definition div : float -> float -> float := SFdiv prec emax.
Definition sqrt : float -> float := SFsqrt prec emax.
Definition leb : float -> float -> bool := SFleb.
Definition eqb : float -> float -> bool := SFeqb.

(** The nearest float of an integer (ties to even). *)
Definition of_Z (z : Z) : float := binary_normalize prec emax z 0 false.

(** The nearest float of the decimal [(-1)^neg * m * 10^e10]: what
    [float(text)] and a float literal denote. *)
Definition of_decimal (neg : bool) (m : N) (e10 : Z) : float :=
  match m with
  | N0 => S754_zero neg
  | Npos p =>
      if (0 <=? e10)%Z
      then binary_round prec emax neg (p * Z.to_pos (10 ^ e10)) 0
      else div (S754_finite neg p 0)
               (S754_finite false (Z.to_pos (10 ^ (- e10))) 0)
  end.

Definition zero : float := S754_zero false.

(** Not NaN, and with the sign [s]. *)
Definition signed (s : bool) (f : float) : Prop :=
  match f with
  | S754_zero s' | S754_infinity s' | S754_finite s' _ _ => s' = s
  | S754_nan => False
  end.

(** Zero, or finite and of magnitude below [2 ^ B], with the sign
    [s]. *)
Definition below (s : bool) (B : Z) (f : float) : Prop :=
  match f with
  | S754_zero s' => s' = s
  | S754_finite s' m e => s' = s /\ (Zdigits2 (Zpos m) + e <= B)%Z
  | _ => False
  end.

(** Not below zero (NaN included): what [math.sqrt] accepts. *)
Definition not_negative (f : float) : Prop :=
  match f with
  | S754_finite true _ _ | S754_infinity true => False
  | _ => True
  end.

(** [int(f)]: truncation toward zero; [ValueError] on NaN and
    [OverflowError] on an infinity. *)
Definition to_int (f : float) : result Z :=
  match f with
  | S754_zero _ => Ok 0%Z
  | S754_finite s m e =>
      let a := match e with
               | Zneg k => Z.shiftr (Zpos m) (Zpos k)
               | _ => Z.shiftl (Zpos m) e
               end in
      Ok (if s then Z.opp a else a)
  | S754_nan => Raise ValueError
  | S754_infinity _ => Raise OverflowError
  end.

(** Exact comparison of an integer with a float, as Python compares
    an [int] with a [float]. *)
Definition compare_Z (z : Z) (f : float) : option comparison :=
  match f with
  | S754_nan => None
  | S754_infinity s => Some (if s then Gt else Lt)
  | S754_zero _ => Some (Z.compare z 0)
  | S754_finite s m e =>
      let v := if s then Zneg m else Zpos m in
      Some (match e with
            | Zneg k => Z.compare (Z.shiftl z (Zpos k)) v
            | _ => Z.compare z (Z.shiftl v e)
            end)
  end.

End Float.

(* ================================================================= *)
(** ** [json.loads] *)

Module Json.

(** Decoded text: a sequence of code points. *)
Definition text := list N.

Definition text_of_string (s : string) : text :=
  map N_of_ascii (list_ascii_of_string s).

Definition text_eqb (a b : text) : bool :=
  if list_eq_dec N.eq_dec a b then true else false.

(** The Python values that [json.loads] builds (and that the
    program's dicts hold). *)
Inductive value :=
| Null
| Bool (b : bool)
| Int (z : Z)
| Float (f : Float.float)
| Str (s : text)
| Arr (l : list value)
| Obj (d : list (text * value)).

(** [d.get(key)] on the pairs in the order parsed: the last pair of a
    repeated key wins. *)
Fixpoint lookup (key : text) (d : list (text * value)) : option value :=
  match d with
  | [] => None
  | (k, v) :: d' =>
      match lookup key d' with
      | Some v' => Some v'
      | None => if text_eqb k key then Some v else None
      end
  end.

Definition is_ws (c : ascii) : bool :=
  Ascii.eqb c " " || (Str.code c =? 9)%N || (Str.code c =? 10)%N
  || (Str.code c =? 13)%N.

Fixpoint skip_ws (s : string) : string :=
  match s with
  | String c s' => if is_ws c then skip_ws s' else s
  | EmptyString => EmptyString
  end.

Definition hex_digit (c : ascii) : option N :=
  if Str.between 48 57 c then Some (Str.code c - 48)%N
  else if Str.between 65 70 c then Some (Str.code c - 55)%N
  else if Str.between 97 102 c then Some (Str.code c - 87)%N
  else None.

Definition is_high_surrogate (n : N) : bool :=
  (55296 <=? n)%N && (n <=? 56319)%N.
Definition is_low_surrogate (n : N) : bool :=
  (56320 <=? n)%N && (n <=? 57343)%N.

(** State of the string scanner between two characters. [hi] tells
    that the code point at the head of the text read so far is a high
    surrogate written as a [\u] escape that ended just here. *)
Inductive smode :=
| Plain (hi : bool)
| Esc (hi : bool)
| Hex (hi : bool) (todo : nat) (acc : N).

Definition simple_escape (c : ascii) : option N :=
  if Ascii.eqb c Str.dquote then Some 34%N
  else if Ascii.eqb c "\" then Some 92%N
  else if Ascii.eqb c "/" then Some 47%N
  else if Ascii.eqb c "b" then Some 8%N
  else if Ascii.eqb c "f" then Some 12%N
  else if Ascii.eqb c "n" then Some 10%N
  else if Ascii.eqb c "r" then Some 13%N
  else if Ascii.eqb c "t" then Some 9%N
  else None.

(** The text read so far is kept reversed in [out]. *)
Definition push_escape (hi : bool) (u : N) (out : text) : text :=
  match hi, out with
  | true, h :: out' =>
      if is_low_surrogate u
      then (65536 + ((h - 55296) * 1024 + (u - 56320)))%N :: out'
      else u :: out
  | _, _ => u :: out
  end.

(** [scanstring(s, end, strict=True)] from just after the opening
    quote: the decoded text and what follows the closing quote. *)
Fixpoint scanstring (m : smode) (s : string) (out : text)
  : option (text * string) :=
  match s with
  | EmptyString => None
  | String c s' =>
      match m with
      | Plain hi =>
          if Ascii.eqb c Str.dquote then Some (rev out, s')
          else if Ascii.eqb c "\" then scanstring (Esc hi) s' out
          else if (Str.code c <? 32)%N then None
          else scanstring (Plain false) s' (Str.code c :: out)
      | Esc hi =>
          if Ascii.eqb c "u" then scanstring (Hex hi 4 0) s' out
          else match simple_escape c with
               | Some u => scanstring (Plain false) s' (u :: out)
               | None => None
               end
      | Hex hi todo acc =>
          match hex_digit c with
          | None => None
          | Some d =>
              let acc' := (acc * 16 + d)%N in
              match todo with
              | 1%nat =>
                  scanstring (Plain (is_high_surrogate acc')) s'
                             (push_escape hi acc' out)
              | _ => scanstring (Hex hi (Nat.pred todo) acc') s' out
              end
          end
      end
  end.

Fixpoint span (p : ascii -> bool) (s : string) : string * string :=
  match s with
  | String c s' =>
      if p c then let (a, b) := span p s' in (String c a, b)
      else (EmptyString, s)
  | EmptyString => (EmptyString, EmptyString)
  end.

Fixpoint digits_value (s : string) (acc : N) : N :=
  match s with
  | String c s' => digits_value s' (acc * 10 + (Str.code c - 48))%N
  | EmptyString => acc
  end.

(** The integer part of a number: an optional minus sign, then [0]
    or a run of digits that does not start with [0]. *)
Definition scan_int (s : string) : option (bool * string * string) :=
  let '(neg, s1) :=
    match s with
    | String "-" t => (true, t)
    | _ => (false, s)
    end in
  match s1 with
  | String c t =>
      if Ascii.eqb c "0" then Some (neg, "0", t)
      else if Str.isdigit c
      then let (ds, rest) := span Str.isdigit t in
           Some (neg, String c ds, rest)
      else None
  | EmptyString => None
  end.

(** The optional fraction [(\.[0-9]+)?]. *)
Definition scan_frac (s : string) : option string * string :=
  match s with
  | String "." t =>
      match span Str.isdigit t with
      | (EmptyString, _) => (None, s)
      | (ds, rest) => (Some ds, rest)
      end
  | _ => (None, s)
  end.

(** The optional exponent [([eE][-+]?[0-9]+)?]. *)
Definition scan_exp (s : string) : option Z * string :=
  match s with
  | String c t =>
      if Ascii.eqb c "e" || Ascii.eqb c "E" then
        let '(neg, t1) :=
          match t with
          | String "-" u => (true, u)
          | String "+" u => (false, u)
          | _ => (false, t)
          end in
        match span Str.isdigit t1 with
        | (EmptyString, _) => (None, s)
        | (ds, rest) =>
            let e := Z.of_N (digits_value ds 0) in
            (Some (if neg then Z.opp e else e), rest)
        end
      else (None, s)
  | EmptyString => (None, s)
  end.

(** A number: an [int] without fraction and exponent, else a
    [float]. *)
Definition scan_number (s : string) : option (value * string) :=
  match scan_int s with
  | None => None
  | Some (neg, ip, r1) =>
      let (frac, r2) := scan_frac r1 in
      let (ex, r3) := scan_exp r2 in
      match frac, ex with
      | None, None =>
          let n := Z.of_N (digits_value ip 0) in
          Some (Int (if neg then Z.opp n else n), r3)
      | _, _ =>
          let fs := match frac with Some f => f | None => EmptyString end in
          let e := match ex with Some e => e | None => 0%Z end in
          Some (Float (Float.of_decimal neg (digits_value (ip ++ fs) 0)
                         (e - Z.of_nat (String.length fs))), r3)
      end
  end.

Definition scan_constant (s : string) : option (value * string) :=
  match Str.drop_prefix "NaN" s with
  | Some r => Some (Float S754_nan, r)
  | None =>
  match Str.drop_prefix "Infinity" s with
  | Some r => Some (Float (S754_infinity false), r)
  | None =>
  match Str.drop_prefix "-Infinity" s with
  | Some r => Some (Float (S754_infinity true), r)
  | None => None
  end end end.

(** The scanner.  [fuel] bounds the number of nested and repeated
    calls; each call reads at least one character first, so twice the
    length of the text is enough. *)
Fixpoint scan_once (fuel : nat) (s : string) : option (value * string) :=
  match fuel with
  | O => None
  | S n =>
      match s with
      | EmptyString => None
      | String c s1 =>
          if Ascii.eqb c Str.dquote then
            match scanstring (Plain false) s1 [] with
            | Some (t, r) => Some (Str t, r)
            | None => None
            end
          else if Ascii.eqb c "{" then
            match skip_ws s1 with
            | String "}" r => Some (Obj [], r)
            | s2 => match scan_members n s2 [] with
                    | Some (d, r) => Some (Obj d, r)
                    | None => None
                    end
            end
          else if Ascii.eqb c "[" then
            match skip_ws s1 with
            | String "]" r => Some (Arr [], r)
            | s2 => match scan_elements n s2 [] with
                    | Some (l, r) => Some (Arr l, r)
                    | None => None
                    end
            end
          else
          match Str.drop_prefix "null" s with
          | Some r => Some (Null, r)
          | None =>
          match Str.drop_prefix "true" s with
          | Some r => Some (Bool true, r)
          | None =>
          match Str.drop_prefix "false" s with
          | Some r => Some (Bool false, r)
          | None =>
          match scan_number s with
          | Some x => Some x
          | None => scan_constant s
          end end end end
      end
  end

(** The members of an object, from the opening quote of a key. *)
with scan_members (fuel : nat) (s : string) (acc : list (text * value))
  : option (list (text * value) * string) :=
  match fuel with
  | O => None
  | S n =>
      match s with
      | String c s1 =>
          if Ascii.eqb c Str.dquote then
            match scanstring (Plain false) s1 [] with
            | None => None
            | Some (key, r1) =>
                match skip_ws r1 with
                | String ":" r2 =>
                    match scan_once n (skip_ws r2) with
                    | None => None
                    | Some (v, r3) =>
                        match skip_ws r3 with
                        | String "}" r4 => Some (rev ((key, v) :: acc), r4)
                        | String "," r4 =>
                            scan_members n (skip_ws r4) ((key, v) :: acc)
                        | _ => None
                        end
                    end
                | _ => None
                end
            end
          else None
      | EmptyString => None
      end
  end

(** The elements of an array, from the first character of a value. *)
with scan_elements (fuel : nat) (s : string) (acc : list value)
  : option (list value * string) :=
  match fuel with
  | O => None
  | S n =>
      match scan_once n s with
      | None => None
      | Some (v, r1) =>
          match skip_ws r1 with
          | String "]" r2 => Some (rev (v :: acc), r2)
          | String "," r2 => scan_elements n (skip_ws r2) (v :: acc)
          | _ => None
          end
      end
  end.

(** [json.loads(s)]: one value between optional whitespace;
    [JSONDecodeError] otherwise. *)
Definition loads (s : string) : result value :=
  match scan_once (2 * String.length s + 2) (skip_ws s) with
  | Some (v, r) =>
      match skip_ws r with
      | EmptyString => Ok v
      | _ => Raise JSONDecodeError
      end
  | None => Raise JSONDecodeError
  end.

End Json.

(* ================================================================= *)
(** ** Messages and the graph state ([decision.State]) *)

Inductive msg_type := ai | human | system | tool.

(** An object met where the code expects a [str]: text, or something
    else ([None], a list of content blocks) that has no [str] method. *)
Inductive pyobj :=
| Text (s : string)
| NotText.

Record message := Message {
  type : msg_type;
  content : pyobj
}.

Definition AIMessage (s : string) : message := Message ai (Text s).
Definition HumanMessage (s : string) : message := Message human (Text s).

Record State := mkState { messages : list message }.

(** [l[-1]] *)
Definition last_item {A} (l : list A) : result A :=
  match rev l with
  | x :: _ => Ok x
  | [] => Raise IndexError
  end.

(** [l[0]] *)
Definition first_item {A} (l : list A) : result A :=
  match l with
  | x :: _ => Ok x
  | [] => Raise IndexError
  end.

(** [content.strip()] *)
Definition content_strip (c : pyobj) : result string :=
  match c with
  | Text s => Ok (Str.strip s)
  | NotText => Raise AttributeError
  end.

(* ================================================================= *)
(** ** The router ([agentic_idp.route_after_reflection]) *)

Module Router.
Import Re.

Fixpoint seq (l : list regex) : regex :=
  match l with
  | [] => Lit EmptyString
  | [r] => r
  | r :: l' => Seq r (seq l')
  end.

(** An object without inner braces that holds the two quoted keys in
    this order. *)
Definition json_pattern : regex :=
  seq [Lit "{"; Star not_brace; Lit (Str.quoted "confidence_score");
       Star not_brace; Lit (Str.quoted "message"); Star not_brace;
       Lit "}"].

(** The quoted key, a colon, optional whitespace, and as group 1 an
    unsigned decimal with an optional integer part. *)
Definition score_pattern : regex :=
  seq [Lit (Str.quoted "confidence_score" ++ ":"); Star Str.isspace;
       Group (seq [Star Str.isdigit; Opt (Lit "."); Plus Str.isdigit])].

Definition msg_pattern : regex :=
  seq [Lit (Str.quoted "message" ++ ":"); Star Str.isspace;
       Lit (String Str.dquote EmptyString);
       Group (Star not_dquote);
       Lit (String Str.dquote EmptyString)].

(** Between word boundaries: [0.] and digits, or [1.] and zeros, or
    [0]. *)
Definition number_pattern : regex :=
  seq [WordBoundary;
       Group (Alt (Seq (Lit "0.") (Plus Str.isdigit))
               (Alt (Seq (Lit "1.") (Plus is_zero)) (Lit "0")));
       WordBoundary].

(** [float(text)] for an unsigned decimal text: digits with at most
    one dot and at least one digit.  Any other text is rejected here
    with [ValueError]; the router passes group 1 of the patterns above
    only. *)
Definition py_float (s : string) : result Float.float :=
  let (ip, r) := Json.span Str.isdigit s in
  let '(fp, r') :=
    match r with
    | String "." t => Json.span Str.isdigit t
    | _ => (EmptyString, r)
    end in
  match r', (ip ++ fp)%string with
  | EmptyString, String _ _ =>
      Ok (Float.of_decimal false (Json.digits_value (ip ++ fp) 0)
            (- Z.of_nat (String.length fp)))
  | _, _ => Raise ValueError
  end.

(** Digits, an optional dot, and at least one more digit: the texts
    that group 1 of [score_pattern] and of [number_pattern] can hold. *)
Definition decimal_text (g : string) : Prop :=
  exists ds dot ds',
    g = (ds ++ dot ++ ds')%string /\ all Str.isdigit ds = true /\
    (dot = "" \/ dot = ".") /\ all Str.isdigit ds' = true /\ ds' <> "".

Definition threshold : Float.float := Float.of_decimal false 75 (-2).
Definition zero : Float.float := Float.of_decimal false 0 (-1).
Definition one : Float.float := Float.of_decimal false 10 (-1).

(** Comparison of a Python value with a float: numbers (and [bool],
    a subtype of [int]) compare by value, NaN is unordered, anything
    else raises [TypeError]. *)
Definition py_compare (v : Json.value) (c : Float.float)
  : result (option comparison) :=
  match v with
  | Json.Float f => Ok (SFcompare f c)
  | Json.Int z => Ok (Float.compare_Z z c)
  | Json.Bool b => Ok (Float.compare_Z (if b then 1 else 0) c)
  | _ => Raise TypeError
  end.

(** [v < c] *)
Definition py_lt (v : Json.value) (c : Float.float) : result bool :=
  o <- py_compare v c ;;
  Ok match o with Some Lt => true | _ => false end.

Definition is_none (v : Json.value) : bool :=
  match v with Json.Null => true | _ => false end.

(** A float between 0 and 1, both included. *)
Definition in_unit_interval (v : Json.value) : bool :=
  match v with
  | Json.Float f => Float.leb zero f && Float.leb f one
  | _ => false
  end.

(** The two local variables that the extraction steps assign. *)
Record locals := Locals {
  confidence_score : Json.value;
  message_text : Json.value
}.

Definition init : locals :=
  Locals Json.Null (Json.Str (Json.text_of_string "")).

Definition key_score : Json.text := Json.text_of_string "confidence_score".
Definition key_message : Json.text := Json.text_of_string "message".

(** [d.get(key)] and [d.get(key, default)] on a decoded value. *)
Definition py_get (v : Json.value) (key : Json.text) (default : Json.value)
  : result Json.value :=
  match v with
  | Json.Obj d =>
      Ok match Json.lookup key d with
         | Some x => x
         | None => default
         end
  | _ => Raise AttributeError
  end.

(** Approach 1: a complete JSON object. *)
Definition approach1 (cleaned_message : string) (l : locals)
  : result locals :=
  match search false json_pattern cleaned_message with
  | Some json_match =>
      match Json.loads (m_group0 json_match) with
      | Ok reflection_result =>
          cs <- py_get reflection_result key_score Json.Null ;;
          mt <- py_get reflection_result key_message
                  (Json.Str (Json.text_of_string "")) ;;
          Ok (Locals cs mt)
      | Raise JSONDecodeError => Ok l
      | Raise e => Raise e
      end
  | None => Ok l
  end.

Definition group1 (m : rmatch) : result string :=
  match group m 1 with
  | Some g => Ok g
  | None => Raise IndexError
  end.

(** Approach 2: the value after the quoted key. *)
Definition approach2 (cleaned_message : string) (l : locals)
  : result locals :=
  if is_none (confidence_score l) then
    match search false score_pattern cleaned_message with
    | Some score_match =>
        g <- group1 score_match ;;
        f <- py_float g ;;
        match search false msg_pattern cleaned_message with
        | Some msg_match =>
            t <- group1 msg_match ;;
            Ok (Locals (Json.Float f) (Json.Str (Json.text_of_string t)))
        | None => Ok (Locals (Json.Float f) (message_text l))
        end
    | None => Ok l
    end
  else Ok l.

(** The loop of approach 3: the first number within [0, 1]. *)
Fixpoint first_reasonable (numbers : list string)
  : result (option Float.float) :=
  match numbers with
  | [] => Ok None
  | num_str :: rest =>
      num <- py_float num_str ;;
      if Float.leb zero num && Float.leb num one
      then Ok (Some num)
      else first_reasonable rest
  end.

(** Approach 3: any bare decimal. *)
Definition approach3 (cleaned_message : string) (l : locals)
  : result locals :=
  if is_none (confidence_score l) then
    o <- first_reasonable (findall number_pattern cleaned_message) ;;
    match o with
    | Some num => Ok (Locals (Json.Float num) (message_text l))
    | None => Ok l
    end
  else Ok l.

(** Lines 278 to 320: the three approaches in sequence on the two
    locals. *)
Definition extract (cleaned_message : string) : result locals :=
  l1 <- approach1 cleaned_message init ;;
  l2 <- approach2 cleaned_message l1 ;;
  approach3 cleaned_message l2.

(** Lines 266 to 276: strip, keep what follows the last closing
    think tag, drop the code fences. *)
Definition clean (last_message : pyobj) : result string :=
  cleaned_message <- content_strip last_message ;;
  let cleaned_message :=
    if Str.contains "<think>" cleaned_message
       && Str.contains "</think>" cleaned_message
    then
      let parts := Str.split "</think>" cleaned_message in
      if (1 <? length parts)%nat
      then Str.strip (last parts EmptyString)
      else cleaned_message
    else cleaned_message in
  Ok (Str.strip
        (Str.replace "```" "" (Str.replace "```json" "" cleaned_message))).

Definition human_approval : string := "human_approval".
Definition automatic_approval : string := "automatic_approval".

(** U+D800 to U+DFFF. *)
Definition is_surrogate (c : N) : bool :=
  ((55296 <=? c) && (c <=? 57343))%N.

(** What UTF-8 can encode. *)
Definition encodable (s : Json.text) : bool :=
  forallb (fun c => negb (is_surrogate c)) s.

(** Whether the text of a line that shows the value [v] between fixed
    words can be encoded.  [str] of a string is the string; [str] of
    any other value (a number, [None], a list or a dict, whose strings
    are shown escaped) holds no surrogate, and neither do the fixed
    words. *)
Definition printable (v : Json.value) : bool :=
  match v with
  | Json.Str s => encodable s
  | _ => true
  end.

(** [print(f"... {v} ...")] *)
Definition py_print (v : Json.value) : result unit :=
  if printable v then Ok tt else Raise UnicodeEncodeError.

(** Lines 322 to 338: lines 323 and 324 print the score and the
    message that were extracted, line 327 compares the score with the
    threshold, and lines 330 and 333 print the route with the score. *)
Definition decide (l : locals) : result string :=
  if negb (is_none (confidence_score l)) then
    _ <- py_print (confidence_score l) ;;
    _ <- py_print (message_text l) ;;
    requires_human_review <- py_lt (confidence_score l) threshold ;;
    if requires_human_review : bool
    then _ <- py_print (confidence_score l) ;; Ok human_approval
    else _ <- py_print (confidence_score l) ;; Ok automatic_approval
  else Ok human_approval.

(** The body of the [try]. *)
Definition route_body (last_message : pyobj) : result string :=
  cleaned_message <- clean last_message ;;
  l <- extract cleaned_message ;;
  decide l.

(** The lines printed before the [try] show the last message, and
    those of the handler show the exception, whose text is ASCII:
    neither holds a surrogate. *)
Definition route_after_reflection (state : State) : result string :=
  last <- last_item (messages state) ;;
  match route_body (content last) with
  | Ok label => Ok label
  | Raise _ => Ok human_approval
  end.

End Router.

(* ================================================================= *)
(** ** The reflection node ([agentic_idp.reflection_node]) *)

Module Reflection.
Import Re.

Definition max_attempts : nat := 3.

(** [cls_map[msg.type](content=msg.content)] *)
Definition swap_role (msg : message) : result message :=
  match type msg with
  | ai => Ok (Message human (content msg))
  | human => Ok (Message ai (content msg))
  | _ => Raise KeyError
  end.

(** The first message as it is, the others with the roles swapped. *)
Definition translate (state : State) : result (list message) :=
  first <- first_item (messages state) ;;
  rest <- map_result swap_role (tl (messages state)) ;;
  Ok (first :: rest).

Definition explicit_instruction : string :=
  "Please respond with ONLY a JSON object in this exact format: {"
  ++ Str.quoted "confidence_score" ++ ": 0.XX, "
  ++ Str.quoted "message" ++ ": " ++ Str.quoted "your explanation"
  ++ "}. No other text.".

Definition fallback_response : string :=
  "{" ++ Str.quoted "confidence_score" ++ ": 0.5, "
  ++ Str.quoted "message" ++ ": "
  ++ Str.quoted "Unable to complete automated assessment due to processing error. Manual review recommended."
  ++ "}".

(** What one pass of the loop does next. *)
Inductive outcome :=
| Return (s : State)
| Next.

(** The variables of the loop; [response_content] is unbound until
    its first assignment; [calls] counts the model invocations. *)
Record vars := Vars {
  translated : list message;
  response_content : option string;
  calls : nat
}.

Section Node.
(** [reflect_on_report.ainvoke]: the content of the model's answer
    to a prompt, or an exception.  The first argument is the number
    of earlier invocations, so that the same prompt may be answered
    differently. *)
Variable ainvoke : nat -> list message -> result pyobj.

(** The [try] block of one attempt, with the variables as it leaves
    them. *)
Definition try_block (attempt : nat) (v : vars) : vars * result outcome :=
  let v1 := Vars (translated v) (response_content v) (S (calls v)) in
  match ainvoke (calls v) (translated v) with
  | Raise e => (v1, Raise e)
  | Ok res =>
      match content_strip res with
      | Raise e => (v1, Raise e)
      | Ok rc =>
          let v2 := Vars (translated v) (Some rc) (S (calls v)) in
          let retry :=
            if (attempt <? max_attempts - 1)%nat
            then (Vars (translated v ++ [HumanMessage explicit_instruction])
                    (Some rc) (S (calls v)), Ok Next)
            else (v2, Ok Next) in
          if Str.contains (Str.quoted "confidence_score") rc
             && Str.contains (Str.quoted "message") rc
          then
            match search false Router.json_pattern rc with
            | Some json_match =>
                match Json.loads (m_group0 json_match) with
                | Ok _ => (v2, Ok (Return (mkState [HumanMessage rc])))
                | Raise JSONDecodeError => retry
                | Raise e => (v2, Raise e)
                end
            | None => retry
            end
          else retry
      end
  end.

(** One attempt with its [except] clause. *)
Definition attempt_once (attempt : nat) (v : vars) : vars * outcome :=
  match try_block attempt v with
  | (v', Ok o) => (v', o)
  | (v', Raise _) =>
      if (attempt =? max_attempts - 1)%nat
      then (v', Return (mkState [HumanMessage fallback_response]))
      else (v', Next)
  end.

(** [for attempt in range(max_attempts)] *)
Fixpoint attempts (todo : list nat) (v : vars) : vars * option State :=
  match todo with
  | [] => (v, None)
  | attempt :: rest =>
      match attempt_once attempt v with
      | (v', Return s) => (v', Some s)
      | (v', Next) => attempts rest v'
      end
  end.

(** The node, together with the number of model invocations. *)
Definition reflection_run (state : State) : nat * result State :=
  match translate state with
  | Raise e => (0%nat, Raise e)
  | Ok tr =>
      let '(v, r) := attempts (List.seq 0 max_attempts) (Vars tr None 0) in
      (calls v,
       match r with
       | Some s => Ok s
       | None =>
           match response_content v with
           | Some rc => Ok (mkState [HumanMessage rc])
           | None => Raise (RuntimeError "UnboundLocalError")
           end
       end)
  end.

Definition reflection_node (state : State) : result State :=
  snd (reflection_run state).

(** The node reaches its last attempt, and the [try] block of that
    attempt raises. *)
Definition final_attempt_raises (state : State) : bool :=
  match translate state with
  | Raise _ => false
  | Ok tr =>
      match attempts (List.seq 0 (max_attempts - 1)) (Vars tr None 0) with
      | (_, Some _) => false
      | (v, None) =>
          match snd (try_block (max_attempts - 1) v) with
          | Raise _ => true
          | Ok _ => false
          end
      end
  end.

End Node.

End Reflection.

(* ================================================================= *)
(** ** The verification service ([exteral_service.py]) *)

Module External.
Import Re.

(** The values of the dicts that the service returns. *)
Inductive pyval :=
| PBool (b : bool)
| PFloat (f : Float.float)
| PStr (s : string)
| PList (l : list pyval)
| PDict (d : list (string * pyval)).

Definition dict := list (string * pyval).

(** [d.get(key)], the last pair of a key winning as after [**]. *)
Fixpoint dict_get (key : string) (d : dict) : option pyval :=
  match d with
  | [] => None
  | (k, v) :: d' =>
      match dict_get key d' with
      | Some v' => Some v'
      | None => if String.eqb k key then Some v else None
      end
  end.

(** One entry of [known_hospitals]; the keys that only some entries
    have are optional. *)
Record hospital := Hospital {
  official_name : string;
  location : string;
  kind : string;
  established : option string;
  status : string;
  verification_sources : option (list string);
  coordinates : option (Float.float * Float.float);
  postal_code : option string;
  phone : option string;
  website : option string;
  services : option (list string)
}.

Definition known_hospitals : list (string * hospital) :=
  [ ("armidale and new england hospital",
     Hospital "Armidale and New England Hospital"
       "Armidale, New South Wales, Australia"
       "Public Hospital"
       (Some "1950s")
       "Active"
       (Some ["NSW Health Directory"; "Australian Hospital Association";
              "Google Maps verification"])
       (Some (Float.of_decimal true 305136 (-4),
              Float.of_decimal false 1516669 (-4)))
       (Some "2350")
       (Some "+61 2 6776 8888")
       (Some "https://www.health.nsw.gov.au/")
       (Some ["Emergency"; "Maternity"; "General Medicine"; "Surgery"]));
    ("royal north shore hospital",
     Hospital "Royal North Shore Hospital"
       "St Leonards, New South Wales, Australia"
       "Public Hospital" None "Active" None None None None None None);
    ("westmead hospital",
     Hospital "Westmead Hospital"
       "Westmead, New South Wales, Australia"
       "Public Hospital" None "Active" None None None None None None) ].

Definition str_list (l : list string) : pyval := PList (map PStr l).

Definition or_default {A} (o : option A) (d : A) : A :=
  match o with Some x => x | None => d end.

(** The [verification_result] of a verified place. *)
Definition verified_result (place_name : string) (h : hospital) : pyval :=
  PDict
    [ ("input_place", PStr place_name);
      ("verified_name", PStr (official_name h));
      ("location", PStr (location h));
      ("type", PStr (kind h));
      ("status", PStr (status h));
      ("established", PStr (or_default (established h) "Unknown"));
      ("coordinates",
       match coordinates h with
       | Some (lat, lon) =>
           PDict [("latitude", PFloat lat); ("longitude", PFloat lon)]
       | None => PDict []
       end);
      ("contact_info",
       PDict [("phone", PStr (or_default (phone h) "Not available"));
              ("website", PStr (or_default (website h) "Not available"))]);
      ("services", str_list (or_default (services h) []));
      ("verification_sources",
       str_list (or_default (verification_sources h) [])) ].

Definition verified_notes (h : hospital) : list string :=
  [ ("Hospital '" ++ official_name h
       ++ "' is a verified medical facility")%string;
    ("Located in " ++ location h)%string;
    "Facility is currently active and operational";
    "Information cross-referenced with official health directories" ].

Definition exact_score : Float.float := Float.of_decimal false 95 (-2).
Definition partial_score : Float.float := Float.of_decimal false 90 (-2).
Definition unknown_score : Float.float := Float.of_decimal false 2 (-1).
Definition error_score : Float.float := Float.of_decimal false 0 (-1).

Definition exact_answer (place_name : string) (h : hospital) : dict :=
  [ ("place_verified", PBool true);
    ("confidence_score", PFloat exact_score);
    ("verification_result", verified_result place_name h);
    ("verification_notes", str_list (verified_notes h)) ].

Definition partial_answer (place_name : string) (h : hospital) : dict :=
  [ ("place_verified", PBool true);
    ("confidence_score", PFloat partial_score);
    ("verification_result", verified_result place_name h);
    ("verification_notes",
     str_list (verified_notes h ++
       ["Matched via partial name matching (input contained location suffix)"])) ].

Definition unknown_answer (place_name : string) (partial_matches : list pyval)
  : dict :=
  [ ("place_verified", PBool false);
    ("confidence_score", PFloat unknown_score);
    ("verification_result",
     PDict [("input_place", PStr place_name);
            ("status", PStr "Not found in verified database");
            ("partial_matches", PList partial_matches)]);
    ("verification_notes",
     str_list
       [ ("Place '" ++ place_name
            ++ "' not found in verified hospital database")%string;
         "This could indicate a non-existent location or outdated information";
         "Manual verification recommended for unknown locations" ]);
    ("risk_factors",
     str_list
       [ "Unverified birth location";
         "Potential fraudulent document if location doesn't exist";
         "Requires additional verification through official channels" ]) ].

(** [if suffix in s: s = s.replace(suffix, "")] *)
Definition remove (suffix s : string) : string :=
  if Str.contains suffix s then Str.replace suffix "" s else s.

(** Lines 78 to 89. *)
Definition normalize (place_name : string) : string :=
  let normalized_place := Str.strip (Str.lower place_name) in
  let normalized_place := remove ", armidale" normalized_place in
  let normalized_place := remove ", new south wales" normalized_place in
  let normalized_place := remove ", nsw" normalized_place in
  remove ", australia" normalized_place.

(** [known_hospitals[key]] when [key in known_hospitals]. *)
Fixpoint find_exact (key : string) (table : list (string * hospital))
  : option hospital :=
  match table with
  | [] => None
  | (k, h) :: rest => if String.eqb k key then Some h else find_exact key rest
  end.

(** The first loop: the first entry whose key is inside the place
    name, or the other way round. *)
Fixpoint find_partial (normalized_place : string)
  (table : list (string * hospital)) : option hospital :=
  match table with
  | [] => None
  | (key, h) :: rest =>
      if Str.contains key normalized_place
         || Str.contains normalized_place key
      then Some h
      else find_partial normalized_place rest
  end.

(** The second loop: the entries that share a word with the place
    name. *)
Definition weak_matches (normalized_place : string)
  (table : list (string * hospital)) : list pyval :=
  map (fun kh : string * hospital =>
         PDict [("name", PStr (official_name (snd kh)));
                ("location", PStr (location (snd kh)))])
      (filter (fun kh : string * hospital =>
                 existsb (fun word => Str.contains word normalized_place)
                         (Str.words (fst kh))
                 || existsb (fun word => Str.contains word (fst kh))
                            (Str.words normalized_place))
              table).

(** The two fields of an answer that tell how the place was matched. *)
Definition verdict (d : dict) : option pyval * option pyval :=
  (dict_get "confidence_score" d, dict_get "place_verified" d).

(** [key in known_hospitals] *)
Definition exact_match (normalized_place : string) : bool :=
  existsb (String.eqb normalized_place) (map fst known_hospitals).

(** Some key is inside the place name, or the place name inside some
    key. *)
Definition partial_match (normalized_place : string) : bool :=
  existsb (fun key => Str.contains key normalized_place
                      || Str.contains normalized_place key)
          (map fst known_hospitals).

(** The body of the [try] of [verify_place_of_birth];
    [place_name.lower()] raises on an object that is not text. *)
Definition verify_body (place_name : pyobj) : result dict :=
  match place_name with
  | NotText => Raise AttributeError
  | Text name =>
      let normalized_place := normalize name in
      match find_exact normalized_place known_hospitals with
      | Some hospital_info => Ok (exact_answer name hospital_info)
      | None =>
          match find_partial normalized_place known_hospitals with
          | Some h => Ok (partial_answer name h)
          | None =>
              Ok (unknown_answer name
                    (weak_matches normalized_place known_hospitals))
          end
      end
  end.

Definition verify_place_of_birth (place_name : pyobj) : dict :=
  match verify_body place_name with
  | Ok d => d
  | Raise e =>
      [ ("place_verified", PBool false);
        ("confidence_score", PFloat error_score);
        ("error", PStr (str_of_exn e));
        ("verification_notes",
         str_list ["Verification service temporarily unavailable"]) ]
  end.

(** The patterns of [call_external_service]. *)
Definition dq : regex := Lit (String Str.dquote EmptyString).
Definition comma_or_space (c : ascii) : bool :=
  Ascii.eqb c "," || Str.isspace c.
Definition not_colon (c : ascii) : bool := negb (Ascii.eqb c ":").
Definition name_char (c : ascii) : bool :=
  negb (Ascii.eqb c Str.dquote || Ascii.eqb c "."
        || (Str.code c =? 10)%N).

Definition place_of_birth_pattern : regex :=
  Router.seq [Lit (Str.quoted "place_of_birth" ++ ":"); Star Str.isspace;
              dq; Group (Plus not_dquote); dq].

Definition hospital_patterns : list regex :=
  [ Router.seq [Lit "Armidale and New England Hospital";
                Star comma_or_space; Lit "Armidale"];
    Router.seq [Lit "New England Hospital"; Star comma_or_space;
                Lit "Armidale"];
    Router.seq [Lit "place of birth"; Star not_colon; Lit ":";
                Star Str.isspace; Opt dq;
                Group (Router.seq
                         [Plus name_char;
                          Alt (Lit "Hospital")
                            (Alt (Lit "Medical") (Lit "Centre"));
                          Star name_char]);
                Opt dq];
    Router.seq [Lit "stated as"; Star Str.isspace; dq;
                Group (Router.seq [Plus not_dquote; Lit "Hospital";
                                   Star not_dquote]);
                dq];
    Router.seq [Lit "birth"; Star not_colon; Lit ":"; Star Str.isspace;
                Opt dq;
                Group (Router.seq [Star name_char; Lit "Hospital";
                                   Star name_char]);
                Opt dq] ].

Definition trailing_separators : regex :=
  Seq (Star comma_or_space) EndAnchor.

(** [re.search(pattern, content)] on an object: [TypeError] when it
    is not text. *)
Definition py_search (ic : bool) (r : regex) (o : pyobj)
  : result (option rmatch) :=
  match o with
  | Text s => Ok (search ic r s)
  | NotText => Raise TypeError
  end.

(** Truth value of [place_of_birth]: set and not empty. *)
Definition truthy (o : option string) : bool :=
  match o with
  | Some (String _ _) => true
  | _ => false
  end.

(** The inner loop over [hospital_patterns]. *)
Fixpoint try_patterns (patterns : list regex) (content : pyobj)
  (place_of_birth : option string) : result (option string) :=
  match patterns with
  | [] => Ok place_of_birth
  | pattern :: rest =>
      m <- py_search true pattern content ;;
      match m with
      | Some mt =>
          let raw :=
            match m_groups mt with
            | g :: _ => Str.strip g
            | [] => Str.strip (m_group0 mt)
            end in
          let place := sub_empty trailing_separators raw in
          if truthy (Some place) then Ok (Some place)
          else try_patterns rest content (Some place)
      | None => try_patterns rest content place_of_birth
      end
  end.

(** The outer loop over the items of [text]. *)
Fixpoint scan_items (items : list message) (place_of_birth : option string)
  : result (option string) :=
  match items with
  | [] => Ok place_of_birth
  | item :: rest =>
      json_match <- py_search false place_of_birth_pattern (content item) ;;
      match json_match with
      | Some mt =>
          g <- Router.group1 mt ;;
          Ok (Some g)
      | None =>
          p <- try_patterns hospital_patterns (content item) place_of_birth ;;
          if truthy p then Ok p else scan_items rest p
      end
  end.

(** The argument [text]: the list of messages that the node passes,
    or anything else. *)
Inductive service_input :=
| Items (l : list message)
| NotAList.

Definition not_found : dict :=
  [ ("verification_type", PStr "place_of_birth");
    ("error", PStr "No place of birth information found in the provided data");
    ("verification_notes",
     str_list ["Unable to extract place of birth from document"]) ].

(** The body of the [try] of [call_external_service]. *)
Definition call_body (text : service_input) : result dict :=
  place_of_birth <-
    match text with
    | Items l => scan_items l None
    | NotAList => Ok None
    end ;;
  match place_of_birth with
  | Some (String c s) =>
      let place := String c s in
      let verification_result := verify_place_of_birth (Text place) in
      Ok ([ ("verification_type", PStr "place_of_birth");
            ("input_data", PStr place) ] ++ verification_result)
  | _ => Ok not_found
  end.

Definition call_external_service (text : service_input) : dict :=
  match call_body text with
  | Ok d => d
  | Raise e => [("error", PStr (str_of_exn e))]
  end.

End External.

(* ================================================================= *)
(** ** The graph ([agentic_idp.builder]) *)

Module Graph.

Definition START : string := "__start__".
Definition END : string := "__end__".

(** What the builder collects: the node names, the fixed edges, and
    the conditional edges, each a source with its routing function. *)
Record graph := mkGraph {
  nodes : list string;
  edges : list (string * string);
  branches : list (string * (State -> result string))
}.

Definition StateGraph : graph := mkGraph [] [] [].

Definition add_node (name : string) (g : graph) : graph :=
  mkGraph (nodes g ++ [name]) (edges g) (branches g).

Definition add_edge (a b : string) (g : graph) : graph :=
  mkGraph (nodes g) (edges g ++ [(a, b)]) (branches g).

Definition add_conditional_edges (source : string)
  (path : State -> result string) (g : graph) : graph :=
  mkGraph (nodes g) (edges g) (branches g ++ [(source, path)]).

(** Lines 233 to 251 and 345 to 348, in order.  The retry policy of
    [store] and [external_process] runs a failed node again in place;
    it adds no edge and is left out. *)
Definition builder : graph :=
  let g := StateGraph in
  let g := add_node "generate" g in
  let g := add_node "store" g in
  let g := add_node "external_process" g in
  let g := add_node "reflect" g in
  let g := add_node "automatic_approval" g in
  let g := add_node "human_approval" g in
  let g := add_edge START "generate" g in
  let g := add_edge "generate" "store" g in
  let g := add_edge "store" "external_process" g in
  let g := add_edge "external_process" "reflect" g in
  let g := add_edge "automatic_approval" END g in
  let g := add_edge "human_approval" END g in
  add_conditional_edges "reflect" Router.route_after_reflection g.

(** One transition of a run: along a fixed edge, or from the source
    of a conditional edge to the node that its routing function names
    for the state at hand. *)
Inductive step (g : graph) : string -> string -> Prop :=
| step_edge a b :
    In (a, b) (edges g) -> step g a b
| step_branch a path state b :
    In (a, path) (branches g) -> path state = Ok b -> step g a b.

(** [path g a p]: from node [a] a run can visit the nodes [p], in
    this order. *)
Inductive path (g : graph) : string -> list string -> Prop :=
| path_stop a : path g a []
| path_step a b p : step g a b -> path g b p -> path g a (b :: p).

(** The nodes visited by a run from the start, in order. *)
Definition run (g : graph) (p : list string) : Prop :=
  exists q, p = START :: q /\ path g START q.

Definition run_automatic : list string :=
  [START; "generate"; "store"; "external_process"; "reflect";
   "automatic_approval"; END].

Definition run_human : list string :=
  [START; "generate"; "store"; "external_process"; "reflect";
   "human_approval"; END].

(** [p] is an initial segment of [q]. *)
Definition prefix (p q : list string) : Prop := exists r, q = p ++ r.

End Graph.

(* ================================================================= *)
(** ** Resizing embeddings ([embedding_retriever.EmbeddingRetriever]) *)

Module Embedding.

Definition target_dimension : nat := 384.

(** No list is longer than [sys.maxsize], which is below this. *)
Definition max_len : Z := 2 ^ 63.

(** [sum(floats)]: from the left, starting at zero, each addition
    rounded, as CPython does up to 3.11; the application runs on 3.10
    (the paths that [run_main_clean.py] filters from its output).
    Later interpreters compensate the rounding errors of [sum] and can
    differ in the last bits of the result, not in its sign. *)
Definition py_sum (l : list Float.float) : Float.float :=
  fold_left Float.add l Float.zero.

(** [math.sqrt]: a domain error below zero. *)
Definition math_sqrt (x : Float.float) : result Float.float :=
  match x with
  | S754_finite true _ _ | S754_infinity true => Raise ValueError
  | _ => Ok (Float.sqrt x)
  end.

(** [a / b] on floats. *)
Definition truediv (a b : Float.float) : result Float.float :=
  if Float.eqb b Float.zero then Raise ZeroDivisionError
  else Ok (Float.div a b).

(** [float(n)] as done implicitly when an [int] meets a [float]. *)
Definition float_of_int (n : Z) : result Float.float :=
  match Float.of_Z n with
  | S754_infinity _ => Raise OverflowError
  | f => Ok f
  end.

(** An integer as an unrounded operand of the division. *)
Definition exact (n : Z) : Float.float :=
  match n with
  | Z0 => S754_zero false
  | Zpos p => S754_finite false p 0
  | Zneg p => S754_finite true p 0
  end.

(** [a / b] on ints: the nearest float of the quotient. *)
Definition int_truediv (a b : Z) : result Float.float :=
  match b with
  | Z0 => Raise ZeroDivisionError
  | _ =>
      match Float.div (exact a) (exact b) with
      | S754_infinity _ => Raise OverflowError
      | q => Ok q
      end
  end.

(** [l[j]], a negative [j] counting from the end. *)
Definition py_index {A} (l : list A) (j : Z) : result A :=
  let n := Z.of_nat (length l) in
  let k := if (j <? 0)%Z then (j + n)%Z else j in
  if ((k <? 0) || (n <=? k))%Z then Raise IndexError
  else match nth_error l (Z.to_nat k) with
       | Some x => Ok x
       | None => Raise IndexError
       end.

Fixpoint replace_nth {A} (l : list A) (i : nat) (x : A) : list A :=
  match l, i with
  | [], _ => []
  | _ :: l', O => x :: l'
  | y :: l', S i' => y :: replace_nth l' i' x
  end.

(** [l[i] = x] for [i] from a [range]. *)
Definition py_setitem {A} (l : list A) (i : nat) (x : A) : result (list A) :=
  if (i <? length l)%nat then Ok (replace_nth l i x) else Raise IndexError.

(** [range(start, stop)] *)
Definition range (start stop : Z) : list Z :=
  map (fun k => (start + Z.of_nat k)%Z)
      (List.seq 0 (Z.to_nat (stop - start))).

(** [math.sqrt(sum(val * val for val in vector))] *)
Definition magnitude (vector : list Float.float) : result Float.float :=
  math_sqrt (py_sum (map (fun val => Float.mul val val) vector)).

Definition normalize_vector (vector : list Float.float)
  : result (list Float.float) :=
  m <- magnitude vector ;;
  if Float.eqb m Float.zero then Ok vector
  else map_result (fun val => truediv val m) vector.

(** The body of the loop for one [i]. *)
Definition bucket (embedding : list Float.float) (ratio : Float.float)
  (res : list Float.float) (i : nat) : result (list Float.float) :=
  fi <- float_of_int (Z.of_nat i) ;;
  start <- Float.to_int (Float.mul fi ratio) ;;
  fi1 <- float_of_int (Z.of_nat i + 1) ;;
  stop <- Float.to_int (Float.mul fi1 ratio) ;;
  let len := Z.of_nat (length embedding) in
  let stop := if (stop >? len)%Z then len else stop in
  if (start <? stop)%Z then
    items <- map_result (py_index embedding) (range start stop) ;;
    let sum_val := py_sum items in
    n <- float_of_int (stop - start) ;;
    avg <- truediv sum_val n ;;
    py_setitem res i avg
  else Ok res.

Fixpoint buckets (embedding : list Float.float) (ratio : Float.float)
  (todo : list nat) (res : list Float.float) : result (list Float.float) :=
  match todo with
  | [] => Ok res
  | i :: rest =>
      res' <- bucket embedding ratio res i ;;
      buckets embedding ratio rest res'
  end.

(** The averaged vector before it is normalized. *)
Definition averaged (embedding : list Float.float)
  : result (list Float.float) :=
  ratio <- int_truediv (Z.of_nat (length embedding))
                       (Z.of_nat target_dimension) ;;
  buckets embedding ratio (List.seq 0 target_dimension)
          (repeat Float.zero target_dimension).

Definition resize_embedding (embedding : list Float.float)
  : result (list Float.float) :=
  if (length embedding =? target_dimension)%nat then Ok embedding
  else
    res <- averaged embedding ;;
    normalize_vector res.

(** What a bucket average is, to compare the loop with: the items
    [l[start:stop]] for [0 <= start <= stop], and their sum over their
    number. *)
Definition slice {A} (l : list A) (start stop : Z) : list A :=
  firstn (Z.to_nat (stop - start)) (skipn (Z.to_nat start) l).

Definition mean (items : list Float.float) : Float.float :=
  Float.div (py_sum items) (Float.of_Z (Z.of_nat (length items))).

End Embedding.

(* ================================================================= *)
(** ** Sample inputs *)

Module Samples.

(** An answer of the reflection model with a score of 0.85. *)
Definition answer_high : string :=
  "{" ++ Str.quoted "confidence_score" ++ ": 0.85, "
  ++ Str.quoted "message" ++ ": " ++ Str.quoted "ok" ++ "}".

Definition state_high : State := mkState [HumanMessage answer_high].








(** The object that [answer_high] decodes to. *)
Definition object_high : list (Json.text * Json.value) :=
  [(Json.text_of_string "confidence_score",
    Json.Float (Float.of_decimal false 85 (-2)));
   (Json.text_of_string "message", Json.Str (Json.text_of_string "ok"))].

(** A key-value pair with a score of 5. *)
Definition text_five : string := Str.quoted "confidence_score" ++ ": 5".

Definition locals_five : Router.locals :=
  Router.Locals (Json.Float (Float.of_decimal false 5 0)) (Json.Str []).

(** Free text with one bare decimal. *)
Definition text_bare : string := "score is 0.80 maybe".

Definition locals_bare : Router.locals :=
  Router.Locals (Json.Float (Float.of_decimal false 80 (-2)))
                (Json.Str (Json.text_of_string "")).

(** Free text without any number. *)
Definition state_plain : State := mkState [HumanMessage "no number here"].

Definition state_empty : State := mkState [].

(** A model that fails on every invocation. *)
Definition failing_model (n : nat) (prompt : list message) : result pyobj :=
  Raise (RuntimeError "connection reset").

(** The state when the reflection node runs. *)
Definition state_before_reflection : State :=
  mkState [HumanMessage "Verify"; AIMessage "extracted";
           HumanMessage "External Processing Results: {}"].

Definition locals_fallback : Router.locals :=
  Router.Locals (Json.Float (Float.of_decimal false 5 (-1)))
    (Json.Str (Json.text_of_string
       "Unable to complete automated assessment due to processing error. Manual review recommended.")).

Definition three : Float.float := Float.of_Z 3.
Definition four : Float.float := Float.of_Z 4.

(** An embedding of 768 items: 3 and 4 in turn. *)
Definition embedding_768 : list Float.float :=
  concat (repeat [three; four] 384).

End Samples.

(* ================================================================= *)
(** ** The nodes around the router ([decision.py], [exteral_service.py]) *)

Module Nodes.
Import Re.

(** [add_messages], the reducer of [State.messages]: a message that a
    node returns carries no [id], so it is given a new one and
    appended. *)
Definition add_messages (left right : list message) : list message :=
  left ++ right.

(** The state after a node has returned [out]. *)
Definition update (state out : State) : State :=
  mkState (add_messages (messages state) (messages out)).

(** [decision.external_automation_node]: the content of the last
    message, as the only new message. *)
Definition external_automation_node (state : State) : result (list pyobj) :=
  last <- last_item (messages state) ;;
  Ok [content last].

(** [decision.external_human_node] *)
Definition external_human_node (state : State) : result (list pyobj) :=
  last <- last_item (messages state) ;;
  Ok [content last].

(** Lines 202 to 214 of [reflection_node]: both quoted keys occur, the
    pattern finds an object, and [json.loads] accepts it. *)
Definition valid_answer (response_content : string) : bool :=
  Str.contains (Str.quoted "confidence_score") response_content
  && Str.contains (Str.quoted "message") response_content
  && match search false Router.json_pattern response_content with
     | Some json_match =>
         match Json.loads (m_group0 json_match) with
         | Ok _ => true
         | Raise _ => false
         end
     | None => false
     end.

(** [isinstance(msg, AIMessage)] *)
Definition is_ai (msg : message) : bool :=
  match type msg with ai => true | _ => false end.

(** Line 290 of [exteral_service.py]. *)
Definition ai_messages (state : State) : list message :=
  filter is_ai (messages state).

Section Dumps.
(** [json.dumps(result, indent=2)] *)
Variable json_dumps : External.dict -> string.

(** [exteral_service.external_service_node] *)
Definition external_service_node (state : State) : State :=
  let result :=
    External.call_external_service (External.Items (ai_messages state)) in
  mkState [HumanMessage ("External Processing Results: " ++ json_dumps result)].
End Dumps.

End Nodes.

(* ================================================================= *)
(** ** Fetching an embedding ([embedding_retriever.EmbeddingRetriever.embed])

    The embedding comes out of a decoded JSON answer, so here
    [resize_embedding] meets any Python value, not only a list of
    floats. *)

Module Retriever.
Import Embedding.

(** A number: an [int] ([bool] included) or a [float]. *)
Inductive num :=
| NInt (z : Z)
| NFloat (f : Float.float).

(** An operand of [+] next to a number; [None], text, lists and dicts
    cannot be added to a number. *)
Definition as_num (v : Json.value) : result num :=
  match v with
  | Json.Bool b => Ok (NInt (if b then 1 else 0))
  | Json.Int z => Ok (NInt z)
  | Json.Float f => Ok (NFloat f)
  | _ => Raise TypeError
  end.

(** [a + b] on numbers: exact on ints; an int next to a float is
    converted first. *)
Definition py_add (a b : num) : result num :=
  match a, b with
  | NInt x, NInt y => Ok (NInt (x + y))
  | NFloat x, NFloat y => Ok (NFloat (Float.add x y))
  | NInt x, NFloat y => fx <- float_of_int x ;; Ok (NFloat (Float.add fx y))
  | NFloat x, NInt y => fy <- float_of_int y ;; Ok (NFloat (Float.add x fy))
  end.

(** The keys of a dict built from the pairs of an object. *)
Fixpoint distinct_keys (d : list (Json.text * Json.value)) : list Json.text :=
  match d with
  | [] => []
  | (k, _) :: d' =>
      if existsb (Json.text_eqb k) (distinct_keys d')
      then distinct_keys d'
      else k :: distinct_keys d'
  end.

(** [len(v)] *)
Definition py_len (v : Json.value) : result nat :=
  match v with
  | Json.Arr l => Ok (length l)
  | Json.Str t => Ok (length t)
  | Json.Obj d => Ok (length (distinct_keys d))
  | _ => Raise TypeError
  end.

(** [v[j]] for an [int] [j]: an item of a list, a character of a
    text; the keys of a decoded object are texts, never [j]. *)
Definition py_getitem (v : Json.value) (j : Z) : result Json.value :=
  match v with
  | Json.Arr l => py_index l j
  | Json.Str t => c <- py_index t j ;; Ok (Json.Str [c])
  | Json.Obj _ => Raise KeyError
  | _ => Raise TypeError
  end.

(** [v[key]] for a text [key]. *)
Definition py_subscript (v : Json.value) (key : string) : result Json.value :=
  match v with
  | Json.Obj d =>
      match Json.lookup (Json.text_of_string key) d with
      | Some x => Ok x
      | None => Raise KeyError
      end
  | _ => Raise TypeError
  end.

(** [v.get(key)] *)
Definition get_or_none (v : Json.value) (key : string) : result Json.value :=
  Router.py_get v (Json.text_of_string key) Json.Null.

(** [bool(v)] *)
Definition truth (v : Json.value) : bool :=
  match v with
  | Json.Null => false
  | Json.Bool b => b
  | Json.Int z => negb (z =? 0)%Z
  | Json.Float f => negb (Float.eqb f Float.zero)
  | Json.Str t => negb (length t =? 0)%nat
  | Json.Arr l => negb (length l =? 0)%nat
  | Json.Obj d => negb (length d =? 0)%nat
  end.

(** [sum(embedding[j] for j in range(start, end))], each item fetched
    and added in turn. *)
Fixpoint sum_items (embedding : Json.value) (js : list Z) (acc : num)
  : result num :=
  match js with
  | [] => Ok acc
  | j :: rest =>
      x <- py_getitem embedding j ;;
      n <- as_num x ;;
      acc' <- py_add acc n ;;
      sum_items embedding rest acc'
  end.

(** [sum_val / n] for an [int] [n]. *)
Definition num_truediv (sum_val : num) (n : Z) : result Float.float :=
  match sum_val with
  | NInt x => int_truediv x n
  | NFloat f => fn <- float_of_int n ;; truediv f fn
  end.

(** The body of the loop of [resize_embedding] for one [i]. *)
Definition fill_bucket (embedding : Json.value) (len : nat)
  (ratio : Float.float) (res : list Float.float) (i : nat)
  : result (list Float.float) :=
  fi <- float_of_int (Z.of_nat i) ;;
  start <- Float.to_int (Float.mul fi ratio) ;;
  fi1 <- float_of_int (Z.of_nat i + 1) ;;
  stop <- Float.to_int (Float.mul fi1 ratio) ;;
  let stop := if (stop >? Z.of_nat len)%Z then Z.of_nat len else stop in
  if (start <? stop)%Z then
    sum_val <- sum_items embedding (range start stop) (NInt 0) ;;
    avg <- num_truediv sum_val (stop - start) ;;
    py_setitem res i avg
  else Ok res.

Fixpoint fill_buckets (embedding : Json.value) (len : nat)
  (ratio : Float.float) (todo : list nat) (res : list Float.float)
  : result (list Float.float) :=
  match todo with
  | [] => Ok res
  | i :: rest =>
      res' <- fill_bucket embedding len ratio res i ;;
      fill_buckets embedding len ratio rest res'
  end.

(** What [resize_embedding] returns: its argument as it is, or a new
    list of floats. *)
Inductive resized :=
| Same (v : Json.value)
| Fresh (l : list Float.float).

(** Lines 47 to 65 on any value. *)
Definition resize_embedding (embedding : Json.value) : result resized :=
  len <- py_len embedding ;;
  if (len =? target_dimension)%nat then Ok (Same embedding)
  else
    ratio <- int_truediv (Z.of_nat len) (Z.of_nat target_dimension) ;;
    res <- fill_buckets embedding len ratio (seq 0 target_dimension)
             (repeat Float.zero target_dimension) ;;
    r <- normalize_vector res ;;
    Ok (Fresh r).

(** [len] of what [embed] returns. *)
Definition resized_len (r : resized) : result nat :=
  match r with
  | Same v => py_len v
  | Fresh l => Ok (length l)
  end.

(** What [requests.post] does: it raises, or it gives a response with
    its [ok] flag and the outcome of its [json()]. *)
Inductive response :=
| Unreachable (e : exn)
| Response (ok : bool) (json : result Json.value).

(** Lines 105 to 123: [None] stands for the branch that falls back
    to a random embedding. *)
Definition read_embedding (response_data : Json.value)
  : result (option resized) :=
  if negb (truth response_data) then Ok None else
  data <- get_or_none response_data "data" ;;
  if negb (truth data) then Ok None else
  data <- py_subscript response_data "data" ;;
  first <- py_getitem data 0 ;;
  if negb (truth first) then Ok None else
  e <- get_or_none first "embedding" ;;
  if negb (truth e) then Ok None else
  embedding <- py_subscript first "embedding" ;;
  resized_embedding <- resize_embedding embedding ;;
  _ <- resized_len resized_embedding ;;
  Ok (Some resized_embedding).

(** The body of the [try] of [embed], from the response on. *)
Definition embed_body (r : response) : result (option resized) :=
  match r with
  | Unreachable e => Raise e
  | Response ok json =>
      if negb ok then Ok None
      else
        response_data <- json ;;
        read_embedding response_data
  end.

(** Whether [embed] answers this response with a random embedding:
    the [try] raises or ends in one of the fallback branches. *)
Definition falls_back (r : response) : bool :=
  match embed_body r with
  | Ok (Some _) => false
  | Ok None | Raise _ => true
  end.

Section Random.
(** [random.uniform(-1, 1)]: the draws, in order. *)
Variable uniform : nat -> Float.float.

(** The second component counts the draws made so far. *)
Definition generate_random_embedding (drawn : nat)
  : list Float.float * nat :=
  (map uniform (seq drawn target_dimension), drawn + target_dimension).

Definition embed (r : response) (drawn : nat) : resized * nat :=
  match embed_body r with
  | Ok (Some resized_embedding) => (resized_embedding, drawn)
  | Ok None | Raise _ =>
      let (l, drawn') := generate_random_embedding drawn in
      (Fresh l, drawn')
  end.

(** [generate_embeddings_batch], given the response to the request
    for each text. *)
Fixpoint generate_embeddings_batch (responses : list response)
  (drawn : nat) : list resized * nat :=
  match responses with
  | [] => ([], drawn)
  | r :: rest =>
      let (embedding, drawn1) := embed r drawn in
      let (embeddings, drawn2) := generate_embeddings_batch rest drawn1 in
      (embedding :: embeddings, drawn2)
  end.
End Random.

(** An answer in the format of the OpenAI embeddings API. *)
Definition openai_answer (embedding : Json.value) : Json.value :=
  Json.Obj [(Json.text_of_string "object", Json.Str (Json.text_of_string "list"));
            (Json.text_of_string "data",
             Json.Arr [Json.Obj [(Json.text_of_string "index", Json.Int 0);
                                 (Json.text_of_string "embedding", embedding)]])].

End Retriever.

(* ================================================================= *)
(** ** The answer that the reflection prompt asks for *)

Module Format.

(** An object with the score written as one digit, a dot and more
    digits, and with a message. *)
Definition answer (d : ascii) (fraction message : string) : string :=
  "{" ++ Str.quoted "confidence_score" ++ ": "
  ++ String d ("." ++ fraction) ++ ", "
  ++ Str.quoted "message" ++ ": " ++ Str.quoted message ++ "}".

(** A character of a message that JSON takes as it is and that is no
    part of a tag, an object or a code fence. *)
Definition plain (c : ascii) : bool :=
  (32 <=? Str.code c)%N
  && negb (Ascii.eqb c Str.dquote || Ascii.eqb c "\" || Ascii.eqb c "{"
           || Ascii.eqb c "}" || Ascii.eqb c "<" || Ascii.eqb c "`").

(** The quoted key and the colon with which the service finds the
    place of birth. *)
Definition place_key : string := Str.quoted "place_of_birth" ++ ":".

(** No occurrence of [key] in [before ++ key] other than the last
    one. *)
Definition first_occurrence (key before : string) : bool :=
  negb (Str.contains key (before ++ Str.take (String.length key - 1) key)).

End Format.

(* ================================================================= *)
(** ** From the certificate to the verification
    ([agentic_idp.generation_node], [storage.py]) *)

Module Pipeline.

Definition nl : string := String (ascii_of_N 10) "".

(** The text before the extracted data, and the text after it. *)
Definition request_header (request : string) : string :=
  "Birth Certificate Analysis Request: " ++ request ++ nl ++ nl
  ++ "Extracted Birth Certificate Data (JSON):" ++ nl.

Definition analysis : string :=
  nl ++ nl ++ "Analysis: Based on the extracted birth certificate information, I need to verify the authenticity of this document by validating the place of birth details. The extracted data shows the place of birth as specified in the JSON above, which will be verified against official hospital records and databases.".

(** Lines 136 to 141. *)
Definition structured_response (request vision_json : string) : string :=
  request_header request ++ vision_json ++ analysis.

(** [storage.call_store_service]: the text is printed only. *)
Definition call_store_service (text : string) : External.dict :=
  [("result", External.PStr "success")].

Section Services.
(** The content of the first choice of the vision model's answer, or
    the exception on the way to it. *)
Variable vision : result pyobj.
(** What formatting gives for a content that is not text. *)
Variable rendering : string.
(** [json.dumps(..., indent=2)] of a dict and of a list of contents. *)
Variable json_dumps : External.dict -> string.
Variable dumps_contents : list pyobj -> string.

(** [agentic_idp.generation_node] *)
Definition generation_node (state : State) : result State :=
  response <- vision ;;
  vision_json <- content_strip response ;;
  first <- first_item (messages state) ;;
  let request :=
    match content first with
    | Text s => s
    | NotText => rendering
    end in
  Ok (mkState [AIMessage (structured_response request vision_json)]).

(** [storage.external_storage_node] *)
Definition external_storage_node (state : State) : State :=
  let ai_messages := Nodes.ai_messages state in
  let result := call_store_service (dumps_contents (map content ai_messages)) in
  mkState [HumanMessage ("External Processing Results: " ++ json_dumps result)].

(** The nodes [generate], [store] and [external_process] in turn,
    from the state that [run_agent] starts with. *)
Definition verification_message (topic : string) : result State :=
  let state0 := mkState [HumanMessage topic] in
  generated <- generation_node state0 ;;
  let state1 := Nodes.update state0 generated in
  let state2 := Nodes.update state1 (external_storage_node state1) in
  Ok (Nodes.external_service_node json_dumps state2).
End Services.

End Pipeline.

(* ================================================================= *)
(** ** More sample inputs *)

Module Cases.

(** An answer whose think block mentions a high score, followed by a
    low one. *)
Definition thinking : string := "<think>surely 0.99".
Definition after_thinking : string := " 0.10".




(** A state whose only AI message names a place under the quoted
    key. *)
Definition extracted : string :=
  "{" ++ Str.quoted "name" ++ ": " ++ Str.quoted "Jo" ++ ", "
  ++ Str.quoted "place_of_birth" ++ ": "
  ++ Str.quoted "Westmead Hospital" ++ "}".

Definition state_extracted : State :=
  mkState [HumanMessage "Verify"; AIMessage extracted].

(** What a vision model may answer for the certificate. *)
Definition vision_answer : string :=
  " {" ++ Str.quoted "name" ++ ": " ++ Str.quoted "Jo" ++ ", "
  ++ Str.quoted "place_of_birth" ++ ": "
  ++ Str.quoted "Westmead Hospital" ++ "} ".

Definition topic : string :=
  "Verify the authenticity of this birth certificate by analyzing the document information and validating the place of birth details.".

(** A model of [json.dumps] for contents. *)
Definition dumps_count (l : list pyobj) : string :=
  match l with [] => "[]" | _ => "[...]" end.

(** A line break. *)
Definition line_break : string := String (ascii_of_N 10) "".

(** Draws that are all one half. *)
Definition uniform_half (n : nat) : Float.float :=
  Float.of_decimal false 5 (-1).

(** An answer of the embeddings endpoint with a vector of two
    floats. *)
Definition answer_two : Retriever.response :=
  Retriever.Response true
    (Ok (Retriever.openai_answer
           (Json.Arr (map Json.Float [Samples.three; Samples.four])))).

(** A model of [json.dumps] that keeps the place only. *)
Definition dumps_place (d : External.dict) : string :=
  match External.dict_get "input_data" d with
  | Some (External.PStr p) => p
  | _ => ""
  end.

End Cases.

(* ================================================================= *)
(** ** Sample models for the reflection node *)

Module Models.

(** A model that answers [Samples.answer_high] to every prompt. *)
Definition steady_model (n : nat) (prompt : list message) : result pyobj :=
  Ok (Text (" " ++ Samples.answer_high ++ " ")).

(** A model that never answers with an object. *)
Definition vague_model (n : nat) (prompt : list message) : result pyobj :=
  Ok (Text match n with
           | O => "maybe 0.9"
           | 1%nat => "about 0.8 "
           | _ => " roughly 0.7"
           end).

(** A model that fails on its first three invocations, and on every
    prompt of more than a hundred messages. *)
Definition fragile_model (n : nat) (prompt : list message) : result pyobj :=
  if (n <? 3)%nat || (100 <? length prompt)%nat
  then Raise (RuntimeError "connection reset")
  else Ok (Text Samples.answer_high).

(** [Samples.state_before_reflection] with the roles swapped after the
    first message. *)
Definition translated_before : list message :=
  [HumanMessage "Verify"; HumanMessage "extracted";
   AIMessage "External Processing Results: {}"].

End Models.

(* ================================================================= *)
(** * Facts *)

Module StrFacts.
Import Str.

Lemma append_empty_r (s : string) : (s ++ "")%string = s.
Proof. induction s; simpl; congruence. Qed.

Lemma append_assoc (a b c : string) :
  ((a ++ b) ++ c)%string = (a ++ (b ++ c))%string.
Proof. induction a; simpl; congruence. Qed.

Lemma length_append (a b : string) :
  String.length (a ++ b) = String.length a + String.length b.
Proof. induction a; simpl; congruence. Qed.

Lemma take_append (w rest : string) :
  take (String.length w) (w ++ rest) = w.
Proof. induction w; simpl; [destruct rest; reflexivity | congruence]. Qed.

Lemma last_char_append (pv : option ascii) (a b : string) :
  last_char pv (a ++ b) = last_char (last_char pv a) b.
Proof. revert pv; induction a; simpl; intros; auto. Qed.

End StrFacts.

Module ReFacts.
Import Re StrFacts.

Section Soundness.
Variable ic : bool.
Context {R : Type}.

(** The cursor reached from [c] after the text [w] and the groups [gs]. *)
Let after (c : cursor) (w rest : string) (gs : list string) : cursor :=
  Cursor (Str.last_char (prev c) w) rest
         (offset c + String.length w) (groups c ++ gs).

Lemma lit_sound (l : string) : forall (c c' : cursor),
  lit ic l c = Some c' ->
  exists w, ahead c = (w ++ ahead c')%string /\ lit_eq ic l w = true /\
            c' = after c w (ahead c') [].
Proof.
  induction l as [|a l IH]; intros [pv s off gs] c' H; simpl in H.
  - inversion H; subst. exists EmptyString. unfold after; simpl.
    rewrite Nat.add_0_r, app_nil_r. auto.
  - destruct s as [|b s']; [discriminate|].
    destruct (char_eq ic a b) eqn:E; [|discriminate].
    apply IH in H. destruct H as (w & Hs & Hl & Hc). simpl in *.
    exists (String b w). simpl. rewrite E, Hl, Hs at 1. repeat split; auto.
    rewrite Hc at 1. unfold after; simpl. f_equal. lia.
Qed.

Lemma star_sound (p : ascii -> bool) (k : cursor -> option R) (x : R) :
  forall (s : string) (pv : option ascii) (off : nat) (gs : list string),
  star p k pv s off gs = Some x ->
  exists w rest, s = (w ++ rest)%string /\ all p w = true /\
    k (Cursor (Str.last_char pv w) rest (off + String.length w) gs) = Some x.
Proof.
  induction s as [|b s' IH]; intros pv off gs H; simpl in H.
  - exists EmptyString, EmptyString. simpl. rewrite Nat.add_0_r. auto.
  - destruct (p b) eqn:Pb.
    + destruct (star p k (Some b) s' (S off) gs) eqn:E.
      * inversion H; subst. apply IH in E.
        destruct E as (w & rest & Hs & Hw & Hk).
        exists (String b w), rest. simpl. rewrite Pb, Hw, Hs.
        repeat split; auto.
        rewrite <- Hk. do 2 f_equal. lia.
      * exists EmptyString, (String b s'). simpl. rewrite Nat.add_0_r. auto.
    + exists EmptyString, (String b s'). simpl. rewrite Nat.add_0_r. auto.
Qed.

Theorem run_sound (r : regex) :
  forall (c : cursor) (k : cursor -> option R) (x : R),
  run ic r c k = Some x ->
  exists w rest gs, ahead c = (w ++ rest)%string /\
    matches ic r (prev c) w rest gs /\
    k (after c w rest gs) = Some x.
Proof.
  unfold after.
  induction r as [l|p|p|p|r IH|r1 IH1 r2 IH2|r1 IH1 r2 IH2|r IH| |];
    intros c k x H; simpl in H.
  - destruct (lit ic l c) as [c'|] eqn:E; [|discriminate].
    apply lit_sound in E. destruct E as (w & Hs & Hl & Hc).
    exists w, (ahead c'), []. repeat split; auto.
    + constructor; auto.
    + unfold after in Hc. rewrite <- Hc. auto.
  - destruct c as [pv s off gs]; simpl in *.
    destruct s as [|b s']; [discriminate|].
    destruct (p b) eqn:Pb; [|discriminate].
    exists (String b EmptyString), s', []. simpl. repeat split.
    + constructor; auto.
    + rewrite app_nil_r, Nat.add_1_r. auto.
  - destruct c as [pv s off gs]; simpl in *.
    apply star_sound in H. destruct H as (w & rest & Hs & Hw & Hk).
    exists w, rest, []. rewrite app_nil_r. repeat split; auto.
    constructor; auto.
  - destruct c as [pv s off gs]; simpl in *.
    destruct s as [|b s']; [discriminate|].
    destruct (p b) eqn:Pb; [|discriminate].
    apply star_sound in H. destruct H as (w & rest & Hs & Hw & Hk).
    exists (String b w), rest, []. simpl. rewrite app_nil_r, Hs. repeat split.
    + constructor; auto.
    + rewrite <- Hk. do 2 f_equal. lia.
  - destruct (run ic r c k) eqn:E.
    + inversion H; subst. apply IH in E.
      destruct E as (w & rest & gs & Hs & Hm & Hk).
      exists w, rest, gs. repeat split; auto. apply M_Opt_some; auto.
    + exists EmptyString, (ahead c), []. simpl.
      rewrite Nat.add_0_r, app_nil_r. repeat split.
      * apply M_Opt_none.
      * destruct c; auto.
  - apply IH1 in H. destruct H as (w1 & rest1 & g1 & Hs1 & Hm1 & Hk1).
    apply IH2 in Hk1. simpl in Hk1.
    destruct Hk1 as (w2 & rest & g2 & Hs2 & Hm2 & Hk2).
    exists (w1 ++ w2)%string, rest, (g1 ++ g2). subst rest1.
    rewrite append_assoc. repeat split; auto.
    + constructor; auto.
    + rewrite <- Hk2. rewrite last_char_append, length_append, app_assoc.
      do 2 f_equal. lia.
  - destruct (run ic r1 c k) eqn:E.
    + inversion H; subst. apply IH1 in E.
      destruct E as (w & rest & gs & Hs & Hm & Hk).
      exists w, rest, gs. repeat split; auto. apply M_Alt_l; auto.
    + apply IH2 in H. destruct H as (w & rest & gs & Hs & Hm & Hk).
      exists w, rest, gs. repeat split; auto. apply M_Alt_r; auto.
  - apply IH in H. simpl in H. destruct H as (w & rest & gs & Hs & Hm & Hk).
    exists w, rest, (gs ++ [w]). repeat split; auto.
    + constructor; auto.
    + rewrite <- Hk. rewrite Hs.
      replace (offset c + String.length w - offset c)
        with (String.length w) by lia.
      rewrite take_append, app_assoc. reflexivity.
  - destruct (xorb _ _) eqn:E; [|discriminate].
    exists EmptyString, (ahead c), []. simpl.
    rewrite Nat.add_0_r, app_nil_r. repeat split.
    + constructor; auto.
    + destruct c; auto.
  - exists EmptyString, (ahead c), []. simpl.
    rewrite Nat.add_0_r, app_nil_r.
    assert (Hc : Cursor (prev c) (ahead c) (offset c) (groups c) = c)
      by (destruct c; auto).
    rewrite Hc.
    destruct (ahead c) as [|b [|b' s']] eqn:Ea; try discriminate.
    + repeat split; auto. constructor; auto.
    + destruct (Ascii.eqb b newline) eqn:Eb; [|discriminate].
      apply Ascii.eqb_eq in Eb. subst b.
      repeat split; auto. constructor; auto.
Qed.
End Soundness.

Lemma match_here_sound ic r pv s off m :
  match_here ic r pv s off = Some m -> describes ic r m.
Proof.
  unfold match_here. intros H.
  destruct (run ic r (Cursor pv s off []) (fun c => Some c)) as [c'|] eqn:E;
    [|discriminate].
  apply run_sound in E. destruct E as (w & rest & gs & Hs & Hm & Hk).
  simpl in *. inversion Hk; subst c'. inversion H; subst m. simpl.
  replace (off + String.length w - off) with (String.length w) by lia.
  rewrite Hs, take_append. exists pv, rest. auto.
Qed.

Lemma search_from_sound ic r : forall s pv off m,
  search_from ic r pv s off = Some m -> describes ic r m.
Proof.
  induction s as [|b s' IH]; intros pv off m H; simpl in H.
  - destruct (match_here ic r pv "" off) eqn:E; [|discriminate].
    inversion H; subst. eapply match_here_sound; eauto.
  - destruct (match_here ic r pv (String b s') off) eqn:E.
    + inversion H; subst. eapply match_here_sound; eauto.
    + eapply IH; eauto.
Qed.

Lemma search_sound ic r s m :
  search ic r s = Some m -> describes ic r m.
Proof. apply search_from_sound. Qed.

Lemma scan_sound ic r : forall s pv off skip,
  Forall (describes ic r) (scan ic r pv s off skip).
Proof.
  induction s as [|b s' IH]; intros pv off skip; destruct skip; simpl; auto.
  - destruct (match_here ic r pv "" off) eqn:E; auto.
    constructor; auto. eapply match_here_sound; eauto.
  - destruct (match_here ic r pv (String b s') off) eqn:E; auto.
    constructor; auto. eapply match_here_sound; eauto.
Qed.

End ReFacts.

Module FloatFacts.
Import Float.
Local Open Scope Z_scope.

Lemma digits2_pos_upper (p : positive) : Zpos p < 2 ^ Zpos (digits2_pos p).
Proof.
  induction p as [p IH|p IH|]; simpl digits2_pos.
  - rewrite Pos2Z.inj_succ, Z.pow_succ_r by lia. lia.
  - rewrite Pos2Z.inj_succ, Z.pow_succ_r by lia. lia.
  - simpl. lia.
Qed.

Lemma digits2_pos_lower (p : positive) :
  2 ^ (Zpos (digits2_pos p) - 1) <= Zpos p.
Proof.
  induction p as [p IH|p IH|]; simpl digits2_pos.
  - rewrite Pos2Z.inj_succ.
    replace (Z.succ (Zpos (digits2_pos p)) - 1)
      with (Z.succ (Zpos (digits2_pos p) - 1)) by lia.
    rewrite Z.pow_succ_r by lia. lia.
  - rewrite Pos2Z.inj_succ.
    replace (Z.succ (Zpos (digits2_pos p)) - 1)
      with (Z.succ (Zpos (digits2_pos p) - 1)) by lia.
    rewrite Z.pow_succ_r by lia. lia.
  - simpl. lia.
Qed.

Lemma Zdigits2_nonneg (m : Z) : 0 <= Zdigits2 m.
Proof. destruct m; simpl; lia. Qed.

(** A number below [2 ^ k] has at most [k] digits. *)
Lemma Zdigits2_le (m k : Z) : 0 <= m -> 0 <= k -> m < 2 ^ k -> Zdigits2 m <= k.
Proof.
  intros Hm Hk H. destruct m as [|p|p]; simpl; try lia.
  pose proof (digits2_pos_lower p) as L.
  destruct (Z_lt_le_dec k (Zpos (digits2_pos p))) as [Hlt|]; [|lia].
  assert (2 ^ k <= 2 ^ (Zpos (digits2_pos p) - 1))
    by (apply Z.pow_le_mono_r; lia).
  lia.
Qed.

Lemma Zdigits2_upper (m : Z) : 0 <= m -> m < 2 ^ Zdigits2 m.
Proof.
  destruct m as [|p|p]; simpl; try lia. intros _. apply digits2_pos_upper.
Qed.

Lemma Zdigits2_succ (m : Z) : 0 <= m -> Zdigits2 (m + 1) <= Zdigits2 m + 1.
Proof.
  intros Hm. apply Zdigits2_le; try lia.
  - pose proof (Zdigits2_nonneg m). lia.
  - pose proof (Zdigits2_upper m Hm).
    rewrite Z.pow_add_r by (try lia; apply Zdigits2_nonneg).
    assert (0 < 2 ^ Zdigits2 m)
      by (apply Z.pow_pos_nonneg; try lia; apply Zdigits2_nonneg).
    lia.
Qed.

Lemma Zdigits2_mul (a b : positive) :
  Zpos (digits2_pos (a * b)) <= Zpos (digits2_pos a) + Zpos (digits2_pos b).
Proof.
  pose proof (digits2_pos_upper a). pose proof (digits2_pos_upper b).
  change (Zpos (digits2_pos (a * b))) with (Zdigits2 (Zpos (a * b))).
  apply Zdigits2_le; try lia.
  rewrite Pos2Z.inj_mul, Z.pow_add_r by lia. nia.
Qed.

(** *** Shifting right *)

Lemma iter_pos_nat {A} (f : A -> A) (p : positive) (x : A) :
  iter_pos f p x = Nat.iter (Pos.to_nat p) f x.
Proof.
  revert x. induction p as [p IH|p IH|]; intros x; cbn [iter_pos].
  - rewrite !IH, Pos2Nat.inj_xI.
    replace (S (2 * Pos.to_nat p)) with (Pos.to_nat p + (Pos.to_nat p + 1))%nat
      by lia.
    rewrite !Nat.iter_add. reflexivity.
  - rewrite !IH, Pos2Nat.inj_xO.
    replace (2 * Pos.to_nat p)%nat with (Pos.to_nat p + Pos.to_nat p)%nat
      by lia.
    rewrite Nat.iter_add. reflexivity.
  - reflexivity.
Qed.

Lemma shr_1_spec (mrs : shr_record) :
  0 <= shr_m mrs ->
  0 <= shr_m (shr_1 mrs) /\
  Zdigits2 (shr_m (shr_1 mrs)) = Z.max 0 (Zdigits2 (shr_m mrs) - 1).
Proof.
  destruct mrs as [m r s].
  destruct m as [|[p|p|]|p]; cbn [shr_1 shr_m Zdigits2 digits2_pos];
    intros H; rewrite ?Pos2Z.inj_succ; lia.
Qed.

Lemma shr_iter_spec (n : nat) (mrs : shr_record) :
  0 <= shr_m mrs ->
  0 <= shr_m (Nat.iter n shr_1 mrs) /\
  Zdigits2 (shr_m (Nat.iter n shr_1 mrs))
    = Z.max 0 (Zdigits2 (shr_m mrs) - Z.of_nat n).
Proof.
  intros Hm. induction n as [|n [IH1 IH2]].
  - simpl. pose proof (Zdigits2_nonneg (shr_m mrs)). lia.
  - rewrite Nat2Z.inj_succ. simpl Nat.iter.
    destruct (shr_1_spec _ IH1) as [H1 H2]. split; auto.
    rewrite H2, IH2. lia.
Qed.

Lemma shr_m_of_loc m l : shr_m (shr_record_of_loc m l) = m.
Proof. destruct l as [|[]]; reflexivity. Qed.

(** The window of the format: what [shr_fexp] does to a mantissa. *)
Lemma shr_fexp_spec (m e : Z) (l : location) :
  0 <= m ->
  let '(mrs, e') := shr_fexp prec emax m e l in
  0 <= shr_m mrs /\
  Zdigits2 (shr_m mrs) + e' <= Z.max (Zdigits2 m + e) (emin prec emax) /\
  (0 < m -> emin prec emax <= e -> 0 < shr_m mrs /\ emin prec emax <= e').
Proof.
  intros Hm. unfold shr_fexp, shr.
  pose proof (Zdigits2_nonneg m) as Hd.
  destruct (fexp prec emax (Zdigits2 m + e) - e) as [|n|n] eqn:En.
  - rewrite shr_m_of_loc. repeat split; auto; lia.
  - rewrite iter_pos_nat.
    destruct (shr_iter_spec (Pos.to_nat n) (shr_record_of_loc m l)) as [H1 H2].
    { rewrite shr_m_of_loc; auto. }
    rewrite shr_m_of_loc, positive_nat_Z in H2.
    unfold fexp, emin, prec, emax in *. repeat split; auto; try lia.
    assert (Zdigits2 (shr_m (Nat.iter (Pos.to_nat n) shr_1
                               (shr_record_of_loc m l))) <> 0) by lia.
    destruct (shr_m _); simpl in *; lia.
  - rewrite shr_m_of_loc. repeat split; auto; lia.
Qed.

Lemma round_nearest_even_spec (m : Z) (l : location) :
  0 <= m ->
  m <= round_nearest_even m l /\
  Zdigits2 (round_nearest_even m l) <= Zdigits2 m + 1.
Proof.
  intros Hm. pose proof (Zdigits2_succ m Hm). pose proof (Zdigits2_nonneg m).
  unfold round_nearest_even.
  destruct l as [|[]]; try destruct (Z.even m); split; lia.
Qed.

Lemma binary_round_aux_signed (s : bool) (m e : Z) (l : location) :
  0 <= m -> signed s (binary_round_aux prec emax s m e l).
Proof.
  intros Hm. unfold binary_round_aux.
  pose proof (shr_fexp_spec m e l Hm) as H1.
  destruct (shr_fexp prec emax m e l) as [mrs1 e1].
  destruct H1 as (H1 & _).
  destruct (round_nearest_even_spec (shr_m mrs1) (loc_of_shr_record mrs1) H1)
    as [R1 _].
  pose proof (shr_fexp_spec
                (round_nearest_even (shr_m mrs1) (loc_of_shr_record mrs1))
                e1 loc_Exact ltac:(lia)) as H2.
  destruct (shr_fexp prec emax _ e1 loc_Exact) as [mrs2 e2].
  destruct H2 as (H2 & _).
  destruct (shr_m mrs2); cbn [signed]; try lia; auto.
  destruct (e2 <=? emax - prec); cbn [signed]; auto.
Qed.

Lemma binary_round_aux_below (s : bool) (m e B : Z) (l : location) :
  0 <= m -> Zdigits2 m + e <= B -> emin prec emax <= B -> B <= emax - prec ->
  below s (B + 1) (binary_round_aux prec emax s m e l).
Proof.
  intros Hm HB Hlo Hhi. unfold binary_round_aux.
  pose proof (shr_fexp_spec m e l Hm) as H1.
  destruct (shr_fexp prec emax m e l) as [mrs1 e1].
  destruct H1 as (H1 & D1 & _).
  destruct (round_nearest_even_spec (shr_m mrs1) (loc_of_shr_record mrs1) H1)
    as [R1 R2].
  pose proof (shr_fexp_spec
                (round_nearest_even (shr_m mrs1) (loc_of_shr_record mrs1))
                e1 loc_Exact ltac:(lia)) as H2.
  destruct (shr_fexp prec emax _ e1 loc_Exact) as [mrs2 e2].
  destruct H2 as (H2 & D2 & _).
  destruct (shr_m mrs2) as [|p|p] eqn:Em; cbn [below]; try lia; auto.
  assert (Hp : 1 <= Zdigits2 (Zpos p)) by (simpl; lia).
  assert (He : e2 <= emax - prec) by lia.
  apply Z.leb_le in He. rewrite He. cbn [below]. split; auto. lia.
Qed.

Lemma binary_round_aux_finite (s : bool) (m e B : Z) (l : location) :
  0 < m -> emin prec emax <= e -> Zdigits2 m + e <= B -> B <= emax - prec ->
  exists m' e', binary_round_aux prec emax s m e l = S754_finite s m' e' /\
                Zdigits2 (Zpos m') + e' <= B + 1.
Proof.
  intros Hm He HB Hhi. unfold binary_round_aux.
  pose proof (shr_fexp_spec m e l ltac:(lia)) as H1.
  destruct (shr_fexp prec emax m e l) as [mrs1 e1].
  destruct H1 as (H1 & D1 & P1). destruct (P1 Hm He) as [P1m P1e].
  destruct (round_nearest_even_spec (shr_m mrs1) (loc_of_shr_record mrs1) H1)
    as [R1 R2].
  pose proof (shr_fexp_spec
                (round_nearest_even (shr_m mrs1) (loc_of_shr_record mrs1))
                e1 loc_Exact ltac:(lia)) as H2.
  destruct (shr_fexp prec emax _ e1 loc_Exact) as [mrs2 e2].
  destruct H2 as (H2 & D2 & P2). destruct (P2 ltac:(lia) P1e) as [P2m P2e].
  destruct (shr_m mrs2) as [|p|p] eqn:Em; try lia.
  assert (Hp : 1 <= Zdigits2 (Zpos p)) by (simpl; lia).
  pose proof (Zdigits2_nonneg m).
  assert (Hle : e2 <= emax - prec) by lia.
  apply Z.leb_le in Hle. rewrite Hle. exists p, e2. split; auto. lia.
Qed.

(** *** Aligning and rounding *)

Lemma digits2_pos_iter_xO (d p : positive) :
  Zpos (digits2_pos (Pos.iter xO p d)) = Zpos (digits2_pos p) + Zpos d.
Proof.
  rewrite Pos2Nat.inj_iter. rewrite <- (positive_nat_Z d).
  induction (Pos.to_nat d) as [|n IH]; [simpl; lia|].
  rewrite Nat2Z.inj_succ. cbn [nat_rect digits2_pos].
  rewrite Pos2Z.inj_succ, IH. lia.
Qed.

Lemma shl_align_spec (mx : positive) (ex ex' : Z) :
  let '(mz, ez) := shl_align mx ex ex' in
  Zpos (digits2_pos mz) + ez = Zpos (digits2_pos mx) + ex /\
  ez = Z.min ex ex'.
Proof.
  unfold shl_align. destruct (ex' - ex) as [|d|d] eqn:E; try (split; lia).
  rewrite digits2_pos_iter_xO. split; lia.
Qed.

Lemma binary_round_signed (s : bool) (m : positive) (e : Z) :
  signed s (binary_round prec emax s m e).
Proof.
  unfold binary_round. destruct (shl_align _ _ _) as [mz ez].
  apply binary_round_aux_signed. lia.
Qed.

Lemma binary_round_finite (s : bool) (m : positive) (e B : Z) :
  emin prec emax <= e -> Zpos (digits2_pos m) + e <= B -> B <= emax - prec ->
  exists m' e', binary_round prec emax s m e = S754_finite s m' e' /\
                Zdigits2 (Zpos m') + e' <= B + 1.
Proof.
  intros He HB Hhi. unfold binary_round.
  pose proof (shl_align_spec m e (fexp prec emax (Zpos (digits2_pos m) + e)))
    as A.
  destruct (shl_align _ _ _) as [mz ez]. destruct A as [A1 A2].
  apply binary_round_aux_finite.
  - lia.
  - unfold fexp, emin, prec, emax in *. lia.
  - cbn [Zdigits2]. lia.
  - lia.
Qed.

(** *** Numbers that are not below zero *)

Lemma signed_not_negative f : signed false f -> not_negative f.
Proof. destruct f as [| [] | | [] ? ?]; simpl; auto; discriminate. Qed.

Lemma square_not_negative (x : float) : not_negative (mul x x).
Proof.
  destruct x as [s|s| |s m e]; simpl; auto.
  - destruct s; simpl; auto.
  - apply signed_not_negative. rewrite xorb_nilpotent.
    apply binary_round_aux_signed. lia.
Qed.

Lemma add_not_negative (x y : float) :
  not_negative x -> not_negative y -> not_negative (add x y).
Proof.
  destruct x as [sx|sx| |sx mx ex]; destruct y as [sy|sy| |sy my ey];
    try destruct sx; try destruct sy; simpl; auto; try contradiction.
  intros _ _. apply signed_not_negative.
  unfold add, SFadd. cbn [cond_Zopp].
  destruct (shl_align mx ex (Z.min ex ey)) as [ax ?].
  destruct (shl_align my ey (Z.min ex ey)) as [ay ?]. cbn [fst].
  cbn [Z.add binary_normalize]. apply binary_round_signed.
Qed.

(** *** Small numbers: the index arithmetic *)

Lemma mul_below (x y : float) (Bx By : Z) :
  below false Bx x -> below false By y ->
  emin prec emax <= Bx + By -> Bx + By <= emax - prec ->
  below false (Bx + By + 1) (mul x y).
Proof.
  destruct x as [sx|sx| |sx mx ex]; destruct y as [sy|sy| |sy my ey];
    cbn [below]; try contradiction.
  - intros -> ->. reflexivity.
  - intros -> [-> _]. reflexivity.
  - intros [-> _] ->. reflexivity.
  - intros [-> Hx] [-> Hy] Hlo Hhi. unfold mul, SFmul. cbn [xorb].
    apply binary_round_aux_below; try lia.
    pose proof (Zdigits2_mul mx my). cbn [Zdigits2] in *. lia.
Qed.

Lemma to_int_below (x : float) (B : Z) :
  below false B x -> exists z, to_int x = Ok z /\ 0 <= z.
Proof.
  destruct x as [s|s| |s m e]; cbn [below]; try contradiction.
  - intros _. exists 0. split; [reflexivity|lia].
  - intros [-> _]. unfold to_int. eexists. split; [reflexivity|].
    destruct e; [apply Z.shiftl_nonneg | apply Z.shiftl_nonneg
                 | apply Z.shiftr_nonneg]; lia.
Qed.

Lemma of_Z_below (n k : Z) :
  0 <= n -> n < 2 ^ k -> 0 <= k -> k <= emax - prec ->
  below false (k + 1) (of_Z n).
Proof.
  intros Hn Hk Hk0 Hhi. unfold of_Z, binary_normalize.
  destruct n as [|p|p]; [reflexivity| |lia].
  destruct (binary_round_finite false p 0 k) as (m' & e' & -> & Hd).
  - unfold emin, prec, emax. lia.
  - pose proof (Zdigits2_le (Zpos p) k Hn Hk0 Hk). cbn [Zdigits2] in *. lia.
  - exact Hhi.
  - cbn [below]. auto.
Qed.

Lemma of_Z_positive (n k : Z) :
  0 < n -> n < 2 ^ k -> 0 <= k -> k <= emax - prec ->
  exists m e, of_Z n = S754_finite false m e.
Proof.
  intros Hn Hk Hk0 Hhi. unfold of_Z, binary_normalize.
  destruct n as [|p|p]; try lia.
  destruct (binary_round_finite false p 0 k) as (m' & e' & -> & Hd).
  - unfold emin, prec, emax. lia.
  - pose proof (Zdigits2_le (Zpos p) k ltac:(lia) Hk0 Hk).
    cbn [Zdigits2] in *. lia.
  - exact Hhi.
  - eauto.
Qed.

Lemma div_core_spec (m1 m2 : positive) (e1 e2 : Z) :
  let '(q, e', l) := SFdiv_core_binary prec emax (Zpos m1) e1 (Zpos m2) e2 in
  0 <= q /\ Zdigits2 q + e' <= Zpos (digits2_pos m1) + e1 - e2.
Proof.
  unfold SFdiv_core_binary.
  set (e' := Z.min _ (e1 - e2)).
  assert (He : e' <= e1 - e2) by (unfold e'; lia).
  set (m' := match e1 - e2 - e' with
             | Z0 => Zpos m1
             | Zpos _ => Z.shiftl (Zpos m1) (e1 - e2 - e')
             | Zneg _ => 0
             end).
  assert (Hm' : 0 <= m' < 2 ^ (Zpos (digits2_pos m1) + (e1 - e2 - e'))).
  { pose proof (digits2_pos_upper m1) as U. unfold m'.
    destruct (e1 - e2 - e') as [|s|s] eqn:Es; try lia.
    - rewrite Z.add_0_r. lia.
    - rewrite Z.shiftl_mul_pow2 by lia. rewrite Z.pow_add_r by lia.
      assert (0 < 2 ^ Zpos s) by (apply Z.pow_pos_nonneg; lia). nia. }
  pose proof (Z_div_mod m' (Zpos m2) ltac:(lia)) as D.
  destruct (Z.div_eucl m' (Zpos m2)) as [q r]. destruct D as [D1 D2].
  assert (Hq : 0 <= q <= m') by nia.
  split; [lia|].
  assert (Zdigits2 q <= Zpos (digits2_pos m1) + (e1 - e2 - e'))
    by (apply Zdigits2_le; lia).
  lia.
Qed.

Lemma of_decimal_signed (m : N) (e10 : Z) :
  signed false (of_decimal false m e10).
Proof.
  unfold of_decimal. destruct m as [|p]; [reflexivity|].
  destruct (0 <=? e10).
  - apply binary_round_signed.
  - unfold div, SFdiv. cbn [xorb].
    pose proof (div_core_spec p (Z.to_pos (10 ^ (- e10))) 0 0) as C.
    destruct (SFdiv_core_binary prec emax (Zpos p) 0 _ 0) as [[q e'] l].
    apply binary_round_aux_signed. tauto.
Qed.

Lemma signed_leb_zero (f : float) : signed false f -> leb zero f = true.
Proof.
  destruct f as [s|s| |s m e]; cbn [signed]; try contradiction;
    intros ->; reflexivity.
Qed.
End FloatFacts.

Module RouterFacts.
Import Re Router StrFacts ReFacts.

Lemma lit_eq_exact : forall l w, lit_eq false l w = true -> w = l.
Proof.
  induction l as [|a l IH]; destruct w as [|b w]; simpl; try discriminate; auto.
  intros H. apply andb_true_iff in H. destruct H as [H1 H2].
  unfold char_eq in H1. apply Ascii.eqb_eq in H1. subst. f_equal. auto.
Qed.

Lemma span_all p : forall a b,
  all p a = true ->
  match b with EmptyString => True | String c _ => p c = false end ->
  Json.span p (a ++ b) = (a, b).
Proof.
  induction a as [|c a IH]; intros b Ha Hb; simpl in *.
  - destruct b as [|c b]; simpl; auto. rewrite Hb. auto.
  - apply andb_true_iff in Ha. destruct Ha as [Hc Ha].
    rewrite Hc, (IH b Ha Hb). auto.
Qed.

Lemma all_append p : forall a b,
  all p a = true -> all p b = true -> all p (a ++ b) = true.
Proof.
  induction a as [|c a IH]; simpl; intros b Ha Hb; auto.
  apply andb_true_iff in Ha. destruct Ha as [Hc Ha]. rewrite Hc. simpl. auto.
Qed.

Lemma py_float_decimal g :
  decimal_text g -> exists f, py_float g = Ok f.
Proof.
  intros (ds & dot & ds' & -> & Hds & Hdot & Hds' & Hne).
  unfold py_float. destruct Hdot as [-> | ->]; simpl.
  - rewrite <- (append_empty_r (ds ++ ds')).
    rewrite (span_all _ (ds ++ ds') ""); auto using all_append.
    destruct (ds ++ ds')%string eqn:E.
    + destruct ds; simpl in E; [congruence|discriminate].
    + rewrite append_empty_r. eauto.
  - rewrite (span_all _ ds (String "." ds')); auto.
    assert (Hs : Json.span Str.isdigit ds' = (ds', ""))
      by (rewrite <- (append_empty_r ds') at 1; apply span_all; auto).
    rewrite Hs.
    destruct (ds ++ ds')%string eqn:E.
    + destruct ds; simpl in E; [congruence|discriminate].
    + eauto.
Qed.

Ltac inv_matches :=
  repeat match goal with
  | H : matches _ (Lit _) _ _ _ _ |- _ => inversion H; clear H; subst
  | H : matches _ (Class _) _ _ _ _ |- _ => inversion H; clear H; subst
  | H : matches _ (Star _) _ _ _ _ |- _ => inversion H; clear H; subst
  | H : matches _ (Plus _) _ _ _ _ |- _ => inversion H; clear H; subst
  | H : matches _ (Opt _) _ _ _ _ |- _ => inversion H; clear H; subst
  | H : matches _ (Seq _ _) _ _ _ _ |- _ => inversion H; clear H; subst
  | H : matches _ (Alt _ _) _ _ _ _ |- _ => inversion H; clear H; subst
  | H : matches _ (Group _) _ _ _ _ |- _ => inversion H; clear H; subst
  | H : matches _ WordBoundary _ _ _ _ |- _ => inversion H; clear H; subst
  | H : lit_eq false _ _ = true |- _ => apply lit_eq_exact in H; subst
  end.

Ltac digits_side :=
  repeat split; simpl; auto; try discriminate;
  repeat match goal with
  | H : ?p ?b = true |- context [?p ?b] => rewrite H
  | H : is_zero ?b = true |- _ =>
      unfold is_zero in H; apply Ascii.eqb_eq in H; subst b
  end; simpl; auto.

Lemma all_zero_digit : forall w,
  all is_zero w = true -> all Str.isdigit w = true.
Proof.
  induction w as [|c w IH]; simpl; auto. intros H.
  apply andb_true_iff in H. destruct H as [Hc Hw].
  unfold is_zero in Hc. apply Ascii.eqb_eq in Hc. subst c. simpl. auto.
Qed.

Lemma score_pattern_group m :
  describes false score_pattern m ->
  exists g, group m 1 = Some g /\ decimal_text g.
Proof.
  intros (pv & rest & H). unfold score_pattern, seq in H.
  destruct m as [st g0 gs]; simpl in *. inv_matches; simpl;
    (eexists; split; [reflexivity|]).
  - match goal with
    | |- decimal_text (?a ++ String "." ?c) => exists a, ".", c
    end. digits_side.
  - match goal with
    | |- decimal_text (?a ++ ?c) => exists a, "", c
    end. digits_side.
Qed.

Lemma number_pattern_group m :
  describes false number_pattern m ->
  exists g, group m 1 = Some g /\ decimal_text g.
Proof.
  intros (pv & rest & H). unfold number_pattern, seq in H.
  destruct m as [st g0 gs]; simpl in *. inv_matches; simpl;
    (eexists; split; [reflexivity|]).
  - match goal with
    | |- decimal_text (String _ (String _ ?c)) => exists "0", ".", c
    end. digits_side.
  - match goal with
    | |- decimal_text (String _ (String _ ?c)) => exists "1", ".", c
    end. digits_side. apply all_zero_digit; auto.
  - exists "", "", "0". digits_side.
Qed.

Lemma msg_pattern_group m :
  describes false msg_pattern m -> exists g, group m 1 = Some g.
Proof.
  intros (pv & rest & H). unfold msg_pattern, seq in H.
  destruct m as [st g0 gs]; simpl in *. inv_matches; simpl. eauto.
Qed.

Lemma scan_once_object fuel s1 v r :
  Json.scan_once fuel (String "{" s1) = Some (v, r) -> exists d, v = Json.Obj d.
Proof.
  destruct fuel as [|n]; simpl; [discriminate|].
  destruct (Json.skip_ws s1) as [|c s2] eqn:E.
  - destruct (Json.scan_members n "" []) as [[d r']|]; [|discriminate].
    intros H; inversion H; eauto.
  - destruct (Ascii.eqb c "}") eqn:Ec.
    + apply Ascii.eqb_eq in Ec. subst c. intros H; inversion H; eauto.
    + assert (Hm : match Json.scan_members n (String c s2) [] with
                   | Some (d, r0) => Some (Json.Obj d, r0)
                   | None => None
                   end = Some (v, r) -> exists d, v = Json.Obj d).
      { destruct (Json.scan_members n (String c s2) []) as [[d r']|];
          [|discriminate]. intros H; inversion H; eauto. }
      destruct c as [[] [] [] [] [] [] [] []]; try exact Hm; discriminate.
Qed.

Lemma json_pattern_brace m :
  describes false json_pattern m -> exists s1, m_group0 m = String "{" s1.
Proof.
  intros (pv & rest & H). unfold json_pattern, seq in H.
  destruct m as [st g0 gs]; simpl in *. inv_matches; simpl. eauto.
Qed.

Lemma loads_object s1 v :
  Json.loads (String "{" s1) = Ok v -> exists d, v = Json.Obj d.
Proof.
  unfold Json.loads. simpl Json.skip_ws.
  destruct (Json.scan_once _ _) as [[v' r]|] eqn:E; [|discriminate].
  apply scan_once_object in E. destruct E as [d ->].
  destruct (Json.skip_ws r); [|discriminate]. intros H; inversion H; eauto.
Qed.

Lemma loads_error s e : Json.loads s = Raise e -> e = JSONDecodeError.
Proof.
  unfold Json.loads.
  destruct (Json.scan_once _ _) as [[v' r]|]; [|congruence].
  destruct (Json.skip_ws r); congruence.
Qed.

(** Approach 1 never raises: the matched text starts with a brace,
    so what it decodes to is a dict. *)
Lemma approach1_total c l : exists l', approach1 c l = Ok l'.
Proof.
  unfold approach1.
  destruct (search false json_pattern c) as [m|] eqn:E; [|eauto].
  apply search_sound, json_pattern_brace in E. destruct E as [s1 E].
  rewrite E. destruct (Json.loads (String "{" s1)) as [v|e] eqn:L.
  - apply loads_object in L. destruct L as [d ->]. simpl. eauto.
  - apply loads_error in L. subst e. eauto.
Qed.

(** Approach 2 never raises: group 1 is always a decimal text. *)
Lemma approach2_total c l : exists l', approach2 c l = Ok l'.
Proof.
  unfold approach2. destruct (is_none (confidence_score l)); [|eauto].
  destruct (search false score_pattern c) as [m|] eqn:E; [|eauto].
  apply search_sound, score_pattern_group in E.
  destruct E as (g & Hg & Hd). unfold group1. rewrite Hg. cbn [bind].
  destruct (py_float_decimal g Hd) as [f ->]. cbn [bind].
  destruct (search false msg_pattern c) as [m'|] eqn:E'; [|eauto].
  apply search_sound, msg_pattern_group in E'. destruct E' as [t ->].
  cbn [bind]. eauto.
Qed.

Lemma findall_decimal c : Forall decimal_text (findall number_pattern c).
Proof.
  unfold findall. apply Forall_map.
  eapply Forall_impl; [|apply scan_sound].
  intros m Hm. apply number_pattern_group in Hm.
  destruct Hm as (g & -> & Hd). exact Hd.
Qed.

Lemma first_reasonable_total numbers :
  Forall decimal_text numbers -> exists o, first_reasonable numbers = Ok o.
Proof.
  induction 1 as [|g rest Hg _ IH]; simpl; [eauto|].
  destruct (py_float_decimal g Hg) as [f ->]. simpl.
  destruct (Float.leb zero f && Float.leb f one); eauto.
Qed.

(** Approach 3 never raises. *)
Lemma approach3_total c l : exists l', approach3 c l = Ok l'.
Proof.
  unfold approach3. destruct (is_none (confidence_score l)); [|eauto].
  destruct (first_reasonable_total _ (findall_decimal c)) as [o ->].
  simpl. destruct o; eauto.
Qed.

Lemma extract_total c : exists l, extract c = Ok l.
Proof.
  unfold extract.
  destruct (approach1_total c init) as [l1 ->]. simpl.
  destruct (approach2_total c l1) as [l2 ->]. simpl.
  apply approach3_total.
Qed.

(** With a score already set, the later approaches change nothing. *)
Lemma approach2_skip c l :
  is_none (confidence_score l) = false -> approach2 c l = Ok l.
Proof. unfold approach2. intros ->. reflexivity. Qed.

Lemma approach3_skip c l :
  is_none (confidence_score l) = false -> approach3 c l = Ok l.
Proof. unfold approach3. intros ->. reflexivity. Qed.

(** What [json_pattern] matches: the text of an object without inner
    braces that holds the two quoted keys in this order. *)
Lemma json_pattern_shape m :
  describes false json_pattern m ->
  exists a b c,
    m_group0 m = ("{" ++ a ++ Str.quoted "confidence_score" ++ b
                  ++ Str.quoted "message" ++ c ++ "}")%string /\
    all not_brace a = true /\ all not_brace b = true /\
    all not_brace c = true.
Proof.
  intros (pv & rest & H). unfold json_pattern, seq in H.
  destruct m as [st g0 gs]; simpl in *. inv_matches.
  eexists _, _, _. split; [reflexivity|]. auto.
Qed.

(** What [score_pattern] matches: the quoted key, a colon, white
    space, and as group 1 a decimal text. *)
Lemma score_pattern_shape m :
  describes false score_pattern m ->
  exists ws g,
    m_group0 m = (Str.quoted "confidence_score" ++ ":" ++ ws ++ g)%string /\
    all Str.isspace ws = true /\ group m 1 = Some g /\ decimal_text g.
Proof.
  intros (pv & rest & H). unfold score_pattern, seq in H.
  destruct m as [st g0 gs]; simpl in *. inv_matches; simpl.
  - match goal with
    | Hw : all Str.isspace ?ws = true
      |- context [(?ws ++ ?a ++ String "." ?c)%string] =>
        exists ws, (a ++ String "." c)%string;
        repeat split; auto; exists a, ".", c
    end. digits_side.
  - match goal with
    | Hw : all Str.isspace ?ws = true
      |- context [(?ws ++ ?a ++ ?c)%string] =>
        exists ws, (a ++ c)%string;
        repeat split; auto; exists a, "", c
    end. digits_side.
Qed.

Lemma approach1_object c m d :
  search false json_pattern c = Some m ->
  Json.loads (m_group0 m) = Ok (Json.Obj d) ->
  approach1 c init
  = Ok (Locals match Json.lookup key_score d with
               | Some x => x
               | None => Json.Null
               end
               match Json.lookup key_message d with
               | Some x => x
               | None => Json.Str (Json.text_of_string "")
               end).
Proof. unfold approach1. intros -> ->. reflexivity. Qed.

Lemma first_reasonable_app pre rest :
  Forall (fun g => exists x, py_float g = Ok x /\
                             Float.leb zero x && Float.leb x one = false) pre ->
  first_reasonable (pre ++ rest) = first_reasonable rest.
Proof.
  induction 1 as [|g pre (x & Hx & Hr) _ IH]; simpl; auto.
  rewrite Hx. cbn [bind]. rewrite Hr. exact IH.
Qed.

Section Order.
Variable cleaned_message : string.

(** The first attempt yields no score: the pattern of the object
    matches nowhere, or what it matches is not JSON, or the object has
    no value (or [null]) under the key. *)
Let no_score_in_object : Prop :=
  search false json_pattern cleaned_message = None \/
  exists m, search false json_pattern cleaned_message = Some m /\
    (Json.loads (m_group0 m) = Raise JSONDecodeError \/
     exists d, Json.loads (m_group0 m) = Ok (Json.Obj d) /\
       (Json.lookup key_score d = None \/
        Json.lookup key_score d = Some Json.Null)).

(** The loop of the third attempt passes over this number. *)
Let passed_over (g : string) : Prop :=
  exists x, py_float g = Ok x /\
            Float.leb zero x && Float.leb x one = false.

(** A bare decimal: [0.] and digits, or [1.] and zeros, or [0]. *)
Let bare_decimal (g : string) : Prop :=
  (exists ds, g = ("0." ++ ds)%string /\ all Str.isdigit ds = true /\
              ds <> "") \/
  (exists zs, g = ("1." ++ zs)%string /\ all is_zero zs = true /\
              zs <> "") \/
  g = "0".

Lemma number_pattern_bare m :
  describes false number_pattern m ->
  exists g, group m 1 = Some g /\ bare_decimal g.
Proof.
  intros (pv & rest & H). unfold number_pattern, seq in H.
  destruct m as [st g0 gs]; simpl in *. inv_matches; simpl;
    (eexists; split; [reflexivity|]).
  - left. eexists. split; [reflexivity|]. digits_side.
  - right. left. eexists. split; [reflexivity|]. digits_side.
  - right. right. reflexivity.
Qed.

Lemma findall_bare : Forall bare_decimal (findall number_pattern cleaned_message).
Proof.
  unfold findall. apply Forall_map.
  eapply Forall_impl; [|apply scan_sound].
  intros m Hm. apply number_pattern_bare in Hm.
  destruct Hm as (g & -> & Hd). exact Hd.
Qed.

Lemma approach1_without_score :
  no_score_in_object ->
  exists l1, approach1 cleaned_message init = Ok l1 /\
             confidence_score l1 = Json.Null.
Proof.
  unfold approach1.
  intros [-> | (m & -> & [-> | (d & -> & Hd)])]; cbn [bind py_get]; eauto.
  destruct Hd as [-> | ->]; eauto.
Qed.

(** C2.  For every text the extraction returns, and its three attempts
    come in this order.  First the pattern of a JSON object, which
    matches an object text without inner braces that holds the two
    quoted keys: when the match decodes to an object with a score
    under the key, that score and the object's message are the
    result, whatever the other patterns match.  Then, only when the
    first attempt yields no score, the pattern of the key-value pair,
    which matches the quoted key, a colon, white space and a decimal
    text: when it matches, the result is the float of that decimal
    text.  Then, only when this pattern does not match either, the
    bare decimals ([0.] and digits, [1.] and zeros, or [0]): the
    result is the first of them within 0 and 1, or no score when none
    is. *)
Theorem extraction_order :
  (exists l, extract cleaned_message = Ok l) /\
  forall l, extract cleaned_message = Ok l ->
    (forall m, search false json_pattern cleaned_message = Some m ->
       (exists a b c,
          m_group0 m = ("{" ++ a ++ Str.quoted "confidence_score" ++ b
                        ++ Str.quoted "message" ++ c ++ "}")%string /\
          all not_brace a = true /\ all not_brace b = true /\
          all not_brace c = true) /\
       (forall d v,
          Json.loads (m_group0 m) = Ok (Json.Obj d) ->
          Json.lookup key_score d = Some v -> v <> Json.Null ->
          confidence_score l = v /\
          message_text l = match Json.lookup key_message d with
                           | Some x => x
                           | None => Json.Str (Json.text_of_string "")
                           end)) /\
    (no_score_in_object ->
     forall m, search false score_pattern cleaned_message = Some m ->
       exists ws g f,
         m_group0 m
           = (Str.quoted "confidence_score" ++ ":" ++ ws ++ g)%string /\
         all Str.isspace ws = true /\
         group m 1 = Some g /\ decimal_text g /\
         py_float g = Ok f /\
         confidence_score l = Json.Float f) /\
    (no_score_in_object ->
     search false score_pattern cleaned_message = None ->
     Forall bare_decimal (findall number_pattern cleaned_message) /\
     (forall pre g post f,
        findall number_pattern cleaned_message = (pre ++ g :: post)%list ->
        Forall passed_over pre ->
        py_float g = Ok f ->
        Float.leb zero f && Float.leb f one = true ->
        confidence_score l = Json.Float f) /\
     (Forall passed_over (findall number_pattern cleaned_message) ->
      confidence_score l = Json.Null)).
Proof.
  split; [apply extract_total|].
  intros l He. unfold extract in He. split; [|split].
  - intros m Hm. split.
    { apply search_sound, json_pattern_shape in Hm. exact Hm. }
    intros d v Hd Hk Hv.
    rewrite (approach1_object _ _ _ Hm Hd), Hk in He. cbn [bind] in He.
    assert (Hn : is_none v = false) by (destruct v; auto; congruence).
    rewrite approach2_skip in He by exact Hn. cbn [bind] in He.
    rewrite approach3_skip in He by exact Hn.
    inversion He. split; reflexivity.
  - intros Hno m Hm.
    destruct (approach1_without_score Hno) as (l1 & H1 & N1).
    rewrite H1 in He. cbn [bind] in He. unfold approach2 in He.
    rewrite N1 in He. cbn [is_none] in He. rewrite Hm in He.
    destruct (score_pattern_shape m (search_sound _ _ _ _ Hm))
      as (ws & g & H0 & Hws & Hg & Hd).
    destruct (py_float_decimal g Hd) as [f Hf].
    exists ws, g, f. repeat split; auto.
    unfold group1 in He. rewrite Hg in He. cbn [bind] in He.
    rewrite Hf in He. cbn [bind] in He.
    destruct (search false msg_pattern cleaned_message) as [m'|] eqn:E'.
    + apply search_sound, msg_pattern_group in E'. destruct E' as [t Ht].
      rewrite Ht in He. cbn [bind] in He.
      rewrite approach3_skip in He by reflexivity. inversion He. reflexivity.
    + cbn [bind] in He.
      rewrite approach3_skip in He by reflexivity. inversion He. reflexivity.
  - intros Hno Hs.
    destruct (approach1_without_score Hno) as (l1 & H1 & N1).
    rewrite H1 in He. cbn [bind] in He. unfold approach2 in He.
    rewrite N1 in He. cbn [is_none] in He. rewrite Hs in He.
    cbn [bind] in He. unfold approach3 in He. rewrite N1 in He.
    cbn [is_none] in He. split; [apply findall_bare|]. split.
    + intros pre g post f Hall Hpre Hf Hr. rewrite Hall in He.
      rewrite (first_reasonable_app pre (g :: post) Hpre) in He.
      cbn [first_reasonable] in He. rewrite Hf in He. cbn [bind] in He.
      rewrite Hr in He. cbn [bind] in He. inversion He. reflexivity.
    + intros Hall.
      rewrite <- (app_nil_r (findall number_pattern cleaned_message)) in He.
      rewrite (first_reasonable_app _ [] Hall) in He.
      cbn [first_reasonable bind] in He. inversion He. subst l. exact N1.
Qed.
End Order.

Lemma extraction_order_witness :
  (forall l, extract Samples.answer_high = Ok l ->
     confidence_score l = Json.Float (Float.of_decimal false 85 (-2))) /\
  (forall l, extract Samples.text_five = Ok l ->
     confidence_score l = Json.Float (Float.of_decimal false 5 0)) /\
  (forall l, extract Samples.text_bare = Ok l ->
     confidence_score l = Json.Float (Float.of_decimal false 80 (-2))) /\
  (forall l, extract "no number here" = Ok l ->
     confidence_score l = Json.Null).
Proof.
  split; [|split; [|split]]; intros l He.
  - destruct (proj2 (extraction_order Samples.answer_high) l He)
      as (H1 & _ & _).
    destruct (H1 (Match 0 Samples.answer_high [])
                ltac:(vm_compute; reflexivity)) as (_ & H).
    apply (proj1 (H Samples.object_high
                    (Json.Float (Float.of_decimal false 85 (-2)))
                    ltac:(vm_compute; reflexivity)
                    ltac:(vm_compute; reflexivity)
                    ltac:(discriminate))).
  - destruct (proj2 (extraction_order Samples.text_five) l He)
      as (_ & H2 & _).
    destruct (H2 ltac:(left; vm_compute; reflexivity)
                (Match 0 Samples.text_five ["5"])
                ltac:(vm_compute; reflexivity))
      as (ws & g & f & _ & _ & Hg & _ & Hf & Hl).
    vm_compute in Hg. injection Hg as <-.
    vm_compute in Hf. injection Hf as <-. exact Hl.
  - destruct (proj2 (extraction_order Samples.text_bare) l He)
      as (_ & _ & H3).
    destruct (H3 ltac:(left; vm_compute; reflexivity)
                ltac:(vm_compute; reflexivity)) as (_ & H & _).
    apply (H [] "0.80" [] (Float.of_decimal false 80 (-2))).
    + vm_compute. reflexivity.
    + constructor.
    + vm_compute. reflexivity.
    + vm_compute. reflexivity.
  - destruct (proj2 (extraction_order "no number here") l He)
      as (_ & _ & H3).
    destruct (H3 ltac:(left; vm_compute; reflexivity)
                ltac:(vm_compute; reflexivity)) as (_ & _ & H).
    apply H.
    assert (E : findall number_pattern "no number here" = [])
      by (vm_compute; reflexivity).
    rewrite E. constructor.
Defined.

Lemma route_of_body state last :
  last_item (messages state) = Ok last ->
  route_after_reflection state =
    match route_body (content last) with
    | Ok label => Ok label
    | Raise _ => Ok human_approval
    end.
Proof. unfold route_after_reflection. intros ->. reflexivity. Qed.



Lemma encodable_spec s :
  (forall c, In c s -> (c < 55296 \/ 57343 < c)%N) -> encodable s = true.
Proof.
  intros H. unfold encodable. apply forallb_forall. intros c Hc.
  specialize (H c Hc). unfold is_surrogate.
  destruct (55296 <=? c)%N eqn:E1; auto.
  destruct (c <=? 57343)%N eqn:E2; auto.
  apply N.leb_le in E1. apply N.leb_le in E2. lia.
Qed.

(** Text of the model, every character below U+0100, can be
    printed. *)
Lemma encodable_text (s : string) : encodable (Json.text_of_string s) = true.
Proof.
  apply encodable_spec. intros c Hc. unfold Json.text_of_string in Hc.
  apply in_map_iff in Hc. destruct Hc as (a & <- & _).
  left. pose proof (N_ascii_bounded a). lia.
Qed.


(** With a message that can be printed, a numeric score is compared
    with the threshold. *)
Lemma decide_number (l : locals) :
  printable (message_text l) = true ->
  match confidence_score l with
  | Json.Float _ | Json.Int _ | Json.Bool _ => True
  | _ => False
  end ->
  decide l = (requires_human_review <- py_lt (confidence_score l) threshold ;;
              Ok (if requires_human_review : bool
                  then human_approval else automatic_approval)).
Proof.
  intros Hm Hs. unfold decide, py_print. rewrite Hm.
  destruct (confidence_score l); try contradiction; cbn [is_none negb];
    cbn [printable bind];
    match goal with
    | |- context [py_lt ?a ?b] => destruct (py_lt a b) as [[]|]; reflexivity
    end.
Qed.


Lemma decide_labels (l : locals) (label : string) :
  decide l = Ok label ->
  label = automatic_approval \/ label = human_approval.
Proof.
  unfold decide, py_print.
  destruct (negb (is_none (confidence_score l))); [|intros H; inversion H; auto].
  destruct (printable (confidence_score l)); cbn [bind]; [|discriminate].
  destruct (printable (message_text l)); cbn [bind]; [|discriminate].
  destruct (py_lt (confidence_score l) threshold) as [[]|]; cbn [bind];
    intros H; inversion H; auto.
Qed.




(** C3, as stated, fails: from the text of a key-value pair with the
    value 5, the second approach extracts the score 5.0, which is not
    between 0 and 1 (and the router answers [automatic_approval]). *)
Lemma score_outside_unit_interval :
  extract Samples.text_five = Ok Samples.locals_five /\
  confidence_score Samples.locals_five
    = Json.Float (Float.of_decimal false 5 0) /\
  in_unit_interval (confidence_score Samples.locals_five) = false /\
  route_after_reflection (mkState [HumanMessage Samples.text_five])
    = Ok automatic_approval.
Proof. repeat split; vm_compute; reflexivity. Qed.

Lemma first_reasonable_range numbers num :
  first_reasonable numbers = Ok (Some num) ->
  Float.leb zero num && Float.leb num one = true.
Proof.
  induction numbers as [|g rest IH]; simpl; [discriminate|].
  destruct (py_float g) as [f|]; simpl; [|discriminate].
  destruct (Float.leb zero f && Float.leb f one) eqn:E; auto.
  intros H; inversion H; subst. exact E.
Qed.

Lemma py_float_not_negative g f :
  py_float g = Ok f -> Float.leb zero f = true.
Proof.
  unfold py_float.
  destruct (Json.span Str.isdigit g) as [ip r].
  destruct (match r with
            | String "." t => Json.span Str.isdigit t
            | _ => (EmptyString, r)
            end) as [fp r'].
  destruct r'; [|discriminate].
  destruct (ip ++ fp)%string; [discriminate|].
  intros H; inversion H; subst.
  apply FloatFacts.signed_leb_zero, FloatFacts.of_decimal_signed.
Qed.

(** C3, amended.  A score found by the third approach, the bare
    decimal fallback, is a float between 0 and 1; a score found by
    the second approach, the key-value pair, is a float that is not
    below 0. *)
Theorem score_ranges (cleaned_message : string)
  (l l' : locals) :
  is_none (confidence_score l) = true ->
  is_none (confidence_score l') = false ->
  (approach3 cleaned_message l = Ok l' ->
     in_unit_interval (confidence_score l') = true) /\
  (approach2 cleaned_message l = Ok l' ->
     exists f, confidence_score l' = Json.Float f /\
               Float.leb zero f = true).
Proof.
  intros Hn Hs. split.
  - unfold approach3. rewrite Hn.
    destruct (first_reasonable (findall number_pattern cleaned_message))
      as [[num|]|] eqn:E; simpl; try discriminate.
    + intros H; inversion H; subst. simpl.
      apply (first_reasonable_range _ _ E).
    + intros H; inversion H; subst. congruence.
  - unfold approach2. rewrite Hn.
    destruct (search false score_pattern cleaned_message) as [m|].
    2:{ intros H; inversion H; subst. congruence. }
    destruct (group1 m) as [g|]; cbn [bind]; [|discriminate].
    destruct (py_float g) as [f|] eqn:F; cbn [bind]; [|discriminate].
    apply py_float_not_negative in F.
    destruct (search false msg_pattern cleaned_message) as [m'|].
    + destruct (group1 m'); cbn [bind]; intros H; inversion H; subst;
        simpl; eauto.
    + intros H; inversion H; subst; simpl; eauto.
Qed.

Lemma score_ranges_witness :
  in_unit_interval (confidence_score Samples.locals_bare) = true.
Proof.
  apply (proj1 (score_ranges Samples.text_bare init
                  Samples.locals_bare
                  ltac:(vm_compute; reflexivity)
                  ltac:(vm_compute; reflexivity))).
  vm_compute. reflexivity.
Defined.

(** C8, as stated, fails: on a state without messages the router
    answers no label, the [IndexError] of [messages[-1]] leaves it. *)
Lemma route_raises_on_empty_state :
  route_after_reflection Samples.state_empty = Raise IndexError /\
  route_after_reflection Samples.state_empty <> Ok automatic_approval /\
  route_after_reflection Samples.state_empty <> Ok human_approval.
Proof. repeat split; vm_compute; try reflexivity; discriminate. Qed.

Lemma last_item_nonempty {A} (l : list A) :
  l <> [] -> exists x, last_item l = Ok x.
Proof.
  intros Hl. unfold last_item. destruct (rev l) as [|x r] eqn:E; eauto.
  apply (f_equal (@rev A)) in E. rewrite rev_involutive in E. simpl in E.
  contradiction.
Qed.

(** C8, amended.  On a state with at least one message the router
    answers one of the two labels; it answers [human_approval] when
    no score is extracted and when anything raises inside the [try]. *)
Theorem route_total (state : State) :
  messages state <> [] ->
  (route_after_reflection state = Ok automatic_approval \/
   route_after_reflection state = Ok human_approval) /\
  (forall last, last_item (messages state) = Ok last ->
     (forall e, route_body (content last) = Raise e ->
        route_after_reflection state = Ok human_approval) /\
     (forall c l, clean (content last) = Ok c -> extract c = Ok l ->
        is_none (confidence_score l) = true ->
        route_after_reflection state = Ok human_approval)).
Proof.
  intros Hne. destruct (last_item_nonempty _ Hne) as [last Hlast]. split.
  - rewrite (route_of_body _ _ Hlast).
    destruct (route_body (content last)) as [label|e] eqn:E; auto.
    unfold route_body in E.
    destruct (clean (content last)) as [c|]; simpl in E; [|discriminate].
    destruct (extract c) as [l|]; simpl in E; [|discriminate].
    destruct (decide_labels l label E) as [-> | ->]; auto.
  - intros last' Hlast'. rewrite (route_of_body _ _ Hlast'). split.
    + intros e ->. reflexivity.
    + intros c l Hc He Hn. unfold route_body. rewrite Hc. simpl.
      rewrite He. simpl. unfold decide. rewrite Hn. reflexivity.
Qed.

Lemma route_total_witness :
  route_after_reflection Samples.state_plain = Ok automatic_approval \/
  route_after_reflection Samples.state_plain = Ok human_approval.
Proof.
  apply (route_total Samples.state_plain). vm_compute. discriminate.
Defined.
End RouterFacts.

Module ReflectionFacts.
Import Reflection.

Section Node.
Variable ainvoke : nat -> list message -> result pyobj.

(** Each pass invokes the model once; when its [try] block ends
    normally the answer is bound, and what it returns is one human
    message. *)
Lemma try_block_spec attempt v v' r :
  try_block ainvoke attempt v = (v', r) ->
  calls v' = S (calls v) /\
  (r = Ok Next -> exists rc, response_content v' = Some rc) /\
  (forall s, r = Ok (Return s) -> exists rc, s = mkState [HumanMessage rc]).
Proof.
  unfold try_block.
  destruct (ainvoke (calls v) (translated v)) as [res|e].
  2:{ intros H; inversion H; subst; simpl. repeat split; intros; discriminate. }
  destruct (content_strip res) as [rc|e].
  2:{ intros H; inversion H; subst; simpl. repeat split; intros; discriminate. }
  assert (Retry : forall v' r,
    (if (attempt <? max_attempts - 1)%nat
     then (Vars (translated v ++ [HumanMessage explicit_instruction])
             (Some rc) (S (calls v)), Ok Next)
     else (Vars (translated v) (Some rc) (S (calls v)), Ok Next)) = (v', r) ->
    calls v' = S (calls v) /\
    (r = Ok Next -> exists rc, response_content v' = Some rc) /\
    (forall s, r = Ok (Return s) -> exists rc, s = mkState [HumanMessage rc])).
  { intros w q. destruct (attempt <? max_attempts - 1)%nat;
      intros H; inversion H; subst; simpl; repeat split; eauto;
      intros; discriminate. }
  destruct (Str.contains _ rc && Str.contains _ rc); [|apply Retry].
  destruct (Re.search false Router.json_pattern rc) as [m|]; [|apply Retry].
  destruct (Json.loads (Re.m_group0 m)) as [x|e] eqn:L.
  - intros H; inversion H; subst; simpl. repeat split; eauto.
    intros s Hs; inversion Hs; eauto.
  - apply RouterFacts.loads_error in L. subst e. apply Retry.
Qed.

Lemma attempt_once_spec attempt v v' o :
  attempt_once ainvoke attempt v = (v', o) ->
  calls v' = S (calls v) /\
  (o = Next -> attempt = (max_attempts - 1)%nat ->
     exists rc, response_content v' = Some rc) /\
  (forall s, o = Return s -> exists rc, s = mkState [HumanMessage rc]).
Proof.
  unfold attempt_once.
  destruct (try_block ainvoke attempt v) as [w r] eqn:E.
  apply try_block_spec in E. destruct E as (Hc & Hn & Hr).
  destruct r as [o'|e].
  - intros H; inversion H; subst. repeat split; auto.
    + intros -> _. auto.
    + intros s ->. auto.
  - destruct (attempt =? max_attempts - 1)%nat eqn:Ea;
      intros H; inversion H; subst; repeat split; auto.
    + intros; discriminate.
    + intros s Hs; inversion Hs; eauto.
    + intros _ Hf. apply Nat.eqb_neq in Ea. contradiction.
    + intros; discriminate.
Qed.

(** C4.  The reflection node invokes the model at most three times;
    once it has invoked it at all it ends with a response (one
    human message), and it raises only before the first attempt,
    when the messages cannot be translated. *)
Theorem reflection_bounded_retries (state : State) :
  fst (reflection_run ainvoke state) <= max_attempts /\
  ((exists resp,
      snd (reflection_run ainvoke state) = Ok (mkState [HumanMessage resp])) \/
   (fst (reflection_run ainvoke state) = 0 /\
    exists e, translate state = Raise e /\
              snd (reflection_run ainvoke state) = Raise e)).
Proof.
  unfold reflection_run.
  destruct (translate state) as [tr|e]; simpl.
  2:{ split; [lia|]. right. eauto. }
  destruct (attempt_once ainvoke 0 (Vars tr None 0)) as [v1 o1] eqn:E1.
  pose proof (attempt_once_spec _ _ _ _ E1) as (C1 & _ & R1).
  destruct o1 as [s1|].
  { simpl. destruct (R1 s1 eq_refl) as [rc ->]. simpl in C1.
    split; [unfold max_attempts; lia|]. left. eauto. }
  destruct (attempt_once ainvoke 1 v1) as [v2 o2] eqn:E2.
  pose proof (attempt_once_spec _ _ _ _ E2) as (C2 & _ & R2).
  destruct o2 as [s2|].
  { simpl. destruct (R2 s2 eq_refl) as [rc ->]. simpl in C1.
    split; [unfold max_attempts; lia|]. left. eauto. }
  destruct (attempt_once ainvoke 2 v2) as [v3 o3] eqn:E3.
  pose proof (attempt_once_spec _ _ _ _ E3) as (C3 & N3 & R3).
  simpl in C1. destruct o3 as [s3|]; simpl.
  { destruct (R3 s3 eq_refl) as [rc ->].
    split; [unfold max_attempts; lia|]. left. eauto. }
  destruct (N3 eq_refl eq_refl) as [rc ->].
  split; [unfold max_attempts; lia|]. left. eauto.
Qed.

(** When the last attempt raises, the node answers the fallback. *)
Lemma fallback_on_final_exception state :
  final_attempt_raises ainvoke state = true ->
  reflection_node ainvoke state = Ok (mkState [HumanMessage fallback_response]).
Proof.
  unfold final_attempt_raises, reflection_node, reflection_run.
  destruct (translate state) as [tr|]; [|discriminate]. simpl.
  destruct (attempt_once ainvoke 0 (Vars tr None 0)) as [v1 [s1|]];
    [discriminate|].
  destruct (attempt_once ainvoke 1 v1) as [v2 [s2|]]; [discriminate|].
  unfold attempt_once.
  destruct (try_block ainvoke 2 v2) as [v3 [o|e]]; simpl; [discriminate|].
  reflexivity.
Qed.
End Node.

End ReflectionFacts.

Module ExternalFacts.
Import External.

Lemma find_exact_none key : forall table,
  existsb (String.eqb key) (map fst table) = false ->
  find_exact key table = None.
Proof.
  induction table as [|[k h] rest IH]; simpl; auto.
  intros H. apply orb_false_iff in H. destruct H as [Hk Hr].
  rewrite String.eqb_sym, Hk. auto.
Qed.

Lemma find_exact_some key : forall table,
  existsb (String.eqb key) (map fst table) = true ->
  exists h, find_exact key table = Some h.
Proof.
  induction table as [|[k h] rest IH]; simpl; [discriminate|].
  intros H. rewrite String.eqb_sym.
  destruct (String.eqb key k); eauto.
Qed.

Lemma find_partial_none n : forall table,
  existsb (fun key => Str.contains key n || Str.contains n key)
          (map fst table) = false ->
  find_partial n table = None.
Proof.
  induction table as [|[k h] rest IH]; simpl; auto.
  intros H. apply orb_false_iff in H. destruct H as [Hk Hr].
  rewrite Hk. auto.
Qed.

Lemma find_partial_some n : forall table,
  existsb (fun key => Str.contains key n || Str.contains n key)
          (map fst table) = true ->
  exists h, find_partial n table = Some h.
Proof.
  induction table as [|[k h] rest IH]; simpl; [discriminate|].
  intros H. destruct (Str.contains k n || Str.contains n k); eauto.
Qed.

(** C6.  For every place name, the answer of [verify_place_of_birth]
    holds confidence 0.95 and [place_verified] true when the
    normalized name is a key of the table, 0.90 and true when it is
    not but contains a key or is contained in one, and 0.2 and false
    otherwise. *)
Theorem verify_scores (place_name : string) :
  let n := normalize place_name in
  let d := verify_place_of_birth (Text place_name) in
  (exact_match n = true ->
     verdict d = (Some (PFloat exact_score), Some (PBool true))) /\
  (exact_match n = false -> partial_match n = true ->
     verdict d = (Some (PFloat partial_score), Some (PBool true))) /\
  (exact_match n = false -> partial_match n = false ->
     verdict d = (Some (PFloat unknown_score), Some (PBool false))).
Proof.
  intros n d. unfold d, verify_place_of_birth, verify_body. fold n.
  unfold exact_match, partial_match. repeat split.
  - intros H. destruct (find_exact_some _ _ H) as [h ->]. reflexivity.
  - intros H1 H2. rewrite (find_exact_none _ _ H1).
    destruct (find_partial_some _ _ H2) as [h ->]. reflexivity.
  - intros H1 H2. rewrite (find_exact_none _ _ H1), (find_partial_none _ _ H2).
    reflexivity.
Qed.

Lemma verify_scores_witness :
  verdict (verify_place_of_birth (Text "Westmead Hospital, NSW"))
    = (Some (PFloat exact_score), Some (PBool true)) /\
  verdict (verify_place_of_birth (Text "Westmead"))
    = (Some (PFloat partial_score), Some (PBool true)) /\
  verdict (verify_place_of_birth (Text "St Elsewhere"))
    = (Some (PFloat unknown_score), Some (PBool false)).
Proof.
  split; [|split].
  - apply (proj1 (verify_scores "Westmead Hospital, NSW")).
    vm_compute. reflexivity.
  - apply (proj1 (proj2 (verify_scores "Westmead"))); vm_compute; reflexivity.
  - apply (proj2 (proj2 (verify_scores "St Elsewhere")));
      vm_compute; reflexivity.
Defined.

(** C5.  An exception on the last reflection attempt gives the fixed
    fallback message, whose score reads 0.5; an exception inside
    [verify_place_of_birth] or [call_external_service] gives a dict
    with an [error] field. *)
Theorem exceptions_become_fallbacks :
  (forall ainvoke state,
     Reflection.final_attempt_raises ainvoke state = true ->
     Reflection.reflection_node ainvoke state
       = Ok (mkState [HumanMessage Reflection.fallback_response])) /\
  (exists l, Router.extract Reflection.fallback_response = Ok l /\
             Router.confidence_score l
               = Json.Float (Float.of_decimal false 5 (-1))) /\
  (forall place_name e,
     verify_body place_name = Raise e ->
     dict_get "error" (verify_place_of_birth place_name)
       = Some (PStr (str_of_exn e))) /\
  (forall text e,
     call_body text = Raise e ->
     dict_get "error" (call_external_service text)
       = Some (PStr (str_of_exn e))).
Proof.
  split; [|split; [|split]].
  - intros. apply ReflectionFacts.fallback_on_final_exception; auto.
  - exists Samples.locals_fallback. split; vm_compute; reflexivity.
  - intros place_name e H. unfold verify_place_of_birth. rewrite H.
    reflexivity.
  - intros text e H. unfold call_external_service. rewrite H.
    reflexivity.
Qed.

Lemma exceptions_become_fallbacks_witness :
  Reflection.reflection_node Samples.failing_model
    Samples.state_before_reflection
    = Ok (mkState [HumanMessage Reflection.fallback_response]) /\
  dict_get "error" (verify_place_of_birth NotText)
    = Some (PStr (str_of_exn AttributeError)) /\
  dict_get "error" (call_external_service (Items [Message ai NotText]))
    = Some (PStr (str_of_exn TypeError)).
Proof.
  destruct exceptions_become_fallbacks as (H1 & _ & H2 & H3).
  split; [|split].
  - apply (H1 Samples.failing_model Samples.state_before_reflection).
    vm_compute. reflexivity.
  - apply H2. vm_compute. reflexivity.
  - apply H3. vm_compute. reflexivity.
Defined.

End ExternalFacts.

Module GraphFacts.
Import Graph Router.

Lemma route_labels state b :
  route_after_reflection state = Ok b ->
  b = automatic_approval \/ b = human_approval.
Proof.
  unfold route_after_reflection.
  destruct (last_item (messages state)) as [last|]; simpl; [|discriminate].
  destruct (route_body (content last)) as [label|e] eqn:E.
  2:{ intros H; inversion H; auto. }
  unfold route_body in E.
  destruct (clean (content last)) as [c|]; simpl in E; [|discriminate].
  destruct (extract c) as [l|]; simpl in E; [|discriminate].
  intros H; inversion H; subst b.
  apply (RouterFacts.decide_labels l label E).
Qed.

(** The successors of each node. *)
Lemma step_inv a b :
  step builder a b ->
  (a = START /\ b = "generate") \/
  (a = "generate" /\ b = "store") \/
  (a = "store" /\ b = "external_process") \/
  (a = "external_process" /\ b = "reflect") \/
  (a = "reflect" /\ (b = automatic_approval \/ b = human_approval)) \/
  (a = "automatic_approval" /\ b = END) \/
  (a = "human_approval" /\ b = END).
Proof.
  intros H. destruct H as [a b H | a pth state b H Hr].
  - simpl in H.
    repeat (destruct H as [H|H]; [inversion H; subst; tauto|]).
    contradiction.
  - simpl in H. destruct H as [H|[]]. inversion H; subst.
    apply route_labels in Hr. tauto.
Qed.

Lemma step_reflect_automatic : step builder "reflect" automatic_approval.
Proof.
  apply (step_branch builder "reflect" route_after_reflection
           Samples.state_high).
  - simpl. auto.
  - vm_compute. reflexivity.
Qed.

Lemma step_reflect_human : step builder "reflect" human_approval.
Proof.
  apply (step_branch builder "reflect" route_after_reflection
           Samples.state_plain).
  - simpl. auto.
  - vm_compute. reflexivity.
Qed.

Ltac edge := apply step_edge; simpl; tauto.

Ltac inv_path :=
  repeat match goal with
  | H : path builder _ (_ :: _) |- _ => inversion H; clear H; subst
  | H : step builder _ _ |- _ =>
      apply step_inv in H;
      repeat (destruct H as [H|H]);
      destruct H as [? H]; try discriminate; subst
  | H : _ \/ _ |- _ => destruct H; subst
  end.

(** C7.  The graph is a fixed sequence: every run from the start
    visits generate, store, external_process and reflect in this
    order, then one of the two approval nodes, then the end, and
    nothing else; both complete runs exist. *)
Theorem pipeline_order :
  (forall p, run builder p -> prefix p run_automatic \/ prefix p run_human) /\
  run builder run_automatic /\ run builder run_human /\
  (forall b, step builder "reflect" b <->
             b = automatic_approval \/ b = human_approval).
Proof.
  split; [|split; [|split]].
  - intros p (q & -> & Hq). unfold prefix, run_automatic, run_human.
    destruct q as [|n1 q]; [left; eexists; reflexivity|]. inv_path.
    destruct q as [|n2 q]; [left; eexists; reflexivity|]. inv_path.
    destruct q as [|n3 q]; [left; eexists; reflexivity|]. inv_path.
    destruct q as [|n4 q]; [left; eexists; reflexivity|]. inv_path.
    destruct q as [|n5 q]; [left; eexists; reflexivity|]. inv_path.
    + destruct q as [|n6 q]; [left; eexists; reflexivity|]. inv_path.
      destruct q as [|n7 q]; [left; eexists; reflexivity|]. inv_path.
    + destruct q as [|n6 q]; [right; eexists; reflexivity|]. inv_path.
      destruct q as [|n7 q]; [right; eexists; reflexivity|]. inv_path.
  - eexists. split; [reflexivity|].
    repeat (apply path_step; [first [edge | apply step_reflect_automatic]|]).
    apply path_stop.
  - eexists. split; [reflexivity|].
    repeat (apply path_step; [first [edge | apply step_reflect_human]|]).
    apply path_stop.
  - intros b. split.
    + intros H. apply step_inv in H.
      repeat (destruct H as [H|H]); destruct H as [Ha H];
        try discriminate; auto.
    + intros [-> | ->];
        [apply step_reflect_automatic | apply step_reflect_human].
Qed.

End GraphFacts.

Module EmbeddingFacts.
Import Float Embedding FloatFacts.
Local Open Scope Z_scope.

(** *** [normalize_vector] *)

Lemma fold_add_not_negative (l : list float) : forall acc,
  not_negative acc -> Forall not_negative l ->
  not_negative (fold_left add l acc).
Proof.
  induction l as [|x l IH]; intros acc Ha Hl; simpl; auto.
  inversion Hl; subst. apply IH; auto. apply add_not_negative; auto.
Qed.

Lemma sum_of_squares_not_negative (vector : list float) :
  not_negative (py_sum (map (fun val => mul val val) vector)).
Proof.
  apply fold_add_not_negative; [exact I|].
  apply Forall_map, Forall_forall. intros x _. apply square_not_negative.
Qed.

Lemma math_sqrt_total (x : float) :
  not_negative x -> exists y, math_sqrt x = Ok y.
Proof.
  destruct x as [s|[]| |[] m e]; simpl; intros H; try contradiction; eauto.
Qed.

Lemma magnitude_total (vector : list float) : exists m, magnitude vector = Ok m.
Proof. apply math_sqrt_total, sum_of_squares_not_negative. Qed.

Lemma map_result_length {A B} (f : A -> result B) : forall l r,
  map_result f l = Ok r -> length r = length l.
Proof.
  induction l as [|x l IH]; simpl; intros r H.
  - inversion H; reflexivity.
  - destruct (f x) as [y|]; simpl in H; [|discriminate].
    destruct (map_result f l) as [ys|]; simpl in H; [|discriminate].
    inversion H; subst. simpl. f_equal. apply IH. reflexivity.
Qed.

Lemma map_result_total {A B} (f : A -> result B) : forall l,
  Forall (fun x => exists y, f x = Ok y) l -> exists r, map_result f l = Ok r.
Proof.
  induction l as [|x l IH]; simpl; intros H; [eauto|].
  inversion H as [|? ? [y Hy] Hl]; subst. rewrite Hy. simpl.
  destruct (IH Hl) as [ys ->]. simpl. eauto.
Qed.

Lemma normalize_vector_length (vector : list float) :
  exists r, normalize_vector vector = Ok r /\ length r = length vector.
Proof.
  unfold normalize_vector.
  destruct (magnitude_total vector) as [m Hm]. rewrite Hm. simpl.
  destruct (eqb m zero) eqn:Ez; [eauto|].
  destruct (map_result_total (fun val => truediv val m) vector) as [r Hr].
  { apply Forall_forall. intros x _. unfold truediv. rewrite Ez. eauto. }
  exists r. split; auto. apply (map_result_length _ _ _ Hr).
Qed.

(** C10.  [normalize_vector] returns for every vector, without a
    division by zero; the answer is as long as the vector, and it is
    the vector itself when the magnitude is zero. *)
Theorem normalize_vector_total (vector : list float) :
  exists r, normalize_vector vector = Ok r /\
            length r = length vector /\
            (forall m, magnitude vector = Ok m -> eqb m zero = true ->
                       r = vector).
Proof.
  destruct (normalize_vector_length vector) as (r & Hr & Lr).
  exists r. repeat split; auto.
  intros m Hm Hz. unfold normalize_vector in Hr.
  rewrite Hm in Hr. simpl in Hr. rewrite Hz in Hr. congruence.
Qed.

Lemma normalize_vector_total_witness :
  normalize_vector [zero; S754_zero true] = Ok [zero; S754_zero true].
Proof.
  destruct (normalize_vector_total [zero; S754_zero true]) as (r & Hr & _ & Hz).
  rewrite Hr. f_equal. apply (Hz zero); vm_compute; reflexivity.
Defined.

(** *** The index arithmetic of [resize_embedding] *)

Lemma int_truediv_below (len : Z) :
  0 <= len < max_len ->
  exists ratio, int_truediv len (Z.of_nat target_dimension) = Ok ratio /\
                below false 64 ratio.
Proof.
  intros Hlen. unfold int_truediv. simpl Z.of_nat.
  destruct len as [|p|p]; [exists (S754_zero false); split; reflexivity| |lia].
  cbn [exact]. unfold div, SFdiv. cbn [xorb].
  pose proof (div_core_spec p 384 0 0) as C.
  destruct (SFdiv_core_binary prec emax (Zpos p) 0 384 0) as [[q e'] l].
  destruct C as [C1 C2].
  assert (Hd : Zdigits2 (Zpos p) <= 63)
    by (apply Zdigits2_le; unfold max_len in Hlen; lia).
  cbn [Zdigits2] in Hd.
  pose proof (binary_round_aux_below false q e' 63 l C1 ltac:(lia)
                ltac:(unfold emin, prec, emax; lia)
                ltac:(unfold prec, emax; lia)) as B.
  change (63 + 1) with 64 in B.
  destruct (binary_round_aux prec emax false q e' l); cbn [below] in B;
    try contradiction; eauto.
Qed.

Lemma float_of_int_below (n k : Z) :
  0 <= n -> n < 2 ^ k -> 0 <= k -> k <= emax - prec ->
  exists f, float_of_int n = Ok f /\ below false (k + 1) f.
Proof.
  intros. unfold float_of_int.
  pose proof (of_Z_below n k ltac:(auto) ltac:(auto) ltac:(auto) ltac:(auto))
    as B.
  destruct (of_Z n); cbn [below] in B; try contradiction; eauto.
Qed.

(** [int(i * ratio)] is defined and not below zero. *)
Lemma scaled_index (i : Z) (ratio : float) :
  0 <= i <= 384 -> below false 64 ratio ->
  exists fi z, float_of_int i = Ok fi /\ to_int (mul fi ratio) = Ok z /\ 0 <= z.
Proof.
  intros Hi Hr.
  assert (H9 : i < 2 ^ 9) by (change (2 ^ 9) with 512; lia).
  destruct (float_of_int_below i 9 ltac:(lia) H9 ltac:(lia)
              ltac:(unfold prec, emax; lia)) as (fi & Hfi & Bfi).
  pose proof (mul_below fi ratio (9 + 1) 64 Bfi Hr
                ltac:(unfold emin, prec, emax; lia)
                ltac:(unfold prec, emax; lia)) as Bm.
  destruct (to_int_below _ _ Bm) as (z & Hz & Hz0). eauto 6.
Qed.

Lemma py_index_total {A} (l : list A) (j : Z) :
  0 <= j < Z.of_nat (length l) -> exists x, py_index l j = Ok x.
Proof.
  intros Hj. unfold py_index.
  destruct (j <? 0) eqn:E1; [apply Z.ltb_lt in E1; lia|].
  destruct (j <? 0) eqn:E2; [apply Z.ltb_lt in E2; lia|].
  destruct (Z.of_nat (length l) <=? j) eqn:E3; [apply Z.leb_le in E3; lia|].
  simpl. destruct (nth_error l (Z.to_nat j)) eqn:E4; eauto.
  apply nth_error_None in E4. lia.
Qed.

Lemma range_bounds (start stop j : Z) :
  In j (range start stop) -> start <= j < stop.
Proof.
  unfold range. rewrite in_map_iff. intros (k & <- & Hk).
  apply in_seq in Hk. lia.
Qed.

Lemma replace_nth_length {A} (x : A) : forall l i,
  length (replace_nth l i x) = length l.
Proof.
  induction l as [|y l IH]; destruct i; simpl; auto.
Qed.

(** One pass of the loop returns, and keeps the length. *)
Lemma bucket_total (embedding : list float) (ratio : float)
  (res : list float) (i : nat) :
  Z.of_nat (length embedding) < max_len -> below false 64 ratio ->
  (i < length res)%nat -> (i < target_dimension)%nat ->
  exists res', bucket embedding ratio res i = Ok res' /\
               length res' = length res.
Proof.
  intros Hlen Hr Hi Hi'. unfold bucket, target_dimension in *.
  destruct (scaled_index (Z.of_nat i) ratio ltac:(lia) Hr)
    as (fi & start & -> & Hs & Hs0). cbn [bind]. rewrite Hs. cbn [bind].
  destruct (scaled_index (Z.of_nat i + 1) ratio ltac:(lia) Hr)
    as (fi1 & stop & -> & Ht & Ht0). cbn [bind]. rewrite Ht. cbn [bind].
  set (len := Z.of_nat (length embedding)) in *.
  set (stop' := if stop >? len then len else stop).
  assert (Hstop : stop' <= len).
  { unfold stop'. destruct (stop >? len) eqn:E; [lia|]. 
    rewrite Z.gtb_ltb in E. apply Z.ltb_ge in E. lia. }
  destruct (start <? stop') eqn:Elt; [|eauto].
  apply Z.ltb_lt in Elt.
  destruct (map_result_total (py_index embedding) (range start stop'))
    as [items ->].
  { apply Forall_forall. intros j Hj. apply range_bounds in Hj.
    apply py_index_total. fold len. lia. }
  cbn [bind].
  destruct (of_Z_positive (stop' - start) 63) as (m & e & Hn);
    try (unfold prec, emax; lia).
  { unfold max_len in Hlen. lia. }
  unfold float_of_int. rewrite Hn. cbn [bind].
  unfold truediv. cbn [eqb SFeqb SFcompare zero].
  cbn [bind]. unfold py_setitem.
  apply Nat.ltb_lt in Hi. rewrite Hi.
  eexists. split; [reflexivity|]. apply replace_nth_length.
Qed.

Lemma buckets_total (embedding : list float) (ratio : float) :
  Z.of_nat (length embedding) < max_len -> below false 64 ratio ->
  forall todo res,
    length res = target_dimension ->
    Forall (fun i => (i < target_dimension)%nat) todo ->
    exists res', buckets embedding ratio todo res = Ok res' /\
                 length res' = target_dimension.
Proof.
  intros Hlen Hr. induction todo as [|i todo IH]; intros res Hres Hall; simpl.
  - eauto.
  - inversion Hall; subst.
    destruct (bucket_total embedding ratio res i Hlen Hr) as (res1 & -> & L1);
      try lia.
    cbn [bind]. apply IH; auto. lia.
Qed.

Lemma averaged_total (embedding : list float) :
  Z.of_nat (length embedding) < max_len ->
  exists avg, averaged embedding = Ok avg /\ length avg = target_dimension.
Proof.
  intros Hlen. unfold averaged.
  destruct (int_truediv_below (Z.of_nat (length embedding)) ltac:(lia))
    as (ratio & -> & Hr). cbn [bind].
  apply buckets_total; auto using repeat_length.
  apply Forall_forall. intros i Hi. apply in_seq in Hi. lia.
Qed.

Lemma float_of_int_value (n : Z) (f : float) :
  float_of_int n = Ok f -> f = of_Z n.
Proof.
  unfold float_of_int. destruct (of_Z n); intros H; inversion H; reflexivity.
Qed.

Lemma nth_replace_nth {A} (x d : A) : forall l i j,
  (i < length l)%nat ->
  nth j (replace_nth l i x) d = if (j =? i)%nat then x else nth j l d.
Proof.
  induction l as [|y l IH]; intros i j Hi; simpl in Hi; [lia|].
  destruct i, j; simpl; auto. apply IH. lia.
Qed.

Lemma skipn_cons {A} : forall (l : list A) k x,
  nth_error l k = Some x -> skipn k l = x :: skipn (S k) l.
Proof.
  induction l as [|y l IH]; intros [|k] x H; simpl in *; try discriminate.
  - inversion H. reflexivity.
  - apply IH. exact H.
Qed.

(** The items read at the indices of a range are the slice. *)
Lemma indexed_slice {A} (l : list A) : forall n start,
  0 <= start -> start + Z.of_nat n <= Z.of_nat (length l) ->
  map_result (py_index l) (map (fun k => start + Z.of_nat k) (seq 0 n))
  = Ok (firstn n (skipn (Z.to_nat start) l)).
Proof.
  induction n as [|n IH]; intros start H0 Hn; [reflexivity|].
  cbn [seq map map_result]. rewrite Z.add_0_r.
  unfold py_index at 1.
  destruct (start <? 0) eqn:E1; [apply Z.ltb_lt in E1; lia|].
  rewrite E1.
  destruct (Z.of_nat (length l) <=? start) eqn:E2;
    [apply Z.leb_le in E2; lia|].
  cbn [orb].
  destruct (nth_error l (Z.to_nat start)) as [x|] eqn:E3.
  2:{ apply nth_error_None in E3. lia. }
  cbn [bind]. rewrite <- seq_shift, map_map.
  rewrite (map_ext _ (fun k => start + 1 + Z.of_nat k)) by (intros; lia).
  rewrite IH by lia. cbn [bind].
  rewrite (skipn_cons _ _ _ E3). cbn [firstn].
  replace (Z.to_nat (start + 1)) with (S (Z.to_nat start)) by lia.
  reflexivity.
Qed.

Lemma slice_length {A} (l : list A) (start stop : Z) :
  0 <= start -> start <= stop -> stop <= Z.of_nat (length l) ->
  length (slice l start stop) = Z.to_nat (stop - start).
Proof.
  intros. unfold slice. rewrite length_firstn, length_skipn. lia.
Qed.

Section Buckets.
Variable embedding : list float.
Variable ratio : float.
Hypothesis Hlen : Z.of_nat (length embedding) < max_len.
Hypothesis Hratio : below false 64 ratio.

(** What one pass of the loop leaves at the index [i], where [old]
    was before. *)
Let item (i : nat) (old : float) : float :=
  match to_int (mul (of_Z (Z.of_nat i)) ratio),
        to_int (mul (of_Z (Z.of_nat i + 1)) ratio) with
  | Ok start, Ok stop =>
      let stop' := Z.min stop (Z.of_nat (length embedding)) in
      if start <? stop' then mean (slice embedding start stop') else old
  | _, _ => old
  end.

Lemma cuts (i : nat) :
  (i < target_dimension)%nat ->
  exists start stop,
    to_int (mul (of_Z (Z.of_nat i)) ratio) = Ok start /\
    to_int (mul (of_Z (Z.of_nat i + 1)) ratio) = Ok stop /\
    0 <= start /\ 0 <= stop /\
    float_of_int (Z.of_nat i) = Ok (of_Z (Z.of_nat i)) /\
    float_of_int (Z.of_nat i + 1) = Ok (of_Z (Z.of_nat i + 1)).
Proof.
  intros Hi. unfold target_dimension in Hi.
  destruct (scaled_index (Z.of_nat i) ratio ltac:(lia) Hratio)
    as (fi & start & Hfi & Hs & Hs0).
  destruct (scaled_index (Z.of_nat i + 1) ratio ltac:(lia) Hratio)
    as (fi1 & stop & Hfi1 & Ht & Ht0).
  pose proof (float_of_int_value _ _ Hfi) as E. subst fi.
  pose proof (float_of_int_value _ _ Hfi1) as E. subst fi1.
  exists start, stop. auto 7.
Qed.

Lemma bucket_item (res : list float) (i : nat) :
  (i < length res)%nat -> (i < target_dimension)%nat ->
  exists res', bucket embedding ratio res i = Ok res' /\
    length res' = length res /\
    forall j, nth j res' zero
              = if (j =? i)%nat then item i (nth i res zero)
                else nth j res zero.
Proof.
  intros Hi Hi'.
  destruct (cuts i Hi') as (start & stop & Hs & Ht & Hs0 & Ht0 & Hfi & Hfi1).
  unfold bucket, item. rewrite Hfi. cbn [bind]. rewrite Hs. cbn [bind].
  rewrite Hfi1. cbn [bind]. rewrite Ht. cbn [bind].
  set (len := Z.of_nat (length embedding)) in *.
  replace (if stop >? len then len else stop) with (Z.min stop len).
  2:{ destruct (stop >? len) eqn:E.
      - apply Z.gtb_lt in E. lia.
      - rewrite Z.gtb_ltb in E. apply Z.ltb_ge in E. lia. }
  set (stop' := Z.min stop len).
  assert (Hstop : stop' <= len) by (unfold stop'; lia).
  destruct (start <? stop') eqn:Elt.
  2:{ exists res. repeat split; auto. intros j.
      destruct (j =? i)%nat eqn:E; auto. apply Nat.eqb_eq in E. subst j.
      reflexivity. }
  apply Z.ltb_lt in Elt.
  unfold range.
  rewrite (indexed_slice embedding (Z.to_nat (stop' - start)) start)
    by (fold len; lia).
  cbn [bind]. fold (slice embedding start stop').
  destruct (of_Z_positive (stop' - start) 63) as (m & e & Hn);
    try (unfold prec, emax; lia).
  { unfold max_len in Hlen. lia. }
  unfold float_of_int. rewrite Hn. cbn [bind].
  unfold truediv. cbn [eqb SFeqb SFcompare zero]. cbn [bind].
  unfold py_setitem. pose proof Hi as Hi2. apply Nat.ltb_lt in Hi2.
  rewrite Hi2.
  eexists. split; [reflexivity|]. split; [apply replace_nth_length|].
  intros j. rewrite nth_replace_nth by exact Hi.
  destruct (j =? i)%nat; auto.
  unfold mean. rewrite slice_length by (fold len; lia).
  rewrite Z2Nat.id by lia. rewrite Hn. reflexivity.
Qed.

Lemma item_twice (i : nat) (old : float) : item i (item i old) = item i old.
Proof.
  unfold item.
  destruct (to_int (mul (of_Z (Z.of_nat i)) ratio)) as [start|]; auto.
  destruct (to_int (mul (of_Z (Z.of_nat i + 1)) ratio)) as [stop|]; auto.
  cbv zeta.
  destruct (start <? Z.min stop (Z.of_nat (length embedding))); auto.
Qed.

Lemma buckets_items : forall (todo : list nat) (res : list float),
  length res = target_dimension ->
  Forall (fun i => (i < target_dimension)%nat) todo ->
  exists res', buckets embedding ratio todo res = Ok res' /\
    length res' = target_dimension /\
    forall j, nth j res' zero
              = if existsb (Nat.eqb j) todo then item j (nth j res zero)
                else nth j res zero.
Proof.
  induction todo as [|i todo IH]; intros res Hres Hall; cbn [buckets existsb].
  - eauto.
  - inversion Hall; subst.
    destruct (bucket_item res i ltac:(lia) ltac:(auto))
      as (res1 & -> & L1 & N1).
    cbn [bind].
    destruct (IH res1 ltac:(lia) ltac:(auto)) as (res' & -> & L' & N').
    exists res'. repeat split; auto. intros j. rewrite N', N1.
    destruct (j =? i)%nat eqn:E.
    + apply Nat.eqb_eq in E. subst j. cbn [orb].
      destruct (existsb (Nat.eqb i) todo); auto using item_twice.
    + cbn [orb]. reflexivity.
Qed.

(** Each item of the averaged vector is the mean of a slice of the
    embedding, or zero where the slice is empty. *)
Lemma buckets_means (avg : list float) :
  buckets embedding ratio (seq 0 target_dimension)
          (repeat zero target_dimension) = Ok avg ->
  length avg = target_dimension /\
  forall i, (i < target_dimension)%nat ->
    exists start stop,
      to_int (mul (of_Z (Z.of_nat i)) ratio) = Ok start /\
      to_int (mul (of_Z (Z.of_nat i + 1)) ratio) = Ok stop /\
      0 <= start /\ 0 <= stop /\
      (start < Z.min stop (Z.of_nat (length embedding)) ->
         length (slice embedding start
                   (Z.min stop (Z.of_nat (length embedding))))
           = Z.to_nat (Z.min stop (Z.of_nat (length embedding)) - start) /\
         nth i avg zero
           = mean (slice embedding start
                     (Z.min stop (Z.of_nat (length embedding))))) /\
      (Z.min stop (Z.of_nat (length embedding)) <= start ->
         nth i avg zero = zero).
Proof.
  intros Ha.
  destruct (buckets_items (seq 0 target_dimension)
              (repeat zero target_dimension) (repeat_length _ _))
    as (res' & Hb & L & N).
  { apply Forall_forall. intros i Hi. apply in_seq in Hi. lia. }
  rewrite Hb in Ha. inversion Ha; subst res'. split; [exact L|].
  intros i Hi.
  destruct (cuts i Hi) as (start & stop & Hs & Ht & Hs0 & Ht0 & _).
  exists start, stop.
  split; [exact Hs|]. split; [exact Ht|]. split; [exact Hs0|].
  split; [exact Ht0|]. split; [intros H; split|intros H].
  - apply slice_length; lia.
  - rewrite N.
    assert (E : existsb (Nat.eqb i) (seq 0 target_dimension) = true).
    { apply existsb_exists. exists i. split; [apply in_seq; lia|].
      apply Nat.eqb_refl. }
    rewrite E. unfold item. rewrite Hs, Ht. cbv zeta.
    apply Z.ltb_lt in H. rewrite H. reflexivity.
  - rewrite N.
    assert (E : existsb (Nat.eqb i) (seq 0 target_dimension) = true).
    { apply existsb_exists. exists i. split; [apply in_seq; lia|].
      apply Nat.eqb_refl. }
    rewrite E. unfold item. rewrite Hs, Ht. cbv zeta.
    apply Z.ltb_ge in H. rewrite H.
    apply nth_repeat.
Qed.
End Buckets.

(** C9.  [resize_embedding] returns a list of 384 elements: the
    embedding itself when it has 384 elements, and otherwise what
    [normalize_vector] makes of the bucket averages.  These are 384
    items; with [ratio] the quotient of the length by 384, the item
    [i] is the mean, the sum over the number of items, of the slice
    of the embedding from [int(i * ratio)] to [int((i + 1) * ratio)],
    capped at the length, and zero when that slice is empty.  The
    length of the embedding is below [2 ^ 63], as every list's is. *)
Theorem resize_embedding_length (embedding : list float) :
  Z.of_nat (length embedding) < max_len ->
  exists r, resize_embedding embedding = Ok r /\
            length r = target_dimension /\
            (length embedding = target_dimension -> r = embedding) /\
            (length embedding <> target_dimension ->
               exists ratio avg,
                 int_truediv (Z.of_nat (length embedding))
                             (Z.of_nat target_dimension) = Ok ratio /\
                 averaged embedding = Ok avg /\
                 normalize_vector avg = Ok r /\
                 length avg = target_dimension /\
                 forall i, (i < target_dimension)%nat ->
                   exists start stop,
                     to_int (mul (of_Z (Z.of_nat i)) ratio) = Ok start /\
                     to_int (mul (of_Z (Z.of_nat i + 1)) ratio) = Ok stop /\
                     0 <= start /\ 0 <= stop /\
                     (start < Z.min stop (Z.of_nat (length embedding)) ->
                        length (slice embedding start
                                  (Z.min stop (Z.of_nat (length embedding))))
                          = Z.to_nat (Z.min stop (Z.of_nat (length embedding))
                                      - start) /\
                        nth i avg zero
                          = mean (slice embedding start
                                    (Z.min stop
                                       (Z.of_nat (length embedding))))) /\
                     (Z.min stop (Z.of_nat (length embedding)) <= start ->
                        nth i avg zero = zero)).
Proof.
  intros Hlen. unfold resize_embedding.
  destruct (length embedding =? target_dimension)%nat eqn:E.
  - apply Nat.eqb_eq in E. exists embedding. repeat split; auto.
    intros H. contradiction.
  - apply Nat.eqb_neq in E.
    destruct (averaged_total embedding Hlen) as (avg & Ha & La).
    rewrite Ha. cbn [bind].
    destruct (normalize_vector_length avg) as (r & Hr & Lr).
    exists r. split; [exact Hr|]. split; [lia|].
    split; [intros H; contradiction|]. intros _.
    unfold averaged in Ha.
    destruct (int_truediv_below (Z.of_nat (length embedding)) ltac:(lia))
      as (ratio & Hq & Hb).
    rewrite Hq in Ha. cbn [bind] in Ha.
    exists ratio, avg. split; [exact Hq|].
    split; [reflexivity|]. split; [exact Hr|].
    apply (buckets_means embedding ratio Hlen Hb avg Ha).
Qed.

Lemma resize_embedding_length_witness :
  exists r avg,
    resize_embedding Samples.embedding_768 = Ok r /\
    length r = target_dimension /\
    averaged Samples.embedding_768 = Ok avg /\
    normalize_vector avg = Ok r /\
    nth 5 avg zero = mean [Samples.three; Samples.four].
Proof.
  destruct (resize_embedding_length Samples.embedding_768
              ltac:(vm_compute; reflexivity))
    as (r & Hr & Lr & _ & H).
  destruct (H ltac:(vm_compute; discriminate))
    as (ratio & avg & Hq & Ha & Hn & _ & Hi).
  exists r, avg. repeat split; auto.
  destruct (Hi 5%nat ltac:(vm_compute; lia))
    as (start & stop & Hs & Ht & _ & _ & Hm & _).
  vm_compute in Hq. injection Hq as <-.
  vm_compute in Hs. injection Hs as <-.
  vm_compute in Ht. injection Ht as <-.
  apply (proj2 (Hm ltac:(vm_compute; reflexivity))).
Defined.

End EmbeddingFacts.

(* ================================================================= *)
(** ** More facts on strings *)

Module TextFacts.
Import Str StrFacts Re.
Local Open Scope string_scope.

Lemma rev_append_spec : forall s acc, rev_append s acc = rev s ++ acc.
Proof.
  unfold rev. induction s as [|c s IH]; intros acc; simpl; auto.
  rewrite IH, (IH (String c "")), append_assoc. reflexivity.
Qed.

Lemma rev_cons c s : rev (String c s) = rev s ++ String c "".
Proof. unfold rev at 1. simpl. apply rev_append_spec. Qed.

Lemma rev_app : forall a b, rev (a ++ b) = rev b ++ rev a.
Proof.
  induction a as [|c a IH]; intros b; simpl.
  - rewrite append_empty_r. reflexivity.
  - rewrite !rev_cons, IH, append_assoc. reflexivity.
Qed.

Lemma rev_involutive : forall s, rev (rev s) = s.
Proof.
  induction s as [|c s IH]; auto.
  rewrite rev_cons, rev_app, IH. reflexivity.
Qed.

Lemma all_app p : forall a b, all p (a ++ b) = all p a && all p b.
Proof.
  induction a as [|c a IH]; intros b; simpl; auto.
  rewrite IH, andb_assoc. reflexivity.
Qed.

Lemma all_rev p : forall s, all p (rev s) = all p s.
Proof.
  induction s as [|c s IH]; auto.
  rewrite rev_cons, all_app, IH. simpl.
  rewrite andb_true_r, andb_comm. reflexivity.
Qed.

Lemma lstrip_blank : forall s, all isspace s = true -> lstrip s = "".
Proof.
  induction s as [|c s IH]; simpl; auto.
  intros H. apply andb_true_iff in H. destruct H as [Hc Hs].
  rewrite Hc. auto.
Qed.

Lemma rstrip_blank s : all isspace s = true -> rstrip s = "".
Proof.
  intros H. unfold rstrip. rewrite lstrip_blank; auto.
  rewrite all_rev. auto.
Qed.

Lemma strip_blank s : all isspace s = true -> strip s = "".
Proof. intros H. unfold strip. rewrite lstrip_blank by auto. reflexivity. Qed.

Lemma lstrip_app_nonspace c v : isspace c = false ->
  forall u, lstrip (u ++ String c v) = lstrip u ++ String c v.
Proof.
  intros Hc. induction u as [|d u IH]; simpl.
  - rewrite Hc. reflexivity.
  - destruct (isspace d); auto.
Qed.

Lemma rstrip_app_nonspace c u v : isspace c = false ->
  rstrip (u ++ String c v) = u ++ String c (rstrip v).
Proof.
  intros Hc. unfold rstrip.
  rewrite rev_app, rev_cons, append_assoc. simpl.
  rewrite lstrip_app_nonspace by auto.
  rewrite rev_app, rev_cons, rev_involutive, append_assoc. reflexivity.
Qed.

(** A text is blank, or has a first character that is not a space. *)
Lemma blank_or_split : forall s,
  all isspace s = true \/
  exists a c v, s = a ++ String c v /\ all isspace a = true /\
                isspace c = false.
Proof.
  induction s as [|d s IH]; simpl; auto.
  destruct (isspace d) eqn:Ed.
  - destruct IH as [H|(a & c & v & Hs & Ha & Hc)]; auto.
    right. exists (String d a), c, v. simpl. rewrite Ed, Ha, Hs. auto.
  - right. exists "", d, s. auto.
Qed.

Lemma lstrip_idem : forall s, lstrip (lstrip s) = lstrip s.
Proof.
  induction s as [|c s IH]; simpl; auto.
  destruct (isspace c) eqn:E; auto. simpl. rewrite E. reflexivity.
Qed.

Lemma rstrip_idem s : rstrip (rstrip s) = rstrip s.
Proof. unfold rstrip. rewrite rev_involutive, lstrip_idem. reflexivity. Qed.

Lemma lstrip_rstrip s : lstrip (rstrip s) = rstrip (lstrip s).
Proof.
  destruct (blank_or_split s) as [H|(a & c & v & Hs & Ha & Hc)].
  - rewrite (rstrip_blank s), (lstrip_blank s) by auto. reflexivity.
  - subst s. rewrite rstrip_app_nonspace by auto.
    rewrite !lstrip_app_nonspace by auto.
    rewrite lstrip_blank by auto. simpl.
    change (String c v) with ("" ++ String c v).
    rewrite rstrip_app_nonspace by auto. reflexivity.
Qed.

Lemma strip_rstrip s : strip (rstrip s) = strip s.
Proof. unfold strip. rewrite lstrip_rstrip, rstrip_idem. reflexivity. Qed.

Lemma strip_idem s : strip (strip s) = strip s.
Proof.
  unfold strip. rewrite lstrip_rstrip, lstrip_idem, rstrip_idem. reflexivity.
Qed.

Lemma lstrip_split : forall s,
  exists a, s = a ++ lstrip s /\ all isspace a = true.
Proof.
  induction s as [|c s IH]; simpl.
  - exists "". auto.
  - destruct (isspace c) eqn:E.
    + destruct IH as (a & Hs & Ha). exists (String c a). simpl.
      rewrite E, Ha, <- Hs. auto.
    + exists "". auto.
Qed.

Lemma rstrip_split s :
  exists b, s = rstrip s ++ b /\ all isspace b = true.
Proof.
  unfold rstrip. destruct (lstrip_split (rev s)) as (a & Hs & Ha).
  exists (rev a). rewrite all_rev. split; auto.
  rewrite <- rev_app, <- Hs, rev_involutive. reflexivity.
Qed.

(** What [strip] returns lies inside the text, between blanks. *)
Lemma strip_split s :
  exists a b, s = a ++ strip s ++ b /\
              all isspace a = true /\ all isspace b = true.
Proof.
  unfold strip. destruct (lstrip_split s) as (a & Hs & Ha).
  destruct (rstrip_split (lstrip s)) as (b & Hb & Hb').
  exists a, b. rewrite <- Hb. auto.
Qed.

Lemma drop_prefix_spec : forall p s r,
  drop_prefix p s = Some r <-> s = p ++ r.
Proof.
  induction p as [|a p IH]; intros s r; simpl.
  - split; [intros H; inversion H; auto | intros; subst; auto].
  - destruct s as [|b s]; [split; discriminate|].
    destruct (Ascii.eqb a b) eqn:E.
    + apply Ascii.eqb_eq in E. subst b. rewrite IH.
      split; [intros; subst; auto | intros H; inversion H; auto].
    + apply Ascii.eqb_neq in E. split; [discriminate|].
      intros H. inversion H. congruence.
Qed.

Lemma contains_spec sub : forall s,
  contains sub s = true <-> exists a b, s = a ++ sub ++ b.
Proof.
  induction s as [|c s IH].
  - simpl. destruct (drop_prefix sub "") as [r|] eqn:E.
    + apply drop_prefix_spec in E. split; auto.
      intros _. exists "", r. auto.
    + split; [discriminate|].
      intros (a & b & H). destruct a; simpl in H; [|discriminate].
      apply drop_prefix_spec in H. congruence.
  - simpl. destruct (drop_prefix sub (String c s)) as [r|] eqn:E.
    + apply drop_prefix_spec in E. split; auto.
      intros _. exists "", r. auto.
    + rewrite IH. split.
      * intros (a & b & H). exists (String c a), b. simpl. congruence.
      * intros (a & b & H). destruct a as [|d a]; simpl in H.
        -- apply drop_prefix_spec in H. congruence.
        -- inversion H. eauto.
Qed.

Lemma contains_inside sub a w b :
  contains sub w = true -> contains sub (a ++ w ++ b) = true.
Proof.
  rewrite !contains_spec. intros (x & y & H). subst w.
  exists (a ++ x), (y ++ b). rewrite !append_assoc. reflexivity.
Qed.

Lemma contains_app_l sub a b :
  contains sub a = true -> contains sub (a ++ b) = true.
Proof. intros H. apply (contains_inside sub "" a b H). Qed.

Lemma contains_app_r sub a b :
  contains sub b = true -> contains sub (a ++ b) = true.
Proof.
  intros H. generalize (contains_inside sub a b "" H).
  rewrite append_empty_r. auto.
Qed.

Lemma contains_trans a b c :
  contains a b = true -> contains b c = true -> contains a c = true.
Proof.
  intros H1 H2. apply contains_spec in H2. destruct H2 as (x & y & H).
  subst c. apply contains_inside. auto.
Qed.

Lemma contains_refl s : contains s s = true.
Proof. apply contains_spec. exists "", "". rewrite append_empty_r. auto. Qed.

Lemma contains_strip s : contains (strip s) s = true.
Proof.
  destruct (strip_split s) as (a & b & H & _).
  apply contains_spec. eauto.
Qed.

End TextFacts.

(* ================================================================= *)
(** ** More facts on the router *)

Module RoutingFacts.
Import Str StrFacts TextFacts Re Router.
Local Open Scope string_scope.

Ltac split_chars n w Hw H :=
  lazymatch n with
  | O => simpl in Hw; lia
  | S ?k =>
      destruct w as [|? w];
      [ first [ solve [simpl in Hw; lia] | simpl in H; discriminate ]
      | split_chars k w Hw H ]
  end.

(** No occurrence of the closing tag overlaps another one. *)
Lemma closing_unbordered w v r :
  (0 < String.length w < 8)%nat ->
  drop_prefix "</think>" (w ++ "</think>" ++ v) = Some r -> False.
Proof.
  intros Hw H. apply drop_prefix_spec in H.
  split_chars 8%nat w Hw H.
Qed.

Lemma split_scan_none sep : forall v cur,
  contains sep v = false -> split_scan sep v 0 cur = [rev cur ++ v].
Proof.
  induction v as [|c v IH]; intros cur H; simpl.
  - rewrite append_empty_r. reflexivity.
  - simpl in H. destruct (drop_prefix sep (String c v)); [discriminate|].
    rewrite IH by auto. rewrite rev_cons, append_assoc. reflexivity.
Qed.

Lemma split_scan_skip sep v cur : forall t,
  split_scan sep (t ++ v) (String.length t) cur = split_scan sep v 0 cur.
Proof. induction t as [|c t IH]; simpl; auto. Qed.

Lemma split_scan_last v :
  contains "</think>" v = false ->
  forall w n cur, (n <= String.length w)%nat ->
  exists pieces,
    split_scan "</think>" (w ++ "</think>" ++ v) n cur = (pieces ++ [v])%list /\
    pieces <> [].
Proof.
  intros Hv. induction w as [|c w IH]; intros n cur Hn.
  - simpl in Hn. assert (n = 0)%nat by lia. subst n.
    exists [rev cur]. split; [|discriminate].
    change ("" ++ "</think>" ++ v) with (String "<" ("/think>" ++ v)).
    cbn [split_scan].
    replace (drop_prefix "</think>" (String "<" ("/think>" ++ v)))
      with (Some v) by (symmetry; apply drop_prefix_spec; reflexivity).
    change (String.length "</think>" - 1)%nat with (String.length "/think>").
    rewrite split_scan_skip, split_scan_none by auto. reflexivity.
  - destruct n as [|n].
    + change ((String c w) ++ "</think>" ++ v)
        with (String c (w ++ "</think>" ++ v)).
      cbn [split_scan].
      destruct (drop_prefix "</think>" (String c (w ++ "</think>" ++ v)))
        as [r|] eqn:E.
      * assert (Hlen : (8 <= String.length (String c w))%nat).
        { destruct (Nat.lt_ge_cases (String.length (String c w)) 8)
            as [Hlt|]; auto.
          exfalso. apply (closing_unbordered (String c w) v r); auto.
          simpl in *. lia. }
        simpl in Hlen.
        destruct (IH (String.length "</think>" - 1)%nat "") as (ps & Hp & _).
        { change (String.length "</think>" - 1)%nat with 7%nat. lia. }
        exists (rev cur :: ps). rewrite Hp. split; [auto|discriminate].
      * apply IH. lia.
    + simpl. apply IH. simpl in Hn. lia.
Qed.

Lemma lt_not_space : isspace "<" = false.
Proof. reflexivity. Qed.

Lemma gt_not_space : isspace ">" = false.
Proof. reflexivity. Qed.

(** The text after the last closing tag is all that [clean] keeps of
    an answer with a think block. *)
Lemma clean_after_tag a b :
  contains "<think>" a = true -> contains "</think>" b = false ->
  clean (Text (a ++ "</think>" ++ b)) = clean (Text b).
Proof.
  intros Ha Hb.
  assert (Hsb : contains "</think>" (strip b) = false).
  { destruct (contains "</think>" (strip b)) eqn:E; auto.
    rewrite <- Hb. symmetry.
    apply (contains_trans _ _ _ E (contains_strip b)). }
  assert (Hrb : contains "</think>" (rstrip b) = false).
  { destruct (contains "</think>" (rstrip b)) eqn:E; auto.
    rewrite <- Hb. symmetry.
    destruct (rstrip_split b) as (x & Hx & _). rewrite Hx at 1.
    apply contains_app_l. auto. }
  apply contains_spec in Ha. destruct Ha as (a1 & a2 & Ha). subst a.
  set (a' := lstrip a1 ++ "<think>" ++ a2).
  assert (Hstrip : strip ((a1 ++ "<think>" ++ a2) ++ "</think>" ++ b)
                   = a' ++ "</think>" ++ rstrip b).
  { unfold strip.
    replace ((a1 ++ "<think>" ++ a2) ++ "</think>" ++ b)
      with (a1 ++ String "<" ("think>" ++ a2 ++ "</think>" ++ b))
      by (rewrite !append_assoc; reflexivity).
    rewrite lstrip_app_nonspace by apply lt_not_space.
    replace (lstrip a1 ++ String "<" ("think>" ++ a2 ++ "</think>" ++ b))
      with ((a' ++ "</think") ++ String ">" b)
      by (unfold a'; rewrite !append_assoc; reflexivity).
    rewrite rstrip_app_nonspace by apply gt_not_space.
    rewrite !append_assoc. reflexivity. }
  unfold clean, content_strip, bind. rewrite Hstrip, Hsb.
  assert (H1 : contains "<think>" (a' ++ "</think>" ++ rstrip b) = true).
  { apply contains_app_l. unfold a'. apply contains_app_r.
    apply contains_app_l. apply contains_refl. }
  assert (H2 : contains "</think>" (a' ++ "</think>" ++ rstrip b) = true).
  { apply contains_app_r. apply contains_app_l. apply contains_refl. }
  rewrite H1, H2, andb_false_r. cbn [andb].
  destruct (split_scan_last (rstrip b) Hrb a' 0 "") as (ps & Hp & Hne);
    [lia|].
  unfold split. rewrite Hp.
  rewrite last_last.
  replace (1 <? length (ps ++ [rstrip b])%list)%nat with true.
  - rewrite strip_rstrip. reflexivity.
  - symmetry. apply Nat.ltb_lt. rewrite length_app. simpl.
    destruct ps; [congruence|simpl; lia].
Qed.

Lemma last_item_snoc {A} (l : list A) (x : A) : last_item (l ++ [x])%list = Ok x.
Proof. unfold last_item. rewrite rev_app_distr. reflexivity. Qed.

(** X1. Whatever precedes the last closing think tag of the
    reflection answer has no influence on the route: an answer with a
    think block is routed as the text after that tag alone would be. *)
Theorem reasoning_is_ignored (before before' : list message)
  (t t' : msg_type) (a b : string) :
  contains "<think>" a = true ->
  contains "</think>" b = false ->
  route_after_reflection
    (mkState (before ++ [Message t (Text (a ++ "</think>" ++ b))])%list)
  = route_after_reflection (mkState (before' ++ [Message t' (Text b)])%list).
Proof.
  intros Ha Hb.
  rewrite (RouterFacts.route_of_body
             (mkState (before ++ [Message t (Text (a ++ "</think>" ++ b))])%list)
             _ (last_item_snoc before _)).
  rewrite (RouterFacts.route_of_body
             (mkState (before' ++ [Message t' (Text b)])%list)
             _ (last_item_snoc before' _)).
  unfold route_body. cbn [content].
  rewrite clean_after_tag by auto. reflexivity.
Qed.

Lemma reasoning_is_ignored_witness :
  route_after_reflection
    (mkState [HumanMessage (Cases.thinking ++ "</think>" ++ Cases.after_thinking)])
  = route_after_reflection (mkState [HumanMessage Cases.after_thinking]).
Proof.
  apply (reasoning_is_ignored [] [] human human
           Cases.thinking Cases.after_thinking); reflexivity.
Defined.



End RoutingFacts.

(* ================================================================= *)
(** ** More facts on the reflection node *)

Module LoopFacts.
Import Reflection Nodes.

Section Node.
Variable ainvoke : nat -> list message -> result pyobj.

(** The two ways one pass of the loop can go: the model answers with
    text, which is returned when valid and kept for a retry when not;
    or the [try] block raises, which ends the loop with the fallback on
    the last attempt only. *)
Lemma attempt_once_cases attempt v :
  (exists s, ainvoke (calls v) (translated v) = Ok (Text s) /\
     attempt_once ainvoke attempt v =
       if valid_answer (Str.strip s)
       then (Vars (translated v) (Some (Str.strip s)) (S (calls v)),
             Return (mkState [HumanMessage (Str.strip s)]))
       else (Vars (if (attempt <? max_attempts - 1)%nat
                   then translated v ++ [HumanMessage explicit_instruction]
                   else translated v)
               (Some (Str.strip s)) (S (calls v)), Next)) \/
  ((forall s, ainvoke (calls v) (translated v) <> Ok (Text s)) /\
   attempt_once ainvoke attempt v =
     (Vars (translated v) (response_content v) (S (calls v)),
      if (attempt =? max_attempts - 1)%nat
      then Return (mkState [HumanMessage fallback_response])
      else Next)).
Proof.
  unfold attempt_once, try_block.
  destruct (ainvoke (calls v) (translated v)) as [[s|]|e] eqn:E.
  - left. exists s. split; auto. cbn [content_strip].
    unfold valid_answer.
    destruct (Str.contains _ (Str.strip s) && Str.contains _ (Str.strip s));
      cbn [andb].
    2:{ destruct (attempt <? max_attempts - 1)%nat; reflexivity. }
    destruct (Re.search false Router.json_pattern (Str.strip s)) as [m|].
    2:{ destruct (attempt <? max_attempts - 1)%nat; reflexivity. }
    destruct (Json.loads (Re.m_group0 m)) as [x|e] eqn:L; auto.
    apply RouterFacts.loads_error in L. subst e.
    destruct (attempt <? max_attempts - 1)%nat; reflexivity.
  - right. split; [discriminate|]. cbn [content_strip].
    destruct (attempt =? max_attempts - 1)%nat; reflexivity.
  - right. split; [discriminate|].
    destruct (attempt =? max_attempts - 1)%nat; reflexivity.
Qed.

Lemma attempts_app : forall l1 l2 v,
  attempts ainvoke (l1 ++ l2) v =
    match attempts ainvoke l1 v with
    | (v', Some s) => (v', Some s)
    | (v', None) => attempts ainvoke l2 v'
    end.
Proof.
  induction l1 as [|a l1 IH]; intros l2 v; simpl; auto.
  destruct (attempt_once ainvoke a v) as [v' [s|]]; auto.
Qed.

Lemma attempts_calls : forall l v v',
  attempts ainvoke l v = (v', None) -> calls v' = calls v + length l.
Proof.
  induction l as [|a l IH]; intros v v' H; simpl in H.
  - inversion H; subst. simpl. lia.
  - destruct (attempt_once ainvoke a v) as [w [s|]] eqn:E; [discriminate|].
    apply ReflectionFacts.attempt_once_spec in E. destruct E as (Hc & _).
    apply IH in H. simpl. lia.
Qed.

(** X4. The node returns the first valid answer, stripped, and stops
    there: when the first [k] attempts have not returned and the model
    then answers text that holds a valid object, the node returns that
    text after [k + 1] invocations. *)
Theorem first_valid_answer (state : State) (tr : list message) (k : nat)
  (v : vars) (s : string) :
  translate state = Ok tr ->
  k < max_attempts ->
  attempts ainvoke (seq 0 k) (Vars tr None 0) = (v, None) ->
  ainvoke (calls v) (translated v) = Ok (Text s) ->
  valid_answer (Str.strip s) = true ->
  reflection_run ainvoke state
    = (S k, Ok (mkState [HumanMessage (Str.strip s)])).
Proof.
  intros Ht Hk Ha Hs Hv. unfold reflection_run. rewrite Ht.
  replace max_attempts with (k + S (max_attempts - S k)) by lia.
  rewrite seq_app, attempts_app, Ha. cbn [seq attempts plus].
  pose proof (attempts_calls _ _ _ Ha) as Hc. rewrite length_seq in Hc.
  simpl in Hc.
  destruct (attempt_once_cases k v) as [(s' & Hs' & E)|(Hn & _)].
  - rewrite Hs in Hs'. inversion Hs'; subst s'.
    rewrite Hv in E. rewrite E. cbn [calls]. rewrite Hc. reflexivity.
  - exfalso. apply (Hn s). auto.
Qed.

(** X5. When the model answers three times with text that holds no
    valid object, the node returns the third answer, stripped; the
    second and third prompts are the first one followed by one and by
    two copies of the explicit instruction. *)
Theorem last_answer_returned (state : State) (tr : list message)
  (s0 s1 s2 : string) :
  translate state = Ok tr ->
  ainvoke 0 tr = Ok (Text s0) ->
  valid_answer (Str.strip s0) = false ->
  ainvoke 1 (tr ++ [HumanMessage explicit_instruction]) = Ok (Text s1) ->
  valid_answer (Str.strip s1) = false ->
  ainvoke 2 (tr ++ [HumanMessage explicit_instruction;
                    HumanMessage explicit_instruction]) = Ok (Text s2) ->
  valid_answer (Str.strip s2) = false ->
  reflection_run ainvoke state
    = (3, Ok (mkState [HumanMessage (Str.strip s2)])).
Proof.
  intros Ht H0 V0 H1 V1 H2 V2. unfold reflection_run. rewrite Ht.
  cbn [max_attempts seq attempts].
  destruct (attempt_once_cases 0 (Vars tr None 0)) as [(s & Hs & E)|(Hn & _)].
  2:{ exfalso. apply (Hn s0). auto. }
  cbn [calls translated] in Hs. rewrite H0 in Hs. inversion Hs; subst s.
  rewrite V0 in E. rewrite E. clear E Hs. cbn [Nat.ltb Nat.leb max_attempts Nat.sub calls translated].
  match goal with
  | |- context [attempt_once ainvoke 1 ?w] =>
      destruct (attempt_once_cases 1 w) as [(s & Hs & E)|(Hn & _)]
  end.
  2:{ exfalso. apply (Hn s1). auto. }
  cbn [calls translated] in Hs. rewrite H1 in Hs. inversion Hs; subst s.
  rewrite V1 in E. rewrite E. clear E Hs. cbn [Nat.ltb Nat.leb max_attempts Nat.sub calls translated].
  match goal with
  | |- context [attempt_once ainvoke 2 ?w] =>
      destruct (attempt_once_cases 2 w) as [(s & Hs & E)|(Hn & _)]
  end.
  2:{ exfalso. apply (Hn s2). cbn [calls translated].
      rewrite <- app_assoc. auto. }
  cbn [calls translated] in Hs. rewrite <- app_assoc in Hs.
  cbn [app] in Hs. rewrite H2 in Hs. inversion Hs; subst s.
  rewrite V2 in E. rewrite E. reflexivity.
Qed.

(** Every answer kept in [response_content] is the stripped text of
    an answer that the model gave at an earlier invocation. *)
Let traced (v : vars) : Prop :=
  forall rc, response_content v = Some rc ->
    exists n prompt s, n < calls v /\ ainvoke n prompt = Ok (Text s) /\
                       rc = Str.strip s.

Let sourced (bound : nat) (out : State) : Prop :=
  out = mkState [HumanMessage fallback_response] \/
  exists n prompt s, n < bound /\ ainvoke n prompt = Ok (Text s) /\
                     out = mkState [HumanMessage (Str.strip s)].

Lemma attempt_once_traced attempt v v' o :
  attempt_once ainvoke attempt v = (v', o) -> traced v ->
  calls v' = S (calls v) /\ traced v' /\
  (forall out, o = Return out -> sourced (calls v') out).
Proof.
  intros E T.
  destruct (attempt_once_cases attempt v) as [(s & Hs & E')|(_ & E')];
    rewrite E' in E; clear E'.
  - assert (Hn : exists n prompt s0, n < S (calls v) /\
              ainvoke n prompt = Ok (Text s0) /\ Str.strip s = Str.strip s0).
    { exists (calls v), (translated v), s. auto. }
    destruct (valid_answer (Str.strip s)); inversion E; subst; cbn [calls].
    + split; auto. split.
      * intros rc Hrc. cbn [response_content calls] in *.
        inversion Hrc; subst. exact Hn.
      * intros out Ho. inversion Ho; subst. right.
        destruct Hn as (n & p & s0 & Hlt & Ha & Hs0). rewrite Hs0.
        exists n, p, s0. auto.
    + split; auto. split.
      * intros rc Hrc. cbn [response_content calls] in *.
        inversion Hrc; subst. exact Hn.
      * intros out Ho. discriminate.
  - inversion E; subst; cbn [calls]. split; auto. split.
    + intros rc Hrc. cbn [response_content] in Hrc.
      destruct (T rc Hrc) as (n & p & s & ? & ? & ?).
      exists n, p, s. cbn [calls]. auto.
    + intros out Ho.
      destruct (attempt =? _)%nat; [|discriminate].
      inversion Ho; subst. left. reflexivity.
Qed.

Lemma attempts_traced : forall l v v' r,
  attempts ainvoke l v = (v', r) -> traced v ->
  calls v' <= calls v + length l /\ traced v' /\
  (forall out, r = Some out -> sourced (calls v') out).
Proof.
  induction l as [|a l IH]; intros v v' r H T; simpl in H.
  - inversion H; subst. simpl. repeat split; auto; [lia|discriminate].
  - destruct (attempt_once ainvoke a v) as [w o] eqn:E.
    destruct (attempt_once_traced _ _ _ _ E T) as (Hc & Tw & Hr).
    destruct o as [s|].
    + inversion H; subst. simpl. repeat split; auto; [lia|].
      intros out Ho. inversion Ho; subst. auto.
    + destruct (IH _ _ _ H Tw) as (Hc' & Tv & Hr').
      simpl. repeat split; auto. lia.
Qed.

(** X6. The node never invents an answer: what it returns is either
    the fixed fallback or the stripped text of an answer that the
    model gave at one of its at most three invocations. *)
Theorem answer_provenance (state out : State) :
  reflection_node ainvoke state = Ok out ->
  out = mkState [HumanMessage fallback_response] \/
  exists n prompt s, n < max_attempts /\
    ainvoke n prompt = Ok (Text s) /\
    out = mkState [HumanMessage (Str.strip s)].
Proof.
  unfold reflection_node, reflection_run.
  destruct (translate state) as [tr|e]; [|discriminate].
  destruct (attempts ainvoke (seq 0 max_attempts) (Vars tr None 0))
    as [v r] eqn:E.
  assert (T0 : traced (Vars tr None 0)) by (intros rc Hrc; discriminate).
  destruct (attempts_traced _ _ _ _ E T0) as (Hc & Tv & Hr).
  rewrite length_seq in Hc. cbn [calls] in Hc. cbn [snd].
  assert (Hs : forall o, sourced (calls v) o ->
    o = mkState [HumanMessage fallback_response] \/
    exists n prompt s, n < max_attempts /\
      ainvoke n prompt = Ok (Text s) /\
      o = mkState [HumanMessage (Str.strip s)]).
  { intros o [Ho|(n & p & s & Hn & Ha & Ho)]; auto.
    right. exists n, p, s. repeat split; auto. lia. }
  destruct r as [s|].
  - intros H. inversion H; subst. apply Hs. auto.
  - destruct (response_content v) as [rc|] eqn:Erc; [|discriminate].
    intros H. inversion H; subst. apply Hs. right.
    destruct (Tv rc Erc) as (n & p & s & ? & ? & ?). subst rc.
    exists n, p, s. auto.
Qed.

(** What the node returns is one human message. *)
Lemma node_message (state out : State) :
  reflection_node ainvoke state = Ok out ->
  exists resp, out = mkState [HumanMessage resp].
Proof.
  unfold reflection_node, reflection_run.
  destruct (translate state) as [tr|e]; [|discriminate].
  destruct (attempts ainvoke (seq 0 max_attempts) (Vars tr None 0))
    as [v r] eqn:E.
  assert (T0 : traced (Vars tr None 0)) by (intros rc Hrc; discriminate).
  destruct (attempts_traced _ _ _ _ E T0) as (_ & _ & Hr). cbn [snd].
  destruct r as [s|].
  - intros H. inversion H; subst.
    destruct (Hr out eq_refl) as [Ho|(n & p & s & _ & _ & Ho)]; eauto.
  - destruct (response_content v) as [rc|]; [|discriminate].
    intros H. inversion H; subst. eauto.
Qed.

End Node.

Lemma first_valid_answer_witness :
  reflection_run Models.steady_model Samples.state_before_reflection
    = (1, Ok (mkState [HumanMessage Samples.answer_high])).
Proof.
  apply (first_valid_answer Models.steady_model
           Samples.state_before_reflection Models.translated_before 0
           (Vars Models.translated_before None 0)
           (" " ++ Samples.answer_high ++ " ")%string);
    try (vm_compute; reflexivity).
  unfold max_attempts. lia.
Defined.

Lemma last_answer_returned_witness :
  reflection_run Models.vague_model Samples.state_before_reflection
    = (3, Ok (mkState [HumanMessage "roughly 0.7"])).
Proof.
  apply (last_answer_returned Models.vague_model
           Samples.state_before_reflection Models.translated_before
           "maybe 0.9" "about 0.8 " " roughly 0.7");
    vm_compute; reflexivity.
Defined.

Lemma answer_provenance_witness :
  mkState [HumanMessage fallback_response]
    = mkState [HumanMessage fallback_response] \/
  exists n prompt s, n < max_attempts /\
    Samples.failing_model n prompt = Ok (Text s) /\
    mkState [HumanMessage fallback_response]
      = mkState [HumanMessage (Str.strip s)].
Proof.
  apply (answer_provenance Samples.failing_model
           Samples.state_before_reflection
           (mkState [HumanMessage fallback_response])).
  vm_compute. reflexivity.
Defined.

Lemma attempts_agree (ainvoke ainvoke' : nat -> list message -> result pyobj)
  (tr : list message) :
  (forall n j, j <= n -> n < max_attempts ->
     ainvoke n (tr ++ repeat (HumanMessage explicit_instruction) j)
     = ainvoke' n (tr ++ repeat (HumanMessage explicit_instruction) j)) ->
  forall len a j rc, j <= a -> a + len <= max_attempts ->
    attempts ainvoke (seq a len)
      (Vars (tr ++ repeat (HumanMessage explicit_instruction) j) rc a)
    = attempts ainvoke' (seq a len)
        (Vars (tr ++ repeat (HumanMessage explicit_instruction) j) rc a).
Proof.
  intros Hag. induction len as [|len IH]; intros a j rc Hj Ha; auto.
  cbn [seq attempts].
  assert (E : attempt_once ainvoke a
                (Vars (tr ++ repeat (HumanMessage explicit_instruction) j) rc a)
              = attempt_once ainvoke' a
                (Vars (tr ++ repeat (HumanMessage explicit_instruction) j) rc a)).
  { unfold attempt_once, try_block. cbn [calls translated].
    rewrite Hag by lia. reflexivity. }
  rewrite <- E.
  destruct (attempt_once_cases ainvoke a
              (Vars (tr ++ repeat (HumanMessage explicit_instruction) j) rc a))
    as [(s & _ & E')|(_ & E')]; rewrite E'; clear E'; cbn [calls translated
      response_content].
  - destruct (valid_answer (Str.strip s)); auto.
    destruct (a <? max_attempts - 1)%nat.
    + rewrite <- app_assoc.
      replace (repeat (HumanMessage explicit_instruction) j
               ++ [HumanMessage explicit_instruction])
        with (repeat (HumanMessage explicit_instruction) (S j))
        by (cbn [repeat]; apply repeat_cons).
      apply IH; lia.
    + apply IH; lia.
  - destruct (a =? max_attempts - 1)%nat; auto. apply IH; lia.
Qed.

(** X7. The only prompts that the node sends are the translated
    messages followed by copies of the explicit instruction, at most
    as many as there were earlier invocations: two models that agree on
    these prompts make the node behave the same. *)
Theorem prompts_sent (ainvoke ainvoke' : nat -> list message -> result pyobj)
  (state : State) (tr : list message) :
  translate state = Ok tr ->
  (forall n j, j <= n -> n < max_attempts ->
     ainvoke n (tr ++ repeat (HumanMessage explicit_instruction) j)
     = ainvoke' n (tr ++ repeat (HumanMessage explicit_instruction) j)) ->
  reflection_run ainvoke state = reflection_run ainvoke' state.
Proof.
  intros Ht Hag. unfold reflection_run. rewrite Ht.
  pose proof (attempts_agree ainvoke ainvoke' tr Hag max_attempts 0 0 None
                (le_n 0) (le_n _)) as E.
  cbn [repeat] in E. rewrite app_nil_r in E. rewrite E. reflexivity.
Qed.

Lemma prompts_sent_witness :
  reflection_run Samples.failing_model Samples.state_before_reflection
  = reflection_run Models.fragile_model Samples.state_before_reflection.
Proof.
  apply (prompts_sent Samples.failing_model Models.fragile_model
           Samples.state_before_reflection Models.translated_before).
  - reflexivity.
  - intros n j _ Hn. unfold max_attempts in Hn.
    destruct n as [|[|[|n]]]; try reflexivity. lia.
Defined.

(** X8. After the reflection node the pipeline cannot fail at the
    router or at an approval node, and all of them look at the
    reflection answer only: the route is that of the answer alone, it
    is one of the two labels, both approval nodes return the answer,
    and when the last attempt of the reflection raised the route is
    [human_approval]. *)
Theorem reflection_then_router
  (ainvoke : nat -> list message -> result pyobj) (state out : State) :
  reflection_node ainvoke state = Ok out ->
  exists resp, out = mkState [HumanMessage resp] /\
    Router.route_after_reflection (update state out)
      = Router.route_after_reflection out /\
    (Router.route_after_reflection (update state out)
       = Ok Router.automatic_approval \/
     Router.route_after_reflection (update state out)
       = Ok Router.human_approval) /\
    external_automation_node (update state out) = Ok [Text resp] /\
    external_human_node (update state out) = Ok [Text resp] /\
    (final_attempt_raises ainvoke state = true ->
     Router.route_after_reflection (update state out)
       = Ok Router.human_approval).
Proof.
  intros H. destruct (node_message ainvoke state out H) as (resp & Ho).
  exists resp. split; auto. subst out.
  unfold update, add_messages. cbn [messages].
  pose proof (RoutingFacts.last_item_snoc (messages state) (HumanMessage resp)) as Hl.
  assert (Hr : Router.route_after_reflection
                 (mkState (messages state ++ [HumanMessage resp]))
               = Router.route_after_reflection
                   (mkState [HumanMessage resp])).
  { rewrite (RouterFacts.route_of_body
               (mkState (messages state ++ [HumanMessage resp])) _ Hl).
    reflexivity. }
  split; auto. split.
  { rewrite (RouterFacts.route_of_body
               (mkState (messages state ++ [HumanMessage resp])) _ Hl).
    destruct (Router.route_body (content (HumanMessage resp))) as [b|e] eqn:E;
      auto.
    assert (Hb : b = Router.automatic_approval \/ b = Router.human_approval).
    { apply (GraphFacts.route_labels (mkState [HumanMessage resp])).
      rewrite (RouterFacts.route_of_body (mkState [HumanMessage resp])
                 (HumanMessage resp) eq_refl).
      rewrite E. reflexivity. }
    destruct Hb as [-> | ->]; auto. }
  unfold external_automation_node, external_human_node. cbn [messages].
  rewrite Hl. cbn [bind content HumanMessage].
  repeat split; auto.
  intros Hf. rewrite Hr.
  apply ReflectionFacts.fallback_on_final_exception in Hf.
  rewrite Hf in H. unfold HumanMessage in H. injection H as Hresp.
  subst resp. vm_compute. reflexivity.
Qed.

Lemma reflection_then_router_witness :
  exists resp,
    mkState [HumanMessage fallback_response] = mkState [HumanMessage resp] /\
    Router.route_after_reflection
      (update Samples.state_before_reflection
         (mkState [HumanMessage fallback_response]))
      = Ok Router.human_approval.
Proof.
  destruct (reflection_then_router Samples.failing_model
              Samples.state_before_reflection
              (mkState [HumanMessage fallback_response])
              ltac:(vm_compute; reflexivity))
    as (resp & Ho & _ & _ & _ & _ & Hf).
  exists resp. split; [exact Ho|]. apply Hf. vm_compute. reflexivity.
Defined.

Lemma swap_role_twice (msg msg' : message) :
  swap_role msg = Ok msg' ->
  swap_role msg' = Ok msg /\ content msg' = content msg.
Proof.
  destruct msg as [[| | |] c]; unfold swap_role; cbn [type content];
    intros H; inversion H; subst; auto.
Qed.

Lemma map_swap_role : forall l,
  Forall (fun msg => type msg = ai \/ type msg = human) l ->
  exists l', map_result swap_role l = Ok l' /\
             map content l' = map content l /\
             map_result swap_role l' = Ok l.
Proof.
  induction l as [|msg l IH]; intros H.
  - exists []. auto.
  - inversion H as [|? ? Hm Hl]; subst.
    destruct (IH Hl) as (l' & E & Hc & E').
    assert (Hs : exists msg', swap_role msg = Ok msg').
    { unfold swap_role. destruct Hm as [-> | ->]; eauto. }
    destruct Hs as (msg' & Hs).
    destruct (swap_role_twice _ _ Hs) as (Hs' & Hc').
    exists (msg' :: l'). cbn [map_result map]. unfold bind.
    rewrite Hs, E, Hs', E', Hc, Hc'. auto.
Qed.

(** X9. On a conversation of human and AI messages the translation
    of the reflection node succeeds, keeps every content in place, and
    is its own inverse: translating the translated messages gives the
    original ones back. *)
Theorem translate_round_trip (state : State) :
  messages state <> [] ->
  Forall (fun msg => type msg = ai \/ type msg = human)
         (tl (messages state)) ->
  exists tr, translate state = Ok tr /\
    map content tr = map content (messages state) /\
    translate (mkState tr) = Ok (messages state).
Proof.
  intros Hne Hf. unfold translate.
  destruct (messages state) as [|first rest] eqn:Em; [congruence|].
  cbn [first_item tl bind] in *.
  destruct (map_swap_role rest Hf) as (l' & E & Hc & E').
  exists (first :: l'). rewrite E. cbn [bind messages first_item tl map].
  rewrite E', Hc. auto.
Qed.

Lemma translate_round_trip_witness :
  exists tr, translate Samples.state_before_reflection = Ok tr /\
    map content tr = map content (messages Samples.state_before_reflection) /\
    translate (mkState tr) = Ok (messages Samples.state_before_reflection).
Proof.
  apply (translate_round_trip Samples.state_before_reflection).
  - discriminate.
  - simpl. constructor; [left; reflexivity|].
    constructor; [right; reflexivity|]. constructor.
Defined.

End LoopFacts.

(* ================================================================= *)
(** ** Where a match lies in the text *)

Module SearchFacts.
Import Str StrFacts TextFacts Re.
Local Open Scope string_scope.

Lemma match_here_split ic r pv s off m :
  match_here ic r pv s off = Some m ->
  exists rest, s = m_group0 m ++ rest /\
               matches ic r pv (m_group0 m) rest (m_groups m).
Proof.
  unfold match_here. intros H.
  destruct (run ic r (Cursor pv s off []) (fun c => Some c)) as [c'|] eqn:E;
    [|discriminate].
  apply ReFacts.run_sound in E. destruct E as (w & rest & gs & Hs & Hm & Hk).
  simpl in *. inversion Hk; subst c'. inversion H; subst m. simpl.
  replace (off + String.length w - off)%nat with (String.length w) by lia.
  rewrite Hs, take_append. exists rest. auto.
Qed.

Lemma search_from_split ic r : forall s pv off m,
  search_from ic r pv s off = Some m ->
  exists pre rest pv', s = pre ++ m_group0 m ++ rest /\
    matches ic r pv' (m_group0 m) rest (m_groups m).
Proof.
  induction s as [|b s' IH]; intros pv off m H; simpl in H.
  - destruct (match_here ic r pv "" off) eqn:E; [|discriminate].
    inversion H; subst. apply match_here_split in E.
    destruct E as (rest & Hs & Hm). exists "", rest, pv. auto.
  - destruct (match_here ic r pv (String b s') off) eqn:E.
    + inversion H; subst. apply match_here_split in E.
      destruct E as (rest & Hs & Hm). exists "", rest, pv. auto.
    + apply IH in H. destruct H as (pre & rest & pv' & Hs & Hm).
      exists (String b pre), rest, pv'. simpl. rewrite <- Hs. auto.
Qed.

(** Every group of a match lies inside the matched text. *)
Lemma matches_groups_inside ic r pv w rest gs :
  matches ic r pv w rest gs -> Forall (fun g => contains g w = true) gs.
Proof.
  induction 1; auto.
  - apply Forall_app. split.
    + eapply Forall_impl; [|apply IHmatches1].
      intros g Hg. apply contains_app_l. auto.
    + eapply Forall_impl; [|apply IHmatches2].
      intros g Hg. apply contains_app_r. auto.
  - apply Forall_app. split; auto.
    constructor; auto. apply contains_refl.
Qed.

(** What [re.search] finds, and each of its groups, occurs in the
    text searched. *)
Lemma search_inside ic r s m :
  search ic r s = Some m ->
  contains (m_group0 m) s = true /\
  Forall (fun g => contains g s = true) (m_groups m).
Proof.
  intros H. apply search_from_split in H.
  destruct H as (pre & rest & pv' & Hs & Hm).
  assert (H0 : contains (m_group0 m) s = true).
  { apply contains_spec. eauto. }
  split; auto.
  apply matches_groups_inside in Hm.
  eapply Forall_impl; [|apply Hm].
  intros g Hg. apply (contains_trans g (m_group0 m) s Hg H0).
Qed.

Lemma delete_scan_skip r rest : forall w pv off,
  exists pv' off',
    delete_scan r pv (w ++ rest) off (String.length w)
    = delete_scan r pv' rest off' 0.
Proof.
  induction w as [|c w IH]; intros pv off; simpl; eauto.
Qed.

Lemma delete_trailing_newline pv off :
  delete_scan External.trailing_separators pv
    (String newline "") off 0 = "".
Proof.
  cbn [delete_scan]. unfold match_here. cbn -[Nat.sub].
  replace (S off - off)%nat with 1%nat by lia. reflexivity.
Qed.

(** Removing the separators at the end leaves a prefix. *)
Lemma delete_trailing_prefix : forall s pv off,
  exists t, s = delete_scan External.trailing_separators pv s off 0 ++ t.
Proof.
  induction s as [|b s' IH]; intros pv off.
  - exists "". reflexivity.
  - cbn [delete_scan].
    destruct (match_here false External.trailing_separators pv
                (String b s') off) as [m|] eqn:E.
    + destruct (String.length (m_group0 m)) as [|n] eqn:El.
      * destruct (IH (Some b) (S off)) as (t & Ht).
        exists t. simpl. rewrite <- Ht. reflexivity.
      * apply match_here_split in E. destruct E as (rest & Hs & Hm).
        destruct m as [st g0 gs]. cbn [m_group0 m_groups] in *.
        unfold External.trailing_separators in Hm.
        inversion Hm as [| | | | | |? ? ? w1 w2 ? ? ? H1 H2| | | | |]; subst.
        inversion H2 as [| | | | | | | | | | |? ? Hr]; subst.
        rewrite append_empty_r in *.
        destruct w1 as [|c w1]; [discriminate|].
        simpl in El. injection El as El. simpl in Hs.
        injection Hs as Hb Hs'. subst b s' n.
        destruct (delete_scan_skip External.trailing_separators rest w1
                    (Some c) (S off)) as (pv' & off' & Hd).
        rewrite Hd.
        destruct Hr as [-> | ->].
        -- exists (String c (w1 ++ "")). reflexivity.
        -- rewrite delete_trailing_newline.
           exists (String c (w1 ++ String newline "")). reflexivity.
    + destruct (IH (Some b) (S off)) as (t & Ht).
      exists t. simpl. rewrite <- Ht. reflexivity.
Qed.

Lemma sub_trailing_inside s :
  contains (sub_empty External.trailing_separators s) s = true.
Proof.
  unfold sub_empty.
  destruct (delete_trailing_prefix s None 0) as (t & Ht).
  apply contains_spec. exists "", t. simpl. auto.
Qed.

End SearchFacts.

(* ================================================================= *)
(** ** More facts on the verification service *)

Module ServiceFacts.
Import Str StrFacts TextFacts Re External Nodes.
Local Open Scope string_scope.

Lemma find_exact_in key : forall table h,
  find_exact key table = Some h -> In (key, h) table.
Proof.
  induction table as [|[k h'] table IH]; intros h H; simpl in H;
    [discriminate|].
  destruct (String.eqb k key) eqn:E.
  - apply String.eqb_eq in E. inversion H; subst. left. reflexivity.
  - right. auto.
Qed.

Lemma find_partial_in n : forall table h,
  find_partial n table = Some h -> exists key, In (key, h) table.
Proof.
  induction table as [|[k h'] table IH]; intros h H; simpl in H;
    [discriminate|].
  destruct (contains k n || contains n k).
  - inversion H; subst. exists k. left. reflexivity.
  - destruct (IH _ H) as (key & Hk). exists key. right. auto.
Qed.

(** The three answers for a text. *)
Lemma verify_text_cases (name : string) :
  (exists key h, In (key, h) known_hospitals /\
     verify_place_of_birth (Text name) = exact_answer name h) \/
  (exists key h, In (key, h) known_hospitals /\
     verify_place_of_birth (Text name) = partial_answer name h) \/
  (exists l, verify_place_of_birth (Text name) = unknown_answer name l).
Proof.
  unfold verify_place_of_birth, verify_body.
  destruct (find_exact (normalize name) known_hospitals) as [h|] eqn:E.
  - left. exists (normalize name), h. split; auto.
    apply find_exact_in. auto.
  - destruct (find_partial (normalize name) known_hospitals) as [h|] eqn:P.
    + right. left. destruct (find_partial_in _ _ _ P) as (key & Hk).
      exists key, h. auto.
    + right. right. eauto.
Qed.

(** X10. Every answer of [verify_place_of_birth] holds a verdict, a
    score and notes; the place is verified exactly when the score is
    at least 0.90, and then the answer describes a hospital of the
    table and has no error; an unverified answer scores 0.2 or, with
    an error, 0.0. *)
Theorem verify_answer_shape (place_name : pyobj) :
  let d := verify_place_of_birth place_name in
  exists b f notes,
    dict_get "place_verified" d = Some (PBool b) /\
    dict_get "confidence_score" d = Some (PFloat f) /\
    dict_get "verification_notes" d = Some (PList notes) /\
    (b = true <-> Float.leb partial_score f = true) /\
    (b = true ->
       exists key h name, In (key, h) known_hospitals /\
         place_name = Text name /\
         dict_get "verification_result" d = Some (verified_result name h) /\
         dict_get "error" d = None) /\
    (b = false ->
       (f = unknown_score /\ dict_get "error" d = None) \/
       (f = error_score /\ exists msg, dict_get "error" d = Some (PStr msg))).
Proof.
  destruct place_name as [name|].
  - destruct (verify_text_cases name)
      as [(key & h & Hin & E)|[(key & h & Hin & E)|(l & E)]];
      cbv zeta; rewrite E.
    + exists true, exact_score, (map PStr (verified_notes h)).
      repeat split; try reflexivity; try discriminate.
      intros _. exists key, h, name. auto.
    + exists true, partial_score,
        (map PStr (verified_notes h ++
           ["Matched via partial name matching (input contained location suffix)"])).
      repeat split; try reflexivity; try discriminate.
      intros _. exists key, h, name. auto.
    + eexists false, unknown_score, _.
      repeat split; try reflexivity; try discriminate.
      intros _. left. auto.
  - eexists false, error_score, _.
    repeat split; try reflexivity; try discriminate.
    intros _. right. split; auto. eexists. reflexivity.
Qed.

Lemma lower_space c : isspace c = true -> lower_char c = c.
Proof.
  destruct c as [[] [] [] [] [] [] [] []]; intros H;
    try reflexivity; discriminate.
Qed.

Lemma lower_blank : forall s, all isspace s = true -> lower s = s.
Proof.
  induction s as [|c s IH]; simpl; auto.
  intros H. apply andb_true_iff in H. destruct H as [Hc Hs].
  rewrite lower_space, IH by auto. reflexivity.
Qed.

(** X11. A place name made of white space only (the empty name
    included) is verified: it is answered as a partial match of the
    first hospital of the table, with the score 0.90. *)
Theorem blank_place_is_verified (place_name : string) :
  all isspace place_name = true ->
  exists key h,
    nth_error known_hospitals 0 = Some (key, h) /\
    verify_place_of_birth (Text place_name) = partial_answer place_name h /\
    verdict (verify_place_of_birth (Text place_name))
      = (Some (PFloat partial_score), Some (PBool true)).
Proof.
  intros H.
  assert (Hn : normalize place_name = "").
  { unfold normalize. rewrite lower_blank, strip_blank by auto. reflexivity. }
  unfold verify_place_of_birth, verify_body. rewrite Hn.
  eexists _, _. split; [reflexivity|]. split; reflexivity.
Qed.

Lemma blank_place_is_verified_witness :
  exists key h,
    nth_error known_hospitals 0 = Some (key, h) /\
    verify_place_of_birth (Text "  ") = partial_answer "  " h /\
    verdict (verify_place_of_birth (Text "  "))
      = (Some (PFloat partial_score), Some (PBool true)).
Proof. apply (blank_place_is_verified "  "). reflexivity. Defined.

Lemma dict_get_app key : forall d1 d2,
  dict_get key (d1 ++ d2)%list =
    match dict_get key d2 with
    | Some v => Some v
    | None => dict_get key d1
    end.
Proof.
  induction d1 as [|[k v] d1 IH]; intros d2; simpl.
  - destruct (dict_get key d2); reflexivity.
  - rewrite IH. destruct (dict_get key d2); reflexivity.
Qed.

Lemma verify_text_keys (name : string) :
  dict_get "verification_type" (verify_place_of_birth (Text name)) = None /\
  dict_get "input_data" (verify_place_of_birth (Text name)) = None /\
  dict_get "error" (verify_place_of_birth (Text name)) = None.
Proof.
  destruct (verify_text_cases name)
    as [(key & h & _ & E)|[(key & h & _ & E)|(l & E)]];
    rewrite E; repeat split; reflexivity.
Qed.

(** X12. An answer of [call_external_service] either reports an
    error and no verdict, or names a non-empty place and carries the
    answer of [verify_place_of_birth] for that place unchanged, with
    no error; without any message, or when the input is not a list,
    the answer is the error that no place was found. *)
Theorem service_answer_shape (text : service_input) :
  let d := call_external_service text in
  ((exists msg, dict_get "error" d = Some (PStr msg)) /\
   dict_get "place_verified" d = None /\
   dict_get "input_data" d = None) \/
  (exists place, place <> "" /\
     d = ([("verification_type", PStr "place_of_birth");
           ("input_data", PStr place)]
          ++ verify_place_of_birth (Text place))%list /\
     dict_get "verification_type" d = Some (PStr "place_of_birth") /\
     dict_get "input_data" d = Some (PStr place) /\
     verdict d = verdict (verify_place_of_birth (Text place)) /\
     dict_get "error" d = None).
Proof.
  cbv zeta. unfold call_external_service, call_body, bind.
  destruct (match text with
            | Items l => scan_items l None
            | NotAList => Ok None
            end) as [[[|c s]|]|e].
  - left. repeat split; try reflexivity. eexists. reflexivity.
  - right. exists (String c s). split; [discriminate|]. split; auto.
    destruct (verify_text_keys (String c s)) as (K1 & K2 & K3).
    unfold verdict. rewrite !dict_get_app, K1, K2, K3.
    destruct (dict_get "confidence_score"
                (verify_place_of_birth (Text (String c s))));
      destruct (dict_get "place_verified"
                  (verify_place_of_birth (Text (String c s))));
      repeat split; reflexivity.
  - left. repeat split; try reflexivity. eexists. reflexivity.
  - left. repeat split; try reflexivity. eexists. reflexivity.
Qed.

Lemma try_patterns_inside s : forall patterns po r,
  try_patterns patterns (Text s) po = Ok (Some r) ->
  po = Some r \/ contains r s = true.
Proof.
  induction patterns as [|pattern rest IH]; intros po r H;
    cbn [try_patterns py_search bind] in H.
  - inversion H; auto.
  - destruct (search true pattern s) as [mt|] eqn:E.
    + apply SearchFacts.search_inside in E. destruct E as (H0 & Hg).
      set (raw := match m_groups mt with
                  | g :: _ => strip g
                  | [] => strip (m_group0 mt)
                  end) in *.
      assert (Hraw : contains raw s = true).
      { unfold raw. destruct (m_groups mt) as [|g gs].
        - eapply contains_trans; [apply contains_strip|auto].
        - inversion Hg; subst.
          eapply contains_trans; [apply contains_strip|auto]. }
      assert (Hplace : contains (sub_empty trailing_separators raw) s = true).
      { eapply contains_trans; [apply SearchFacts.sub_trailing_inside|auto]. }
      destruct (truthy (Some (sub_empty trailing_separators raw))).
      * inversion H; subst. auto.
      * apply IH in H. destruct H as [H|H]; auto.
        inversion H; subst. auto.
    + apply IH in H. auto.
Qed.

Lemma scan_items_inside : forall items po r,
  scan_items items po = Ok (Some r) ->
  po = Some r \/
  exists item s, In item items /\ content item = Text s /\
                 contains r s = true.
Proof.
  induction items as [|item rest IH]; intros po r H;
    cbn [scan_items] in H.
  - inversion H; auto.
  - destruct (content item) as [s|] eqn:Ec; [|discriminate].
    cbn [py_search bind] in H.
    destruct (search false place_of_birth_pattern s) as [mt|] eqn:E.
    + apply SearchFacts.search_inside in E. destruct E as (_ & Hg).
      unfold Router.group1, group in H. cbn [nth_error] in H.
      destruct (m_groups mt) as [|g gs]; [discriminate|].
      cbn [bind] in H. inversion H; subst. inversion Hg; subst.
      right. exists item, s. repeat split; auto. left. reflexivity.
    + unfold bind in H.
      destruct (try_patterns hospital_patterns (Text s) po) as [p|e] eqn:T;
        [|discriminate].
      destruct (truthy p) eqn:Tp.
      * inversion H; subst.
        apply try_patterns_inside in T. destruct T as [T|T]; auto.
        right. exists item, s. repeat split; auto. left. reflexivity.
      * apply IH in H. destruct H as [H|(it & s' & Hin & Hc & Hs)].
        -- subst p. apply try_patterns_inside in T.
           destruct T as [T|T]; auto.
           right. exists item, s. repeat split; auto. left. reflexivity.
        -- right. exists it, s'. repeat split; auto. right. auto.
Qed.

Section Dumps.
Variable json_dumps : dict -> string.

(** X13. The service node never invents a place: its message holds
    the answer of the service for the AI messages of the state, and a
    place named in that answer is not empty and occurs literally in the
    text of one of these AI messages. *)
Theorem place_comes_from_ai_message (state : State) :
  exists result,
    external_service_node json_dumps state
      = mkState [HumanMessage
                   ("External Processing Results: " ++ json_dumps result)] /\
    result = call_external_service (Items (ai_messages state)) /\
    forall place, dict_get "input_data" result = Some (PStr place) ->
      place <> "" /\
      exists msg s, In msg (messages state) /\ type msg = ai /\
                    content msg = Text s /\ contains place s = true.
Proof.
  eexists. split; [reflexivity|]. split; [reflexivity|].
  intros place.
  unfold call_external_service, call_body, bind.
  destruct (scan_items (ai_messages state) None) as [[[|c s]|]|e] eqn:E;
    try discriminate.
  destruct (verify_text_keys (String c s)) as (_ & K2 & _).
  rewrite dict_get_app, K2. cbn. intros H. inversion H; subst place.
  split; [discriminate|].
  apply scan_items_inside in E.
  destruct E as [E|(item & s' & Hin & Hc & Hs)]; [discriminate|].
  unfold ai_messages in Hin. apply filter_In in Hin.
  destruct Hin as (Hin & Hai).
  exists item, s'. repeat split; auto.
  unfold is_ai in Hai. destruct (type item); auto; discriminate.
Qed.
End Dumps.

Lemma place_comes_from_ai_message_witness :
  exists msg s, In msg (messages Cases.state_extracted) /\ type msg = ai /\
                content msg = Text s /\
                contains "Westmead Hospital" s = true.
Proof.
  destruct (place_comes_from_ai_message Cases.dumps_place
              Cases.state_extracted) as (result & _ & Hr & Hp).
  apply (Hp "Westmead Hospital"). rewrite Hr. vm_compute. reflexivity.
Defined.

End ServiceFacts.

(* ================================================================= *)
(** ** Facts on fetching an embedding *)

Module RetrieverFacts.
Import Embedding Retriever.

Lemma py_setitem_length {A} (l r : list A) (i : nat) (x : A) :
  py_setitem l i x = Ok r -> length r = length l.
Proof.
  unfold py_setitem. destruct (i <? length l)%nat; [|discriminate].
  intros H. inversion H; subst. apply EmbeddingFacts.replace_nth_length.
Qed.

Lemma bucket_length embedding len ratio res i r :
  fill_bucket embedding len ratio res i = Ok r -> length r = length res.
Proof.
  unfold fill_bucket, bind.
  destruct (float_of_int (Z.of_nat i)); [|discriminate].
  destruct (Float.to_int _); [|discriminate].
  destruct (float_of_int (Z.of_nat i + 1)); [|discriminate].
  destruct (Float.to_int _); [|discriminate].
  destruct (_ <? _)%Z.
  - destruct (sum_items _ _ _); [|discriminate].
    destruct (num_truediv _ _); [|discriminate].
    apply py_setitem_length.
  - intros H. inversion H; reflexivity.
Qed.

Lemma buckets_length embedding len ratio : forall todo res r,
  fill_buckets embedding len ratio todo res = Ok r -> length r = length res.
Proof.
  induction todo as [|i todo IH]; intros res r H; simpl in H.
  - inversion H; reflexivity.
  - unfold bind in H.
    destruct (fill_bucket embedding len ratio res i) as [res'|] eqn:E;
      [|discriminate].
    apply IH in H. apply bucket_length in E. congruence.
Qed.

(** What [resize_embedding] returns has 384 items, whatever it is
    given. *)
Lemma resize_embedding_dimension (embedding : Json.value) (r : resized) :
  resize_embedding embedding = Ok r -> resized_len r = Ok target_dimension.
Proof.
  unfold resize_embedding, bind.
  destruct (py_len embedding) as [len|] eqn:El; [|discriminate].
  destruct (len =? target_dimension)%nat eqn:E.
  - intros H. inversion H; subst. simpl. rewrite El.
    apply Nat.eqb_eq in E. congruence.
  - destruct (int_truediv _ _) as [ratio|]; [|discriminate].
    destruct (fill_buckets _ _ _ _ _) as [res|] eqn:Eb; [|discriminate].
    apply buckets_length in Eb. rewrite repeat_length in Eb.
    destruct (EmbeddingFacts.normalize_vector_length res) as (r' & Hr & Hl).
    rewrite Hr. intros H. inversion H; subst. simpl. congruence.
Qed.

Lemma read_embedding_dimension (response_data : Json.value) (r : resized) :
  read_embedding response_data = Ok (Some r) ->
  resized_len r = Ok target_dimension.
Proof.
  unfold read_embedding, bind.
  destruct (negb (truth response_data)); [discriminate|].
  destruct (get_or_none response_data "data") as [data|]; [|discriminate].
  destruct (negb (truth data)); [discriminate|].
  destruct (py_subscript response_data "data") as [data'|]; [|discriminate].
  destruct (py_getitem data' 0) as [first|]; [|discriminate].
  destruct (negb (truth first)); [discriminate|].
  destruct (get_or_none first "embedding") as [e|]; [|discriminate].
  destruct (negb (truth e)); [discriminate|].
  destruct (py_subscript first "embedding") as [embedding|]; [|discriminate].
  destruct (resize_embedding embedding) as [re|] eqn:E; [|discriminate].
  apply resize_embedding_dimension in E. rewrite E.
  intros H. inversion H; subst. auto.
Qed.

Section Random.
Variable uniform : nat -> Float.float.

Lemma random_dimension (drawn : nat) :
  length (fst (generate_random_embedding uniform drawn)) = target_dimension.
Proof.
  unfold generate_random_embedding. cbn [fst].
  rewrite length_map, length_seq. reflexivity.
Qed.

Lemma embed_cases (r : response) (drawn : nat) :
  (exists re, embed_body r = Ok (Some re) /\
              embed uniform r drawn = (re, drawn)) \/
  ((embed_body r = Ok None \/ exists e, embed_body r = Raise e) /\
   embed uniform r drawn
     = (Fresh (map uniform (seq drawn target_dimension)),
        drawn + target_dimension)).
Proof.
  unfold embed. destruct (embed_body r) as [[re|]|e]; eauto.
Qed.

Lemma embed_len (r : response) (drawn : nat) :
  resized_len (fst (embed uniform r drawn)) = Ok target_dimension.
Proof.
  destruct (embed_cases r drawn) as [(re & Hb & E)|(_ & E)]; rewrite E.
  - cbn [fst]. destruct r as [e|ok json]; [discriminate|].
    cbn [embed_body] in Hb. destruct (negb ok); [discriminate|].
    unfold bind in Hb. destruct json as [response_data|]; [|discriminate].
    apply read_embedding_dimension in Hb. auto.
  - cbn [fst resized_len]. rewrite length_map, length_seq. reflexivity.
Qed.

(** X14. [embed] answers with 384 items whatever the endpoint does:
    its answer is a resized embedding of 384 items, or, when the
    request fails, the status is not ok, the body is no JSON or holds
    no embedding, or the resizing raises, the next 384 random draws. *)
Theorem embed_dimension (r : response) (drawn : nat) :
  resized_len (fst (embed uniform r drawn)) = Ok target_dimension /\
  ((exists e, r = Unreachable e) \/ (exists json, r = Response false json) \/
   (exists e, r = Response true (Raise e)) ->
   embed uniform r drawn
     = (Fresh (map uniform (seq drawn target_dimension)),
        drawn + target_dimension)).
Proof.
  split; [apply embed_len|].
  intros [(e & ->)|[(json & ->)|(e & ->)]]; reflexivity.
Qed.

(** X15. A batch has one embedding for each text, each of 384 items.
    The embedding of a text whose request succeeds is the resized
    embedding of the endpoint and uses no random draw; the embedding
    of a text that falls back is made of the 384 draws that follow
    those of the earlier fallbacks of the batch.  So the batch uses
    384 draws for each text that fell back, and no other. *)
Theorem batch_dimension : forall (responses : list response) (drawn : nat),
  let (embeddings, drawn') :=
    generate_embeddings_batch uniform responses drawn in
  length embeddings = length responses /\
  Forall (fun e => resized_len e = Ok target_dimension) embeddings /\
  drawn' = drawn + target_dimension * length (filter falls_back responses) /\
  forall i r, nth_error responses i = Some r ->
    nth_error embeddings i = Some
      match embed_body r with
      | Ok (Some resized_embedding) => resized_embedding
      | Ok None | Raise _ =>
          Fresh (map uniform
                   (seq (drawn + target_dimension
                                 * length (filter falls_back
                                             (firstn i responses)))
                        target_dimension))
      end.
Proof.
  induction responses as [|r rest IH]; intros drawn;
    cbn [generate_embeddings_batch].
  - repeat split; auto. intros [|i] r H; discriminate.
  - destruct (embed uniform r drawn) as [e d1] eqn:E.
    specialize (IH d1).
    destruct (generate_embeddings_batch uniform rest d1) as [es d2].
    destruct IH as (Hl & Hf & Hd & Hi).
    assert (He : resized_len e = Ok target_dimension).
    { pose proof (embed_len r drawn) as H. rewrite E in H. exact H. }
    split; [simpl; congruence|]. split; [constructor; auto|].
    assert (Hr : e = match embed_body r with
                     | Ok (Some resized_embedding) => resized_embedding
                     | Ok None | Raise _ =>
                         Fresh (map uniform (seq drawn target_dimension))
                     end /\
                 d1 = drawn + target_dimension
                              * (if falls_back r then 1 else 0)).
    { unfold embed, generate_random_embedding, falls_back in *.
      destruct (embed_body r) as [[re|]|x]; inversion E; split; auto;
        unfold target_dimension; lia. }
    destruct Hr as [He' Hd1]. split.
    + cbn [filter]. rewrite Hd, Hd1.
      destruct (falls_back r); cbn [length]; unfold target_dimension; lia.
    + intros [|i] r' H; cbn [nth_error] in *.
      * inversion H; subst r'. cbn [firstn filter length].
        rewrite Nat.mul_0_r, Nat.add_0_r. rewrite He'. reflexivity.
      * rewrite (Hi i r' H). cbn [firstn filter]. rewrite Hd1.
        destruct (embed_body r') as [[re|]|x]; auto;
          destruct (falls_back r); cbn [length];
          do 4 f_equal; unfold target_dimension; lia.
Qed.

End Random.

Lemma batch_dimension_witness :
  nth_error
    (fst (generate_embeddings_batch Cases.uniform_half
            [Unreachable ValueError; Cases.answer_two;
             Response false (Raise ValueError)] 0)) 2
  = Some (Fresh (map Cases.uniform_half (seq 384 384))).
Proof.
  pose proof (batch_dimension Cases.uniform_half
                [Unreachable ValueError; Cases.answer_two;
                 Response false (Raise ValueError)] 0) as H.
  destruct (generate_embeddings_batch Cases.uniform_half
              [Unreachable ValueError; Cases.answer_two;
               Response false (Raise ValueError)] 0) as [es d].
  destruct H as (_ & _ & _ & H). cbn [fst].
  rewrite (H 2 (Response false (Raise ValueError)) eq_refl).
  vm_compute. reflexivity.
Defined.

(** *** A list of floats *)

Lemma py_index_map {A B} (f : A -> B) (l : list A) (j : Z) :
  py_index (map f l) j =
    match py_index l j with
    | Ok x => Ok (f x)
    | Raise e => Raise e
    end.
Proof.
  unfold py_index. rewrite length_map.
  destruct ((_ <? 0) || (_ <=? _))%Z; auto.
  rewrite nth_error_map. destruct (nth_error l _); reflexivity.
Qed.

Lemma sum_items_floats (l : list Float.float) : forall js acc,
  sum_items (Json.Arr (map Json.Float l)) js (NFloat acc) =
    match map_result (py_index l) js with
    | Ok items => Ok (NFloat (fold_left Float.add items acc))
    | Raise e => Raise e
    end.
Proof.
  induction js as [|j js IH]; intros acc; cbn [sum_items map_result]; auto.
  cbn [py_getitem]. rewrite py_index_map. unfold bind.
  destruct (py_index l j) as [x|e]; auto.
  cbn [as_num py_add]. rewrite IH.
  destruct (map_result (py_index l) js); reflexivity.
Qed.

Lemma bucket_floats (l : list Float.float) ratio res i :
  fill_bucket (Json.Arr (map Json.Float l)) (length l) ratio res i
  = Embedding.bucket l ratio res i.
Proof.
  unfold fill_bucket, Embedding.bucket, bind.
  destruct (float_of_int (Z.of_nat i)); auto.
  destruct (Float.to_int _) as [start|]; auto.
  destruct (float_of_int (Z.of_nat i + 1)); auto.
  destruct (Float.to_int _) as [stop0|]; auto.
  set (stop := if (stop0 >? Z.of_nat (length l))%Z
               then Z.of_nat (length l) else stop0).
  destruct (start <? stop)%Z eqn:Es; auto.
  apply Z.ltb_lt in Es. unfold range.
  destruct (Z.to_nat (stop - start)) as [|m] eqn:Em; [lia|].
  cbn [seq map sum_items map_result py_getitem].
  rewrite py_index_map. unfold bind.
  destruct (py_index l (start + Z.of_nat 0)) as [x|e]; auto.
  cbn [as_num py_add float_of_int]. unfold bind.
  change (float_of_int 0) with (Ok Float.zero). cbn iota beta.
  rewrite sum_items_floats.
  destruct (map_result (py_index l) _) as [items|e]; auto.
  cbn [num_truediv]. unfold bind, py_sum. cbn [fold_left].
  destruct (float_of_int (stop - start)); auto.
Qed.

Lemma buckets_floats (l : list Float.float) ratio : forall todo res,
  fill_buckets (Json.Arr (map Json.Float l)) (length l) ratio todo res
  = Embedding.buckets l ratio todo res.
Proof.
  induction todo as [|i todo IH]; intros res; simpl; auto.
  rewrite bucket_floats. unfold bind.
  destruct (Embedding.bucket l ratio res i); auto.
Qed.

(** On a list of floats the two readings of [resize_embedding]
    agree. *)
Lemma resize_embedding_floats (l : list Float.float) :
  resize_embedding (Json.Arr (map Json.Float l)) =
    match Embedding.resize_embedding l with
    | Ok r =>
        Ok (if (length l =? target_dimension)%nat
            then Same (Json.Arr (map Json.Float l))
            else Fresh r)
    | Raise e => Raise e
    end.
Proof.
  unfold resize_embedding, Embedding.resize_embedding, averaged, bind.
  cbn [py_len]. rewrite length_map.
  destruct (length l =? target_dimension)%nat; auto.
  destruct (int_truediv _ _) as [ratio|]; auto.
  rewrite buckets_floats.
  destruct (Embedding.buckets _ _ _ _) as [res|]; auto.
Qed.

(** X16. For an answer in the OpenAI format whose embedding is a
    non-empty list of floats, [embed] returns what [resize_embedding]
    makes of these floats (the list itself when it has 384 items), and
    falls back to random draws exactly when [resize_embedding] raises. *)
Theorem embed_list_of_floats (uniform : nat -> Float.float)
  (l : list Float.float) (drawn : nat) :
  l <> [] ->
  embed uniform
    (Response true (Ok (openai_answer (Json.Arr (map Json.Float l))))) drawn
  = match Embedding.resize_embedding l with
    | Ok r =>
        (if (length l =? target_dimension)%nat
         then Same (Json.Arr (map Json.Float l))
         else Fresh r, drawn)
    | Raise _ =>
        (Fresh (map uniform (seq drawn target_dimension)),
         drawn + target_dimension)
    end.
Proof.
  intros Hl. unfold embed, embed_body. cbn [negb bind].
  unfold read_embedding, openai_answer.
  cbn -[resize_embedding Embedding.resize_embedding target_dimension seq].
  destruct l as [|x l]; [congruence|].
  cbn -[resize_embedding Embedding.resize_embedding target_dimension seq map
        length Nat.eqb].
  rewrite resize_embedding_floats.
  destruct (Embedding.resize_embedding (x :: l)) as [r|e] eqn:E; auto.
  assert (Hd : resized_len
                 (if (length (x :: l) =? target_dimension)%nat
                  then Same (Json.Arr (map Json.Float (x :: l)))
                  else Fresh r) = Ok target_dimension).
  { apply (resize_embedding_dimension (Json.Arr (map Json.Float (x :: l)))).
    rewrite resize_embedding_floats, E. reflexivity. }
  change (negb (negb (length (map Json.Float (x :: l)) =? 0)%nat))
    with false.
  unfold bind. rewrite Hd. reflexivity.
Qed.

Lemma embed_list_of_floats_witness :
  exists r, Embedding.resize_embedding [Samples.three; Samples.four] = Ok r /\
    embed Cases.uniform_half Cases.answer_two 7 = (Fresh r, 7).
Proof.
  destruct (Embedding.resize_embedding [Samples.three; Samples.four])
    as [r|e] eqn:E.
  - exists r. split; auto.
    pose proof (embed_list_of_floats Cases.uniform_half
                  [Samples.three; Samples.four] 7
                  ltac:(discriminate)) as H.
    rewrite E in H. exact H.
  - exfalso. revert E. vm_compute. discriminate.
Defined.

End RetrieverFacts.

(* ================================================================= *)
(** ** Completeness of the matcher *)

Module MatcherFacts.
Import Str StrFacts TextFacts Re.
Local Open Scope string_scope.

Section Completeness.
Variable ic : bool.
Context {R : Type}.

Let after (c : cursor) (w rest : string) (gs : list string) : cursor :=
  Cursor (last_char (prev c) w) rest
         (offset c + String.length w) (groups c ++ gs)%list.

Lemma lit_complete : forall l w c rest,
  lit_eq ic l w = true -> ahead c = w ++ rest ->
  lit ic l c = Some (after c w rest []).
Proof.
  unfold after.
  induction l as [|a l IH]; intros w [pv s off gs] rest Hl Hs;
    destruct w as [|b w]; simpl in *; try discriminate.
  - subst s. rewrite Nat.add_0_r, app_nil_r. reflexivity.
  - subst s. apply andb_true_iff in Hl. destruct Hl as [Hc Hl].
    rewrite Hc.
    rewrite (IH w (Cursor (Some b) (w ++ rest) (S off) gs) rest Hl eq_refl).
    simpl. f_equal. f_equal. lia.
Qed.

Lemma star_complete (p : ascii -> bool) (k : cursor -> option R) (x : R)
  (rest : string) (gs : list string) :
  forall w pv off,
  all p w = true ->
  k (Cursor (last_char pv w) rest (off + String.length w) gs) = Some x ->
  exists x', star p k pv (w ++ rest) off gs = Some x'.
Proof.
  induction w as [|b w IH]; intros pv off Hw Hk; simpl in *.
  - rewrite Nat.add_0_r in Hk.
    destruct rest as [|b s']; simpl; [eauto|].
    destruct (p b); [|eauto].
    destruct (star p k (Some b) s' (S off) gs); eauto.
  - apply andb_true_iff in Hw. destruct Hw as [Hb Hw]. rewrite Hb.
    destruct (IH (Some b) (S off) Hw) as (x' & Hx').
    { rewrite <- Hk. do 2 f_equal. lia. }
    rewrite Hx'. eauto.
Qed.

(** Where the pattern can match and the continuation accepts the
    position after that match, the matcher succeeds. *)
Theorem run_complete r pv w rest gs :
  matches ic r pv w rest gs ->
  forall (c : cursor) (k : cursor -> option R) (x : R),
  prev c = pv -> ahead c = w ++ rest ->
  k (after c w rest gs) = Some x ->
  exists x', run ic r c k = Some x'.
Proof.
  unfold after.
  induction 1; intros c k x Hp Hs Hk; simpl.
  - rewrite (lit_complete l w c rest H Hs). unfold after. rewrite Hk. eauto.
  - destruct c as [pv' s off gs']; simpl in *. subst. rewrite H.
    rewrite app_nil_r, Nat.add_1_r in Hk. eauto.
  - destruct c as [pv' s off gs']; simpl in *. subst.
    rewrite app_nil_r in Hk. eapply star_complete; eauto.
  - destruct c as [pv' s off gs']; simpl in *. subst. rewrite H.
    rewrite app_nil_r in Hk.
    eapply (star_complete p k x rest gs' w (Some b) (S off)); auto.
    rewrite <- Hk. do 2 f_equal. lia.
  - destruct (IHmatches c k x Hp Hs Hk) as (x' & Hx'). rewrite Hx'. eauto.
  - destruct (run ic r c k); [eauto|].
    simpl in Hk. rewrite Nat.add_0_r, app_nil_r in Hk.
    destruct c as [pv' s off gs']; simpl in *. subst. eauto.
  - rewrite append_assoc in Hs.
    destruct (IHmatches2
                (Cursor (last_char (prev c) w1) (w2 ++ rest)
                   (offset c + String.length w1) (groups c ++ g1)%list)
                k x) as (x2 & Hx2); simpl; subst; auto.
    { rewrite <- Hk.
      rewrite last_char_append, length_append, app_assoc.
      do 2 f_equal. lia. }
    eapply IHmatches1; eauto.
  - destruct (IHmatches c k x Hp Hs Hk) as (x' & Hx'). rewrite Hx'. eauto.
  - destruct (run ic r1 c k); [eauto|]. eapply IHmatches; eauto.
  - eapply IHmatches; eauto. simpl. rewrite <- Hk. rewrite Hs.
    replace (offset c + String.length w - offset c)%nat
      with (String.length w) by lia.
    rewrite take_append, app_assoc. reflexivity.
  - subst. rewrite Hs. simpl in *. rewrite H.
    rewrite Nat.add_0_r, app_nil_r in Hk.
    destruct c as [pv' s off gs']; simpl in *. subst. eauto.
  - simpl in Hk. rewrite Nat.add_0_r, app_nil_r in Hk.
    simpl in Hs.
    assert (Hc : Cursor (prev c) rest (offset c) (groups c) = c)
      by (destruct c; simpl in *; subst; auto).
    rewrite Hc in Hk. rewrite Hs.
    destruct H as [-> | ->]; [eauto|].
    rewrite Ascii.eqb_refl. eauto.
Qed.
End Completeness.

(** A match at the very start of the text is found by [re.search],
    which then returns a match that starts there. *)
Lemma search_at_start ic r w rest gs :
  matches ic r None w rest gs ->
  exists m, search ic r (w ++ rest) = Some m /\
            match_here ic r None (w ++ rest) 0 = Some m.
Proof.
  intros H.
  destruct (run_complete ic r None w rest gs H
              (Cursor None (w ++ rest) 0 []) (fun c => Some c)
              (Cursor (last_char None w) rest (0 + String.length w)
                 ([] ++ gs)%list)) as (c' & Hc); auto.
  unfold search. destruct (w ++ rest) eqn:E; simpl; unfold match_here;
    rewrite Hc; eauto.
Qed.

End MatcherFacts.

(* ================================================================= *)
(** ** The requested answer is understood *)

Module FormatFacts.
Import Str StrFacts TextFacts Re Router Format RouterFacts.
Local Open Scope string_scope.

Lemma digit_cases d :
  isdigit d = true ->
  In d ["0"; "1"; "2"; "3"; "4"; "5"; "6"; "7"; "8"; "9"]%char.
Proof.
  destruct d as [[] [] [] [] [] [] [] []]; intros H;
    try discriminate; simpl; tauto.
Qed.

Lemma all_impl (p q : ascii -> bool) :
  (forall c, p c = true -> q c = true) ->
  forall s, all p s = true -> all q s = true.
Proof.
  intros Hpq. induction s as [|c s IH]; simpl; auto.
  intros H. apply andb_true_iff in H. destruct H as [Hc Hs].
  rewrite (Hpq c Hc), IH; auto.
Qed.

Lemma plain_not_brace c : plain c = true -> not_brace c = true.
Proof.
  destruct c as [[] [] [] [] [] [] [] []]; intros H;
    try reflexivity; discriminate.
Qed.

Lemma digit_not_brace c : isdigit c = true -> not_brace c = true.
Proof.
  destruct c as [[] [] [] [] [] [] [] []]; intros H;
    try reflexivity; discriminate.
Qed.

(** The first closing brace of a text determines what precedes it. *)
Lemma first_brace : forall X Y r1 r2,
  all not_brace X = true -> all not_brace Y = true ->
  X ++ String "}" r1 = Y ++ String "}" r2 -> X = Y /\ r1 = r2.
Proof.
  induction X as [|a X IH]; intros [|b Y] r1 r2 HX HY H; simpl in *.
  - inversion H; auto.
  - inversion H; subst. discriminate.
  - inversion H; subst. discriminate.
  - apply andb_true_iff in HX. destruct HX as [_ HX].
    apply andb_true_iff in HY. destruct HY as [_ HY].
    inversion H; subst. destruct (IH Y r1 r2 HX HY) as [-> ->]; auto.
Qed.

(** The text between the braces of an answer. *)
Lemma answer_inner d fraction message :
  isdigit d = true -> all isdigit fraction = true ->
  all plain message = true ->
  exists mid1 mid2,
    answer d fraction message
      = "{" ++ "" ++ quoted "confidence_score" ++ mid1
        ++ quoted "message" ++ mid2 ++ "}" /\
    all not_brace mid1 = true /\ all not_brace mid2 = true.
Proof.
  intros Hd Hf Hm.
  exists (": " ++ String d ("." ++ fraction) ++ ", "),
         (": " ++ quoted message).
  split; [|split].
  - unfold answer, quoted. simpl. rewrite !append_assoc. reflexivity.
  - simpl. rewrite (digit_not_brace d Hd). simpl.
    rewrite all_app, (all_impl _ _ digit_not_brace _ Hf). reflexivity.
  - unfold quoted. simpl.
    rewrite all_app, (all_impl _ _ plain_not_brace _ Hm). reflexivity.
Qed.

Lemma braces_unique X Y rest :
  all not_brace X = true -> all not_brace Y = true ->
  "{" ++ Y ++ "}" = ("{" ++ X ++ "}") ++ rest ->
  "{" ++ X ++ "}" = "{" ++ Y ++ "}".
Proof.
  intros HX HY H. simpl in H. injection H as H.
  rewrite append_assoc in H. simpl in H.
  destruct (first_brace Y X "" rest HY HX H) as [-> _]. reflexivity.
Qed.

(** [re.search] finds the whole answer. *)
Lemma search_answer d fraction message :
  isdigit d = true -> all isdigit fraction = true ->
  all plain message = true ->
  exists m, search false json_pattern (answer d fraction message) = Some m /\
            m_group0 m = answer d fraction message.
Proof.
  intros Hd Hf Hm.
  destruct (answer_inner d fraction message Hd Hf Hm)
    as (mid1 & mid2 & HT & H1 & H2).
  assert (Hmatch : matches false json_pattern None
            ("{" ++ "" ++ quoted "confidence_score" ++ mid1
             ++ quoted "message" ++ mid2 ++ "}") "" []).
  { unfold json_pattern, seq.
    apply (M_Seq false _ _ None "{" _ "" [] []); [constructor; reflexivity|].
    apply (M_Seq false _ _ _ "" _ "" [] []); [constructor; reflexivity|].
    apply (M_Seq false _ _ _ (quoted "confidence_score") _ "" [] []);
      [constructor; reflexivity|].
    apply (M_Seq false _ _ _ mid1 _ "" [] []); [constructor; auto|].
    apply (M_Seq false _ _ _ (quoted "message") _ "" [] []);
      [constructor; reflexivity|].
    apply (M_Seq false _ _ _ mid2 "}" "" [] []); [constructor; auto|].
    constructor. reflexivity. }
  apply MatcherFacts.search_at_start in Hmatch.
  destruct Hmatch as (m & Hs & Hh).
  rewrite append_empty_r in Hs, Hh. rewrite <- HT in Hs, Hh.
  exists m. split; auto.
  apply SearchFacts.match_here_split in Hh. destruct Hh as (rest & HTm & Hm').
  destruct m as [st g0 gs]. cbn [m_group0 m_groups] in *.
  unfold json_pattern, seq in Hm'. inv_matches.
  set (X := w0 ++ quoted "confidence_score" ++ w3 ++ quoted "message" ++ w5).
  set (Y := quoted "confidence_score" ++ mid1 ++ quoted "message" ++ mid2).
  assert (EX : "{" ++ w0 ++ quoted "confidence_score" ++ w3
               ++ quoted "message" ++ w5 ++ "}" = "{" ++ X ++ "}").
  { unfold X. rewrite !append_assoc. reflexivity. }
  assert (EY : "{" ++ "" ++ quoted "confidence_score" ++ mid1
               ++ quoted "message" ++ mid2 ++ "}" = "{" ++ Y ++ "}").
  { unfold Y. rewrite !append_assoc. reflexivity. }
  rewrite EX in *. rewrite EY in HT. rewrite HT in *.
  apply (braces_unique X Y rest); auto.
  - unfold X. rewrite !all_app, H3, H5, H9. reflexivity.
  - unfold Y. rewrite !all_app, H1, H2. reflexivity.
Qed.

Lemma plain_scanned c :
  plain c = true ->
  Ascii.eqb c dquote = false /\ Ascii.eqb c "\" = false /\
  (code c <? 32)%N = false.
Proof.
  destruct c as [[] [] [] [] [] [] [] []]; intros H;
    try discriminate; repeat split; reflexivity.
Qed.

Lemma scanstring_plain : forall msg r out,
  all plain msg = true ->
  Json.scanstring (Json.Plain false) (msg ++ String dquote r) out
  = Some ((List.rev out ++ Json.text_of_string msg)%list, r).
Proof.
  induction msg as [|c msg IH]; intros r out H.
  - simpl. rewrite app_nil_r. reflexivity.
  - simpl in H. apply andb_true_iff in H. destruct H as [Hc Hm].
    destruct (plain_scanned c Hc) as (H1 & H2 & H3).
    cbn [append Json.scanstring]. rewrite H1, H2, H3.
    rewrite IH by auto. cbn [List.rev]. rewrite <- app_assoc. reflexivity.
Qed.

(** The steps of the scanner on the first character. *)
Lemma scan_once_members n s1 :
  Json.scan_once (S n) (String "{" (String dquote s1)) =
    match Json.scan_members n (String dquote s1) [] with
    | Some (d, r) => Some (Json.Obj d, r)
    | None => None
    end.
Proof. reflexivity. Qed.

Lemma scan_once_string n s1 :
  Json.scan_once (S n) (String dquote s1) =
    match Json.scanstring (Json.Plain false) s1 [] with
    | Some (t, r) => Some (Json.Str t, r)
    | None => None
    end.
Proof. reflexivity. Qed.

Lemma scan_once_digit n d s1 :
  isdigit d = true ->
  Json.scan_once (S n) (String d s1) =
    match Json.scan_number (String d s1) with
    | Some x => Some x
    | None => Json.scan_constant (String d s1)
    end.
Proof.
  intros Hd. apply digit_cases in Hd.
  repeat (destruct Hd as [Hd|Hd]; [subst d; reflexivity|]). contradiction.
Qed.

Lemma scan_members_key n s1 acc :
  Json.scan_members (S n) (String dquote s1) acc =
    match Json.scanstring (Json.Plain false) s1 [] with
    | None => None
    | Some (key, r1) =>
        match Json.skip_ws r1 with
        | String ":" r2 =>
            match Json.scan_once n (Json.skip_ws r2) with
            | None => None
            | Some (v, r3) =>
                match Json.skip_ws r3 with
                | String "}" r4 => Some (List.rev ((key, v) :: acc), r4)
                | String "," r4 =>
                    Json.scan_members n (Json.skip_ws r4) ((key, v) :: acc)
                | _ => None
                end
            end
        | _ => None
        end
    end.
Proof. reflexivity. Qed.

(** A decimal with one digit before the dot, followed by a comma. *)
Lemma scan_number_decimal d fraction r :
  isdigit d = true -> all isdigit fraction = true -> fraction <> "" ->
  Json.scan_number (String d (String "." (fraction ++ String "," r)))
  = Some (Json.Float
            (Float.of_decimal false
               (Json.digits_value (String d fraction) 0)
               (- Z.of_nat (String.length fraction))),
          String "," r).
Proof.
  intros Hd Hf Hne.
  assert (Hspan : Json.span isdigit (fraction ++ String "," r)
                  = (fraction, String "," r)).
  { apply span_all; auto. }
  assert (Hint : Json.scan_int (String d (String "." (fraction ++ String "," r)))
                 = Some (false, String d "",
                         String "." (fraction ++ String "," r))).
  { apply digit_cases in Hd.
    repeat (destruct Hd as [Hd|Hd]; [subst d; reflexivity|]). contradiction. }
  unfold Json.scan_number. rewrite Hint.
  unfold Json.scan_frac. rewrite Hspan.
  destruct fraction as [|c0 fraction]; [congruence|].
  cbn [Json.scan_exp]. reflexivity.
Qed.

Lemma answer_chars d fraction msg :
  answer d fraction msg =
  String "{" (String dquote ("confidence_score" ++ String dquote
    (String ":" (String " " (String d (String "." (fraction ++ String ","
      (String " " (String dquote ("message" ++ String dquote
        (String ":" (String " " (String dquote
          (msg ++ String dquote "}")))))))))))))).
Proof.
  unfold answer, quoted. simpl. rewrite !append_assoc. reflexivity.
Qed.

Lemma skip_ws_space s : Json.skip_ws (String " " s) = Json.skip_ws s.
Proof. reflexivity. Qed.

Lemma skip_ws_digit d s :
  isdigit d = true -> Json.skip_ws (String d s) = String d s.
Proof.
  intros Hd. apply digit_cases in Hd.
  repeat (destruct Hd as [Hd|Hd]; [subst d; reflexivity|]). contradiction.
Qed.

(** A member whose value is followed by a comma and a space, and
    the last member. *)
Lemma member_comma n key s v r acc :
  all plain key = true ->
  Json.scan_once n (Json.skip_ws s) = Some (v, String "," (String " " r)) ->
  Json.scan_members (S n)
    (String dquote (key ++ String dquote (String ":" (String " " s)))) acc
  = Json.scan_members n (Json.skip_ws r)
      ((Json.text_of_string key, v) :: acc).
Proof.
  intros Hk Hv. rewrite scan_members_key, scanstring_plain by auto.
  change (Json.skip_ws (String ":" (String " " s)))
    with (String ":" (String " " s)).
  cbv iota. rewrite skip_ws_space, Hv. reflexivity.
Qed.

Lemma member_last n key s v r acc :
  all plain key = true ->
  Json.scan_once n (Json.skip_ws s) = Some (v, String "}" r) ->
  Json.scan_members (S n)
    (String dquote (key ++ String dquote (String ":" (String " " s)))) acc
  = Some (List.rev ((Json.text_of_string key, v) :: acc), r).
Proof.
  intros Hk Hv. rewrite scan_members_key, scanstring_plain by auto.
  change (Json.skip_ws (String ":" (String " " s)))
    with (String ":" (String " " s)).
  cbv iota. rewrite skip_ws_space, Hv. reflexivity.
Qed.

Lemma loads_answer d fraction msg :
  isdigit d = true -> all isdigit fraction = true -> fraction <> "" ->
  all plain msg = true ->
  Json.loads (answer d fraction msg)
  = Ok (Json.Obj
          [(key_score,
            Json.Float
              (Float.of_decimal false
                 (Json.digits_value (String d fraction) 0)
                 (- Z.of_nat (String.length fraction))));
           (key_message, Json.Str (Json.text_of_string msg))]).
Proof.
  intros Hd Hf Hne Hm. unfold Json.loads.
  assert (Hn : exists n,
            (2 * String.length (answer d fraction msg) + 2 = 4 + n)%nat).
  { exists (2 * (String.length (answer d fraction msg) - 1))%nat.
    unfold answer. simpl. lia. }
  destruct Hn as (n & Hn). rewrite Hn. clear Hn.
  rewrite answer_chars.
  match goal with
  | |- context [Json.skip_ws (String "{" ?s)] =>
      change (Json.skip_ws (String "{" s)) with (String "{" s)
  end.
  cbn [plus]. rewrite scan_once_members.
  rewrite
    (member_comma (S (S n)) "confidence_score" _
       (Json.Float
          (Float.of_decimal false
             (Json.digits_value (String d fraction) 0)
             (- Z.of_nat (String.length fraction))))
       (String dquote ("message" ++ String dquote
          (String ":" (String " " (String dquote
             (msg ++ String dquote "}")))))) []).
  2: reflexivity.
  2:{ rewrite skip_ws_digit, scan_once_digit, scan_number_decimal by auto.
      reflexivity. }
  match goal with
  | |- context [Json.skip_ws (String dquote ?s)] =>
      change (Json.skip_ws (String dquote s)) with (String dquote s)
  end.
  rewrite
    (member_last (S n) "message"
       (String dquote (msg ++ String dquote "}"))
       (Json.Str (Json.text_of_string msg)) "").
  2: reflexivity.
  2:{ match goal with
      | |- context [Json.skip_ws (String dquote ?s)] =>
          change (Json.skip_ws (String dquote s)) with (String dquote s)
      end.
      rewrite scan_once_string, scanstring_plain by auto. reflexivity. }
  reflexivity.
Qed.

Lemma no_char_no_contains c sub : forall s,
  all (fun x => negb (Ascii.eqb c x)) s = true ->
  contains (String c sub) s = false.
Proof.
  induction s as [|b s IH]; intros H; auto.
  simpl in H. apply andb_true_iff in H. destruct H as [Hb Hs].
  cbn [contains drop_prefix].
  destruct (Ascii.eqb c b); [discriminate|]. auto.
Qed.

Lemma plain_not c :
  c = "<"%char \/ c = "`"%char ->
  forall x, plain x = true -> negb (Ascii.eqb c x) = true.
Proof.
  intros [-> | ->] x; destruct x as [[] [] [] [] [] [] [] []]; intros H;
    try reflexivity; discriminate.
Qed.

Lemma digit_not c :
  c = "<"%char \/ c = "`"%char ->
  forall x, isdigit x = true -> negb (Ascii.eqb c x) = true.
Proof.
  intros [-> | ->] x; destruct x as [[] [] [] [] [] [] [] []]; intros H;
    try reflexivity; discriminate.
Qed.

Lemma answer_pieces d fraction msg :
  answer d fraction msg
  = ("{" ++ quoted "confidence_score" ++ ": ")
    ++ String d "." ++ fraction
    ++ (", " ++ quoted "message" ++ ": " ++ String dquote "")
    ++ msg ++ String dquote "}".
Proof. unfold answer, quoted. simpl. rewrite !append_assoc. reflexivity. Qed.

(** An answer holds no angle bracket and no backquote. *)
Lemma answer_without c d fraction msg :
  c = "<"%char \/ c = "`"%char ->
  isdigit d = true -> all isdigit fraction = true -> all plain msg = true ->
  all (fun x => negb (Ascii.eqb c x)) (answer d fraction msg) = true.
Proof.
  intros Hc Hd Hf Hm. rewrite answer_pieces.
  pose proof (digit_not c Hc d Hd) as Hd'.
  pose proof (all_impl _ _ (digit_not c Hc) _ Hf) as Hf'.
  pose proof (all_impl _ _ (plain_not c Hc) _ Hm) as Hm'.
  assert (E1 : all (fun x => negb (Ascii.eqb c x))
                 ("{" ++ quoted "confidence_score" ++ ": ") = true)
    by (destruct Hc as [-> | ->]; reflexivity).
  assert (E2 : all (fun x => negb (Ascii.eqb c x))
                 (", " ++ quoted "message" ++ ": " ++ String dquote "") = true)
    by (destruct Hc as [-> | ->]; reflexivity).
  assert (E3 : all (fun x => negb (Ascii.eqb c x)) (String dquote "}") = true)
    by (destruct Hc as [-> | ->]; reflexivity).
  assert (E4 : all (fun x => negb (Ascii.eqb c x)) (String d ".") = true).
  { cbn [all]. rewrite Hd'. destruct Hc as [-> | ->]; reflexivity. }
  set (P1 := "{" ++ quoted "confidence_score" ++ ": ") in *.
  set (P2 := ", " ++ quoted "message" ++ ": " ++ String dquote "") in *.
  set (P3 := String dquote "}") in *.
  set (P4 := String d ".") in *.
  rewrite !all_app, E1, E2, E3, E4, Hf', Hm'. reflexivity.
Qed.

Lemma replace_absent old new s :
  contains old s = false -> replace old new s = s.
Proof.
  intros H. unfold replace, split.
  rewrite RoutingFacts.split_scan_none by auto. reflexivity.
Qed.

Lemma strip_answer d fraction msg :
  strip (answer d fraction msg) = answer d fraction msg.
Proof.
  unfold strip.
  assert (H1 : lstrip (answer d fraction msg) = answer d fraction msg)
    by reflexivity.
  rewrite H1.
  assert (H2 : exists u, answer d fraction msg = u ++ String "}" "").
  { eexists. unfold answer. rewrite <- !append_assoc. reflexivity. }
  destruct H2 as (u & ->).
  rewrite rstrip_app_nonspace by reflexivity. reflexivity.
Qed.

Lemma clean_answer d fraction msg :
  isdigit d = true -> all isdigit fraction = true -> all plain msg = true ->
  clean (Text (answer d fraction msg)) = Ok (answer d fraction msg).
Proof.
  intros Hd Hf Hm. unfold clean, content_strip, bind.
  rewrite strip_answer.
  rewrite (no_char_no_contains "<" "think>")
    by (apply answer_without; auto).
  cbn [andb].
  rewrite (replace_absent "```json")
    by (apply (no_char_no_contains "`" "``json"), answer_without; auto).
  rewrite (replace_absent "```")
    by (apply (no_char_no_contains "`" "``"), answer_without; auto).
  rewrite strip_answer. reflexivity.
Qed.

Lemma py_float_decimal_value d fraction :
  isdigit d = true -> all isdigit fraction = true -> fraction <> "" ->
  py_float (String d ("." ++ fraction))
  = Ok (Float.of_decimal false (Json.digits_value (String d fraction) 0)
          (- Z.of_nat (String.length fraction))).
Proof.
  intros Hd Hf Hne. unfold py_float. cbn [append].
  assert (Hsp : Json.span isdigit (String d (String "." fraction))
                = (String d "", String "." fraction)).
  { cbn [Json.span]. rewrite Hd. reflexivity. }
  rewrite Hsp.
  assert (Hs : Json.span isdigit fraction = (fraction, "")).
  { rewrite <- (append_empty_r fraction) at 1. apply span_all; auto. }
  rewrite Hs. reflexivity.
Qed.

Lemma extract_answer d fraction msg :
  isdigit d = true -> all isdigit fraction = true -> fraction <> "" ->
  all plain msg = true ->
  extract (answer d fraction msg)
  = Ok (Locals
          (Json.Float
             (Float.of_decimal false (Json.digits_value (String d fraction) 0)
                (- Z.of_nat (String.length fraction))))
          (Json.Str (Json.text_of_string msg))).
Proof.
  intros Hd Hf Hne Hm. unfold extract, approach1.
  destruct (search_answer d fraction msg Hd Hf Hm) as (m & Hs & Hg).
  rewrite Hs, Hg, loads_answer by auto.
  reflexivity.
Qed.

Lemma valid_answer_holds d fraction msg :
  isdigit d = true -> all isdigit fraction = true -> fraction <> "" ->
  all plain msg = true ->
  Nodes.valid_answer (answer d fraction msg) = true.
Proof.
  intros Hd Hf Hne Hm. unfold Nodes.valid_answer.
  destruct (search_answer d fraction msg Hd Hf Hm) as (m & Hs & Hg).
  rewrite Hs, Hg, loads_answer by auto.
  assert (H1 : contains (quoted "confidence_score") (answer d fraction msg)
               = true).
  { apply contains_spec. exists "{". eexists. unfold answer. reflexivity. }
  assert (H2 : contains (quoted "message") (answer d fraction msg) = true).
  { apply contains_spec.
    exists ("{" ++ quoted "confidence_score" ++ ": "
            ++ String d ("." ++ fraction) ++ ", ").
    eexists. unfold answer. rewrite !append_assoc. reflexivity. }
  rewrite H1, H2. reflexivity.
Qed.

(** X17. The answer that the prompt asks for is always understood:
    for an object with a score written as a digit, a dot and digits
    and with a message of plain characters, the reflection node
    accepts the answer as valid, the router reads the score as
    [float] of its text and the message as written, and the route is
    [human_approval] exactly when that score is below 0.75. *)
Theorem requested_answer_is_understood (before : list message)
  (t : msg_type) (d : ascii) (fraction msg : string) :
  isdigit d = true -> all isdigit fraction = true -> fraction <> "" ->
  all plain msg = true ->
  exists f,
    py_float (String d ("." ++ fraction)) = Ok f /\
    Nodes.valid_answer (answer d fraction msg) = true /\
    extract (answer d fraction msg)
      = Ok (Locals (Json.Float f) (Json.Str (Json.text_of_string msg))) /\
    route_after_reflection
      (mkState (before ++ [Message t (Text (answer d fraction msg))])%list)
      = Ok match SFcompare f threshold with
           | Some Lt => human_approval
           | _ => automatic_approval
           end.
Proof.
  intros Hd Hf Hne Hm.
  exists (Float.of_decimal false (Json.digits_value (String d fraction) 0)
            (- Z.of_nat (String.length fraction))).
  split; [apply py_float_decimal_value; auto|].
  split; [apply valid_answer_holds; auto|].
  split; [apply extract_answer; auto|].
  rewrite (route_of_body
             (mkState (before ++ [Message t (Text (answer d fraction msg))])%list)
             _ (RoutingFacts.last_item_snoc before _)).
  unfold route_body, bind. cbn [content].
  rewrite clean_answer, extract_answer by auto.
  rewrite decide_number
    by (cbn [message_text confidence_score printable];
        first [exact I | apply encodable_text]).
  unfold py_lt, py_compare, bind. cbn [confidence_score].
  destruct (SFcompare _ threshold) as [[| |]|]; reflexivity.
Qed.

Lemma requested_answer_is_understood_witness :
  exists f,
    py_float "0.85" = Ok f /\
    Nodes.valid_answer Samples.answer_high = true /\
    extract Samples.answer_high
      = Ok (Locals (Json.Float f) (Json.Str (Json.text_of_string "ok"))) /\
    route_after_reflection (mkState [HumanMessage Samples.answer_high])
      = Ok match SFcompare f threshold with
           | Some Lt => human_approval
           | _ => automatic_approval
           end.
Proof.
  apply (requested_answer_is_understood [] human "0" "85" "ok");
    [reflexivity|reflexivity|discriminate|reflexivity].
Defined.

End FormatFacts.

(* ================================================================= *)
(** ** More facts on the graph *)

Module BuilderFacts.
Import Graph Router GraphFacts.

Lemma run_automatic_exists : run builder run_automatic.
Proof.
  eexists. split; [reflexivity|].
  repeat (apply path_step; [first [edge | apply step_reflect_automatic]|]).
  apply path_stop.
Qed.

Lemma run_human_exists : run builder run_human.
Proof.
  eexists. split; [reflexivity|].
  repeat (apply path_step; [first [edge | apply step_reflect_human]|]).
  apply path_stop.
Qed.

(** X18. The graph is well formed: no node is added twice; every
    transition, the conditional ones included, leads from the start or
    a node to a node or the end; nothing leaves the end or enters the
    start; and every node lies on a run from the start that goes on to
    the end. *)
Theorem builder_well_formed :
  NoDup (nodes builder) /\
  (forall a b, step builder a b ->
     (a = START \/ In a (nodes builder)) /\
     (b = END \/ In b (nodes builder)) /\
     a <> END /\ b <> START) /\
  (forall n, In n (nodes builder) ->
     exists p q, run builder (p ++ n :: q) /\ last (n :: q) n = END).
Proof.
  split; [|split].
  - simpl. repeat constructor; simpl; intuition discriminate.
  - intros a b H. apply step_inv in H.
    repeat (destruct H as [H|H]);
      try (destruct H as [-> [-> | ->]]; simpl;
           repeat split; try tauto; discriminate);
      destruct H as [-> ->]; simpl; repeat split; try tauto; discriminate.
  - intros n H. simpl in H.
    repeat (destruct H as [H|H]); try contradiction; subst n.
    + exists [START], ["store"; "external_process"; "reflect";
                       "automatic_approval"; END].
      split; [apply run_automatic_exists|reflexivity].
    + exists [START; "generate"], ["external_process"; "reflect";
                                   "automatic_approval"; END].
      split; [apply run_automatic_exists|reflexivity].
    + exists [START; "generate"; "store"],
             ["reflect"; "automatic_approval"; END].
      split; [apply run_automatic_exists|reflexivity].
    + exists [START; "generate"; "store"; "external_process"],
             ["automatic_approval"; END].
      split; [apply run_automatic_exists|reflexivity].
    + exists [START; "generate"; "store"; "external_process"; "reflect"],
             [END].
      split; [apply run_automatic_exists|reflexivity].
    + exists [START; "generate"; "store"; "external_process"; "reflect"],
             [END].
      split; [apply run_human_exists|reflexivity].
Qed.

End BuilderFacts.

(* ================================================================= *)
(** ** The place under the quoted key *)

Module PlaceFacts.
Import Str StrFacts TextFacts Re External Format RouterFacts.
Local Open Scope string_scope.

Lemma append_inv_head : forall a x y, a ++ x = a ++ y -> x = y.
Proof.
  induction a as [|c a IH]; simpl; intros x y H; auto.
  inversion H; auto.
Qed.

(** Two ways to cut the same text. *)
Lemma append_cuts : forall b t k x,
  b ++ t = k ++ x ->
  (exists y, b = k ++ y /\ x = y ++ t) \/
  (exists y, k = b ++ y /\ t = y ++ x).
Proof.
  induction b as [|c b IH]; intros t k x H; simpl in H.
  - right. exists k. auto.
  - destruct k as [|c' k]; simpl in H.
    + left. exists (String c b). subst x. auto.
    + inversion H; subst c'.
      destruct (IH t k x H2) as [(y & -> & ->)|(y & -> & ->)].
      * left. exists y. auto.
      * right. exists y. auto.
Qed.

Lemma take_append_more : forall a n y,
  take (String.length a + n) (a ++ y) = a ++ take n y.
Proof. induction a as [|c a IH]; intros n y; simpl; auto. f_equal. auto. Qed.

(** Up to the first character outside [p] a text is determined. *)
Lemma first_stop (p : ascii -> bool) (c : ascii) :
  p c = false ->
  forall X Y r1 r2,
  all p X = true -> all p Y = true ->
  X ++ String c r1 = Y ++ String c r2 -> X = Y /\ r1 = r2.
Proof.
  intros Hc. induction X as [|a X IH]; intros [|b Y] r1 r2 HX HY H;
    simpl in *.
  - inversion H; auto.
  - inversion H; subst. rewrite Hc in HY. discriminate.
  - inversion H; subst. rewrite Hc in HX. discriminate.
  - apply andb_true_iff in HX. destruct HX as [_ HX].
    apply andb_true_iff in HY. destruct HY as [_ HY].
    inversion H; subst. destruct (IH Y r1 r2 HX HY) as [-> ->]; auto.
Qed.

(** Before the first occurrence of [key] no text starts with it. *)
Lemma no_earlier_start key a b tail x :
  first_occurrence key (a ++ b) = true -> b <> "" ->
  b ++ key ++ tail = key ++ x -> False.
Proof.
  unfold first_occurrence. intros Hf Hb H.
  apply negb_true_iff in Hf.
  assert (Hc : contains key
                 ((a ++ b) ++ take (String.length key - 1) key) = true);
    [|congruence].
  apply contains_spec.
  destruct (append_cuts _ _ _ _ H) as [(y & -> & _)|(y & Hk & Ht)].
  - exists a, (y ++ take (String.length key - 1) key).
    rewrite !append_assoc. reflexivity.
  - destruct (append_cuts _ _ _ _ Ht) as [(z & Hz & _)|(z & Hz & _)].
    2:{ exfalso. apply (f_equal String.length) in Hk, Hz.
        rewrite !length_append in *.
        destruct b; [congruence|simpl in *; lia]. }
    + exists a, (take (String.length b - 1) z).
      assert (Hl : String.length z = String.length b).
      { pose proof (f_equal String.length Hk) as L1.
        pose proof (f_equal String.length Hz) as L2.
        rewrite !length_append in *. lia. }
      assert (Hn : (String.length key - 1
                    = String.length y + (String.length b - 1))%nat).
      { pose proof (f_equal String.length Hk) as L1.
        rewrite !length_append in *.
        destruct b; [congruence|simpl in *; lia]. }
      assert (Et : take (String.length key - 1) key
                   = y ++ take (String.length b - 1) z).
      { rewrite Hn. rewrite Hz. apply take_append_more. }
      rewrite Et. rewrite Hk. rewrite !append_assoc. reflexivity.
Qed.

Lemma search_from_first key r' tail : forall pre a pv off,
  first_occurrence key (a ++ pre) = true ->
  search_from false (Seq (Lit key) r') pv (pre ++ key ++ tail) off
  = search_from false (Seq (Lit key) r') (last_char pv pre) (key ++ tail)
      (off + String.length pre).
Proof.
  induction pre as [|c pre IH]; intros a pv off Hf.
  - simpl. rewrite Nat.add_0_r. reflexivity.
  - change ((String c pre) ++ key ++ tail)
      with (String c (pre ++ key ++ tail)).
    cbn [search_from].
    destruct (match_here false (Seq (Lit key) r') pv
                (String c (pre ++ key ++ tail)) off) as [m|] eqn:E.
    + exfalso. apply SearchFacts.match_here_split in E.
      destruct E as (rest & Hs & Hm).
      inversion Hm as [| | | | | |? ? ? w1 w2 ? ? ? H1 H2| | | | |]; subst.
      inversion H1; subst.
      match goal with
      | H : lit_eq false key w1 = true |- _ =>
          apply lit_eq_exact in H; subst w1
      end.
      match goal with
      | H : _ = m_group0 m |- _ => rewrite <- H in Hs
      end.
      rewrite append_assoc in Hs.
      apply (no_earlier_start key a (String c pre) tail (w2 ++ rest) Hf);
        [discriminate|exact Hs].
    + rewrite (IH (a ++ String c "") (Some c) (S off)).
      * simpl. f_equal. lia.
      * rewrite append_assoc. exact Hf.
Qed.

Lemma search_from_here ic r pv s off m :
  match_here ic r pv s off = Some m -> search_from ic r pv s off = Some m.
Proof. intros H. destruct s; simpl; rewrite H; reflexivity. Qed.

(** What a match of the pattern holds. *)
Lemma place_pattern_match pv g0 rest gs :
  matches false place_of_birth_pattern pv g0 rest gs ->
  exists ws g, g0 = place_key ++ ws ++ String dquote (g ++ String dquote "")
    /\ all isspace ws = true /\ all not_dquote g = true /\ gs = [g].
Proof.
  unfold place_of_birth_pattern, Router.seq, dq. intros H. inv_matches.
  eexists _, _. split; [reflexivity|]. repeat split; auto.
  simpl. match goal with H : not_dquote _ = true |- _ => rewrite H end.
  auto.
Qed.

Lemma space_not_dquote c : isspace c = true -> not_dquote c = true.
Proof.
  destruct c as [[] [] [] [] [] [] [] []]; intros H;
    try reflexivity; discriminate.
Qed.

(** [re.search] finds the value of the first occurrence of the key. *)
Lemma search_place pre ws place post :
  first_occurrence place_key pre = true ->
  all isspace ws = true -> place <> "" -> all not_dquote place = true ->
  exists m,
    search false place_of_birth_pattern
      (pre ++ place_key ++ ws ++ quoted place ++ post) = Some m /\
    group m 1 = Some place.
Proof.
  intros Hf Hws Hne Hp. unfold search.
  change place_of_birth_pattern
    with (Seq (Lit place_key)
            (Router.seq [Star isspace; dq; Group (Plus not_dquote); dq])).
  rewrite (search_from_first place_key _ _ pre "" None 0) by exact Hf.
  change (Seq (Lit place_key)
            (Router.seq [Star isspace; dq; Group (Plus not_dquote); dq]))
    with place_of_birth_pattern.
  set (pv := last_char None pre). set (off := (0 + String.length pre)%nat).
  assert (Hmatch : matches false place_of_birth_pattern pv
            (place_key ++ ws ++ String dquote "" ++ place ++ String dquote "")
            post ([] ++ [] ++ [] ++ ([] ++ [place]) ++ [])%list).
  { unfold place_of_birth_pattern, Router.seq, dq.
    apply M_Seq; [constructor; reflexivity|].
    apply M_Seq; [constructor; auto|].
    apply M_Seq; [constructor; reflexivity|].
    apply M_Seq; [|constructor; reflexivity].
    apply M_Group. destruct place as [|b place]; [congruence|].
    simpl in Hp. apply andb_true_iff in Hp. destruct Hp as [Hb Hp].
    constructor; auto. }
  assert (Htext : place_key ++ ws ++ quoted place ++ post
                  = (place_key ++ ws ++ String dquote "" ++ place
                     ++ String dquote "") ++ post).
  { unfold quoted. simpl. rewrite !append_assoc. simpl.
    rewrite !append_assoc. reflexivity. }
  rewrite Htext.
  destruct (MatcherFacts.run_complete false place_of_birth_pattern pv _ _ _
              Hmatch
              (Cursor pv ((place_key ++ ws ++ String dquote "" ++ place
                           ++ String dquote "") ++ post) off [])
              (fun c => Some c) _ eq_refl eq_refl eq_refl) as (c' & Hc).
  assert (Hh : exists m,
            match_here false place_of_birth_pattern pv
              ((place_key ++ ws ++ String dquote "" ++ place
                ++ String dquote "") ++ post) off = Some m).
  { unfold match_here. rewrite Hc. eauto. }
  destruct Hh as (m & Hh).
  exists m. split.
  { apply search_from_here. exact Hh. }
  apply SearchFacts.match_here_split in Hh. destruct Hh as (rest & Hs & Hm).
  apply place_pattern_match in Hm.
  destruct Hm as (ws' & g & Hg0 & Hws' & Hg & Hgs).
  unfold group. rewrite Hgs. simpl. f_equal.
  rewrite Hg0 in Hs. rewrite !append_assoc in Hs.
  apply append_inv_head in Hs. simpl in Hs.
  destruct (first_stop not_dquote dquote eq_refl ws ws' _ _
              (FormatFacts.all_impl _ _ space_not_dquote _ Hws)
              (FormatFacts.all_impl _ _ space_not_dquote _ Hws') Hs) as (_ & Hs').
  rewrite !append_assoc in Hs'. simpl in Hs'.
  destruct (first_stop not_dquote dquote eq_refl place g _ _ Hp Hg Hs')
    as (-> & _).
  reflexivity.
Qed.

(** X19. The place written under the quoted key is the one that is
    verified: when the text of the first message holds the key
    ["place_of_birth":], then optional white space and a quoted,
    non-empty value, and the key does not occur earlier in that text,
    the service answers with the verification of exactly that value,
    whatever else the messages hold. *)
Theorem place_under_key_is_verified (item : message) (rest : list message)
  (pre ws place post : string) :
  content item
    = Text (pre ++ place_key ++ ws ++ quoted place ++ post) ->
  first_occurrence place_key pre = true ->
  all isspace ws = true -> place <> "" -> all not_dquote place = true ->
  call_external_service (Items (item :: rest))
  = ([("verification_type", PStr "place_of_birth");
      ("input_data", PStr place)]
     ++ verify_place_of_birth (Text place))%list.
Proof.
  intros Hc Hf Hws Hne Hp.
  destruct (search_place pre ws place post Hf Hws Hne Hp) as (m & Hs & Hg).
  unfold call_external_service, call_body. cbn [scan_items].
  rewrite Hc. cbn [py_search bind]. rewrite Hs.
  unfold Router.group1. rewrite Hg. cbn [bind].
  destruct place as [|c place]; [congruence|]. reflexivity.
Qed.

Lemma place_under_key_is_verified_witness :
  call_external_service (Items (Nodes.ai_messages Cases.state_extracted))
  = ([("verification_type", PStr "place_of_birth");
      ("input_data", PStr "Westmead Hospital")]
     ++ verify_place_of_birth (Text "Westmead Hospital"))%list.
Proof.
  apply (place_under_key_is_verified (AIMessage Cases.extracted) []
           ("{" ++ quoted "name" ++ ": " ++ quoted "Jo" ++ ", ")
           " " "Westmead Hospital" "}");
    [reflexivity|reflexivity|reflexivity|discriminate|reflexivity].
Defined.

End PlaceFacts.

(* ================================================================= *)
(** ** An answer inside a code fence *)

Module FenceFacts.
Import Str StrFacts TextFacts Re Router Format RouterFacts FormatFacts.
Local Open Scope string_scope.

(** The scan passes over a text without backquote. *)
Lemma split_scan_pass sep' rest : forall X cur,
  all (fun x => negb (Ascii.eqb "`" x)) X = true ->
  split_scan (String "`" sep') (X ++ rest) 0 cur
  = split_scan (String "`" sep') rest 0 (rev_append X cur).
Proof.
  induction X as [|c X IH]; intros cur H; auto.
  cbn [all] in H. apply andb_true_iff in H. destruct H as [Hc HX].
  change ((String c X) ++ rest) with (String c (X ++ rest)).
  cbn [split_scan drop_prefix].
  apply negb_true_iff in Hc. rewrite Hc.
  rewrite IH by auto. reflexivity.
Qed.

Lemma space_not c :
  c = "<"%char \/ c = "`"%char ->
  forall x, isspace x = true -> negb (Ascii.eqb c x) = true.
Proof.
  intros [-> | ->] x; destruct x as [[] [] [] [] [] [] [] []]; intros H;
    try reflexivity; discriminate.
Qed.

Lemma rev_rev_append X : rev (rev_append X "") = X.
Proof. rewrite rev_append_spec, append_empty_r. apply rev_involutive. Qed.

(** Removing the two markers from a fenced text without backquote. *)
Lemma unfence X :
  all (fun x => negb (Ascii.eqb "`" x)) X = true ->
  replace "```" "" (replace "```json" "" ("```json" ++ X ++ "```")) = X.
Proof.
  intros HX.
  assert (H1 : replace "```json" "" ("```json" ++ X ++ "```") = X ++ "```").
  { unfold replace, split.
    change ("```json" ++ X ++ "```")
      with (String "`" ("``json" ++ X ++ "```")).
    cbn [split_scan].
    replace (drop_prefix "```json" (String "`" ("``json" ++ X ++ "```")))
      with (Some (X ++ "```"))
      by (symmetry; apply drop_prefix_spec; reflexivity).
    change (String.length "```json" - 1)%nat with (String.length "``json").
    rewrite RoutingFacts.split_scan_skip.
    rewrite split_scan_pass by auto.
    cbn [split_scan drop_prefix Ascii.eqb Bool.eqb join].
    rewrite !rev_cons, rev_rev_append, !append_assoc. reflexivity. }
  rewrite H1. unfold replace, split.
  rewrite split_scan_pass by auto.
  cbn [split_scan].
  replace (drop_prefix "```" "```") with (Some "")
    by (symmetry; apply drop_prefix_spec; reflexivity).
  cbn [split_scan String.length Nat.sub join].
  rewrite rev_rev_append, append_empty_r. reflexivity.
Qed.

Lemma lstrip_pad a s : all isspace a = true -> lstrip (a ++ s) = lstrip s.
Proof.
  induction a as [|c a IH]; simpl; auto.
  intros H. apply andb_true_iff in H. destruct H as [Hc Ha].
  rewrite Hc. auto.
Qed.

Lemma rstrip_pad s b : all isspace b = true -> rstrip (s ++ b) = rstrip s.
Proof.
  intros H. unfold rstrip. rewrite rev_app, lstrip_pad; auto.
  rewrite all_rev. auto.
Qed.

Lemma strip_pad a s b :
  all isspace a = true -> all isspace b = true ->
  strip (a ++ s ++ b) = strip s.
Proof.
  intros Ha Hb. unfold strip.
  rewrite lstrip_pad, <- lstrip_rstrip, rstrip_pad, lstrip_rstrip by auto.
  reflexivity.
Qed.

Lemma strip_fenced ws1 X ws4 :
  all isspace ws1 = true -> all isspace ws4 = true ->
  strip (ws1 ++ ("```json" ++ X ++ "```") ++ ws4) = "```json" ++ X ++ "```".
Proof.
  intros H1 H4. rewrite strip_pad by auto. unfold strip.
  change (lstrip ("```json" ++ X ++ "```")) with ("```json" ++ X ++ "```").
  replace ("```json" ++ X ++ "```")
    with (("```json" ++ X ++ "``") ++ String "`" "")
    by (simpl; rewrite !append_assoc; reflexivity).
  rewrite rstrip_app_nonspace by reflexivity. reflexivity.
Qed.

Lemma all_strip p s : all p s = true -> all p (strip s) = true.
Proof.
  intros H. destruct (strip_split s) as (a & b & E & _).
  rewrite E, !all_app in H.
  apply andb_true_iff in H. destruct H as [_ H].
  apply andb_true_iff in H. tauto.
Qed.

Lemma not_both c :
  c = "<"%char \/ c = "`"%char ->
  forall x, negb (Ascii.eqb "<" x || Ascii.eqb "`" x) = true ->
  negb (Ascii.eqb c x) = true.
Proof.
  intros [-> | ->] x H; apply negb_true_iff in H;
    apply orb_false_iff in H; destruct H as [H1 H2];
    [rewrite H1|rewrite H2]; reflexivity.
Qed.

(** Cleaning a text without angle bracket and backquote only strips
    it, and cleaning it inside a fence gives the same. *)
Lemma clean_bare T :
  all (fun x => negb (Ascii.eqb "<" x || Ascii.eqb "`" x)) T = true ->
  clean (Text T) = Ok (strip T).
Proof.
  intros HT.
  assert (Hall : forall c, c = "<"%char \/ c = "`"%char ->
            all (fun x => negb (Ascii.eqb c x)) (strip T) = true).
  { intros c Hc. apply all_strip.
    apply (all_impl _ _ (not_both c Hc) _ HT). }
  unfold clean, content_strip, bind.
  rewrite (no_char_no_contains "<" "think>") by (apply Hall; auto).
  cbn [andb].
  rewrite (replace_absent "```json")
    by (apply (no_char_no_contains "`" "``json"), Hall; auto).
  rewrite (replace_absent "```")
    by (apply (no_char_no_contains "`" "``"), Hall; auto).
  rewrite strip_idem. reflexivity.
Qed.

Lemma clean_fenced T ws1 ws2 ws3 ws4 :
  all (fun x => negb (Ascii.eqb "<" x || Ascii.eqb "`" x)) T = true ->
  all isspace ws1 = true -> all isspace ws2 = true ->
  all isspace ws3 = true -> all isspace ws4 = true ->
  clean (Text (ws1 ++ "```json" ++ ws2 ++ T ++ ws3 ++ "```" ++ ws4))
  = Ok (strip T).
Proof.
  intros HT H1 H2 H3 H4.
  assert (Hall : forall c, c = "<"%char \/ c = "`"%char ->
            all (fun x => negb (Ascii.eqb c x)) (ws2 ++ T ++ ws3) = true).
  { intros c Hc. rewrite !all_app.
    rewrite (all_impl _ _ (space_not c Hc) _ H2).
    rewrite (all_impl _ _ (space_not c Hc) _ H3).
    rewrite (all_impl _ _ (not_both c Hc) _ HT). reflexivity. }
  replace (ws1 ++ "```json" ++ ws2 ++ T ++ ws3 ++ "```" ++ ws4)
    with (ws1 ++ ("```json" ++ (ws2 ++ T ++ ws3) ++ "```") ++ ws4)
    by (simpl; rewrite !append_assoc; reflexivity).
  set (X := ws2 ++ T ++ ws3) in *.
  unfold clean, content_strip, bind. rewrite strip_fenced by auto.
  rewrite (no_char_no_contains "<" "think>").
  2:{ rewrite !all_app, (Hall "<"%char) by auto. reflexivity. }
  cbn [andb]. rewrite unfence by (apply Hall; auto).
  unfold X. rewrite strip_pad by auto. reflexivity.
Qed.

(** X20. An answer wrapped in a markdown code fence is read like the
    bare answer: for every text without angle bracket and backquote,
    with any white space around the text and the two fence markers,
    the route is the one of the text alone. *)
Theorem fenced_answer_is_read_bare (before : list message) (t : msg_type)
  (T ws1 ws2 ws3 ws4 : string) :
  all (fun x => negb (Ascii.eqb "<" x || Ascii.eqb "`" x)) T = true ->
  all isspace ws1 = true -> all isspace ws2 = true ->
  all isspace ws3 = true -> all isspace ws4 = true ->
  route_after_reflection
    (mkState (before ++
       [Message t (Text (ws1 ++ "```json" ++ ws2 ++ T
                         ++ ws3 ++ "```" ++ ws4))])%list)
  = route_after_reflection (mkState (before ++ [Message t (Text T)])%list).
Proof.
  intros HT H1 H2 H3 H4.
  rewrite (route_of_body
             (mkState (before ++
                [Message t (Text (ws1 ++ "```json" ++ ws2 ++ T
                                  ++ ws3 ++ "```" ++ ws4))])%list)
             _ (RoutingFacts.last_item_snoc before _)).
  rewrite (route_of_body
             (mkState (before ++ [Message t (Text T)])%list)
             _ (RoutingFacts.last_item_snoc before _)).
  unfold route_body, bind. cbn [content].
  rewrite clean_fenced, clean_bare by auto. reflexivity.
Qed.

Lemma fenced_answer_is_read_bare_witness :
  route_after_reflection
    (mkState [HumanMessage ("```json" ++ Cases.line_break
                            ++ Samples.answer_high
                            ++ Cases.line_break ++ "```" ++ "")])
  = route_after_reflection (mkState [HumanMessage Samples.answer_high]).
Proof.
  apply (fenced_answer_is_read_bare [] human Samples.answer_high
           "" Cases.line_break Cases.line_break "");
    reflexivity.
Defined.

End FenceFacts.

(* ================================================================= *)
(** ** From the certificate to the verification *)

Module PipelineFacts.
Import Str StrFacts TextFacts Re External Format Nodes Pipeline.
Local Open Scope string_scope.

Section Services.
Variable rendering : string.
Variable json_dumps : dict -> string.
Variable dumps_contents : list pyobj -> string.

(** X21. The place that the vision model writes is the one that is
    verified: when its answer, stripped, holds the key
    ["place_of_birth":] with a quoted non-empty value, and the key
    occurs neither in the topic nor earlier in the answer, then after
    the nodes generate, store and external_process the state ends with
    the human message that wraps the verification of exactly that
    value. *)
Theorem pipeline_verifies_extracted_place
  (topic answer pre ws place post : string) :
  strip answer = pre ++ place_key ++ ws ++ quoted place ++ post ->
  first_occurrence place_key (request_header topic ++ pre) = true ->
  all isspace ws = true -> place <> "" -> all not_dquote place = true ->
  verification_message (Ok (Text answer)) rendering json_dumps
    dumps_contents topic
  = Ok (mkState
          [HumanMessage
             ("External Processing Results: "
              ++ json_dumps
                   ([("verification_type", PStr "place_of_birth");
                     ("input_data", PStr place)]
                    ++ verify_place_of_birth (Text place))%list)]).
Proof.
  intros Hs Hf Hws Hne Hp.
  unfold verification_message, generation_node.
  cbn [bind content_strip first_item messages content HumanMessage].
  unfold external_service_node, update, add_messages, ai_messages,
    external_storage_node.
  cbn [messages app filter is_ai type HumanMessage AIMessage].
  do 3 f_equal.
  destruct (PlaceFacts.search_place
              (request_header topic ++ pre) ws place (post ++ analysis)
              Hf Hws Hne Hp) as (m & Hm & Hg).
  unfold call_external_service, call_body. cbn [scan_items content].
  unfold structured_response. rewrite Hs.
  replace (request_header topic
           ++ (pre ++ place_key ++ ws ++ quoted place ++ post) ++ analysis)
    with ((request_header topic ++ pre) ++ place_key ++ ws ++ quoted place
          ++ post ++ analysis)
    by (rewrite !append_assoc; reflexivity).
  unfold AIMessage. cbn [content py_search bind]. rewrite Hm.
  unfold Router.group1. rewrite Hg. cbn [bind].
  destruct place as [|c place]; [congruence|]. reflexivity.
Qed.
End Services.

Lemma pipeline_verifies_extracted_place_witness :
  verification_message (Ok (Text Cases.vision_answer)) "" Cases.dumps_place
    Cases.dumps_count Cases.topic
  = Ok (mkState
          [HumanMessage
             ("External Processing Results: "
              ++ Cases.dumps_place
                   ([("verification_type", PStr "place_of_birth");
                     ("input_data", PStr "Westmead Hospital")]
                    ++ verify_place_of_birth (Text "Westmead Hospital"))%list)]).
Proof.
  apply (pipeline_verifies_extracted_place "" Cases.dumps_place
           Cases.dumps_count Cases.topic Cases.vision_answer
           ("{" ++ quoted "name" ++ ": " ++ quoted "Jo" ++ ", ")
           " " "Westmead Hospital" "}");
    [reflexivity|reflexivity|reflexivity|discriminate|reflexivity].
Defined.

End PipelineFacts.
